(** * Self-improving travel-planning agent: evaluator and memory store

    A shallow embedding of [src/evaluator.py] (class [ExecutionEvaluator])
    and [src/memory.py] (classes [MistakeType], [ExecutionTrace],
    [MemoryStore]), followed by the properties of the mistake-detection and
    constraint-learning loop.

    Conventions of the embedding.
    - Python [str] is [string]; Python [int] is [Z]; a Python list is a
      [list]; [None]-or-value is an [option].
    - A Python [dict] whose iteration order is observable
      ([mistake_patterns]) is an association list in insertion order.
    - Objects are mutated in place in the source; here every method takes
      the object and returns the updated one.
    - [datetime.now().isoformat()] reads a clock that the program does not
      control: the clock is an explicit argument, and each reading advances
      it.
    - The file [agent_memory.json] lives on a disk that maps a path to the
      document last written there. *)

From Stdlib Require Import ZArith QArith Ascii String List Lia.
From Stdlib Require Import Numbers.DecimalString.
From stdpp Require Import base option list gmap strings.

Close Scope Q_scope.
Open Scope string_scope.
Open Scope list_scope.
Open Scope Z_scope.

(* ===================================================================== *)
(** * Python built-ins used by the two modules                            *)
(* ===================================================================== *)

Module Py.

(** [str(n)] and the [{n}] of an f-string, for an [int]. *)
Definition str_of_int (n : Z) : string :=
  NilZero.string_of_int (Z.to_int n).

(** Truth value of a [str]: the empty string is false. *)
Definition truthy (s : string) : bool :=
  match s with EmptyString => false | String _ _ => true end.

(** [len(xs)] as a Python [int]. *)
Definition len {A} (xs : list A) : Z := Z.of_nat (length xs).

(** [c.lower()] on one character: the letters [A]..[Z] move to
    [a]..[z]; every other byte stays (text is taken as ASCII). *)
Definition lower_ascii (c : ascii) : ascii :=
  let n := nat_of_ascii c in
  if ((65 <=? n)%nat && (n <=? 90)%nat)%bool then ascii_of_nat (n + 32) else c.

(** [s.lower()]. *)
Fixpoint lower (s : string) : string :=
  match s with
  | EmptyString => EmptyString
  | String c rest => String (lower_ascii c) (lower rest)
  end.

(** [needle in hay] for two strings: [needle] occurs as a substring. *)
Fixpoint contains (needle hay : string) : bool :=
  if String.prefix needle hay then true
  else match hay with
       | EmptyString => false
       | String _ rest => contains needle rest
       end.

(** [x in xs] for a list (or a set built from it) of strings. *)
Definition mem (x : string) (xs : list string) : bool :=
  bool_decide (x ∈ xs).

(** [xs.index(x)]: position of the first occurrence; [None] stands for
    the [ValueError] raised when [x] does not occur. *)
Fixpoint index (x : string) (xs : list string) : option nat :=
  match xs with
  | [] => None
  | y :: rest => if decide (y = x) then Some 0%nat else S <$> index x rest
  end.

(** [key.split(":", 1)]: the text before the first colon and the text
    after it, or [None] when there is no colon (the result then has one
    element only, and unpacking it into two names raises). *)
Fixpoint split_colon (s : string) : option (string * string) :=
  match s with
  | EmptyString => None
  | String c rest =>
      if decide (c = ":"%char) then Some (EmptyString, rest)
      else match split_colon rest with
           | Some (a, b) => Some (String c a, b)
           | None => None
           end
  end.

(** [xs[-n:]]: the last [n] elements, all of [xs] when it is shorter. *)
Definition last_n {A} (n : nat) (xs : list A) : list A :=
  drop (length xs - n) xs.

(** [xs[-a:-b]] for [0 < b <= a]: start at [max(len - a, 0)], stop
    before [max(len - b, 0)]. *)
Definition slice_neg {A} (a b : nat) (xs : list A) : list A :=
  let lo := (length xs - a)%nat in
  let hi := (length xs - b)%nat in
  take (hi - lo) (drop lo xs).

End Py.

(* ===================================================================== *)
(** * The raw message log (langchain_core.messages)                       *)
(* ===================================================================== *)

(** JSON values: the argument mapping of a tool invocation. *)
#[local] Set Warnings "-register-all".
Inductive json :=
| JNull
| JBool (b : bool)
| JNum (n : Z)
| JStr (s : string)
| JArr (xs : list json)
| JObj (fields : list (string * json)).
#[local] Set Warnings "register-all".

(** One entry of [AIMessage.tool_calls]: [{"name", "args", "id"}]; the id
    may be [None]. *)
Record ToolInvocation := {
  name : string;
  args : json;
  id : option string
}.

Inductive Message :=
| HumanMessage (content : string)
| SystemMessage (content : string)
| AIMessage (content : string) (tool_calls : list ToolInvocation)
| ToolMessage (content : string) (tool_call_id : string).

(* ===================================================================== *)
(** * memory.py: MistakeType, ExecutionTrace                              *)
(* ===================================================================== *)

Module MistakeType.
Definition MISSING_REQUIRED_TOOL := "missing_required_tool".
Definition WRONG_TOOL := "wrong_tool".
Definition WRONG_SEQUENCE := "wrong_sequence".
Definition TOO_EARLY_ANSWER := "too_early_answer".
Definition IGNORED_TOOL_OUTPUT := "ignored_tool_output".
End MistakeType.

(** The clock behind [datetime.now().isoformat()]: an unknown sequence of
    readings and the number of readings taken so far. *)
Record Clock := {
  readings : nat -> string;
  ticks : nat
}.

Definition now_isoformat (c : Clock) : string * Clock :=
  (readings c (ticks c), {| readings := readings c; ticks := S (ticks c) |}).

(** An element of [trace.tool_calls]. *)
Record ToolCall := {
  tool : string;
  arguments : json;
  output : string;
  order : Z
}.

(** An element of [trace.mistakes]; the keys are ["type"],
    ["description"], ["step"], ["timestamp"]. *)
Record Mistake := {
  m_type : string;
  m_description : string;
  m_step : option Z;
  m_timestamp : string
}.

Record ExecutionTrace := {
  run_id : Z;
  task : string;
  timestamp : string;
  trace_tool_calls : list ToolCall;
  final_answer : string;
  success : bool;
  mistakes : list Mistake
}.

Module Trace.

(** [ExecutionTrace.__init__] *)
Definition init (run_id : Z) (task timestamp : string) : ExecutionTrace :=
  {| run_id := run_id; task := task; timestamp := timestamp;
     trace_tool_calls := []; final_answer := ""; success := false;
     mistakes := [] |}.

Definition add_tool_call (self : ExecutionTrace)
    (tool_name : string) (arguments : json) (output : string) : ExecutionTrace :=
  {| run_id := run_id self; task := task self; timestamp := timestamp self;
     trace_tool_calls :=
       trace_tool_calls self ++
       [ {| tool := tool_name; arguments := arguments; output := output;
            order := Py.len (trace_tool_calls self) + 1 |} ];
     final_answer := final_answer self; success := success self;
     mistakes := mistakes self |}.

Definition set_final_answer (self : ExecutionTrace) (answer : string) : ExecutionTrace :=
  {| run_id := run_id self; task := task self; timestamp := timestamp self;
     trace_tool_calls := trace_tool_calls self;
     final_answer := answer; success := success self;
     mistakes := mistakes self |}.

Definition set_success (self : ExecutionTrace) (b : bool) : ExecutionTrace :=
  {| run_id := run_id self; task := task self; timestamp := timestamp self;
     trace_tool_calls := trace_tool_calls self;
     final_answer := final_answer self; success := b;
     mistakes := mistakes self |}.

(** [add_mistake]: appends the mistake, stamped with the clock reading
    taken at this moment. *)
Definition add_mistake (self : ExecutionTrace) (mistake_type description : string)
    (step : option Z) (clk : Clock) : ExecutionTrace * Clock :=
  let '(stamp, clk') := now_isoformat clk in
  ({| run_id := run_id self; task := task self; timestamp := timestamp self;
      trace_tool_calls := trace_tool_calls self;
      final_answer := final_answer self; success := success self;
      mistakes :=
        mistakes self ++
        [ {| m_type := mistake_type; m_description := description;
             m_step := step; m_timestamp := stamp |} ] |},
   clk').

End Trace.

(* ===================================================================== *)
(** * evaluator.py: ExecutionEvaluator                                    *)
(* ===================================================================== *)

Module Evaluator.

Definition REQUIRED_TOOLS : list string := ["check_weather"].

(** The inner loop of [_extract_tool_calls]: the content of the first
    [ToolMessage] of the log whose [tool_call_id] equals the
    invocation's id; [""] when the loop ends without a [break]. *)
Fixpoint find_output (messages : list Message) (call_id : option string) : string :=
  match messages with
  | [] => ""
  | ToolMessage content tid :: rest =>
      if decide (Some tid = call_id) then content else find_output rest call_id
  | _ :: rest => find_output rest call_id
  end.

(** Body of the loop over [msg.tool_calls]. *)
Definition record_invocation (messages : list Message)
    (trace : ExecutionTrace) (tool_call : ToolInvocation) : ExecutionTrace :=
  Trace.add_tool_call trace (name tool_call) (args tool_call)
    (find_output messages (id tool_call)).

(** Body of the loop over [messages]. *)
Definition extract_message (messages : list Message)
    (trace : ExecutionTrace) (msg : Message) : ExecutionTrace :=
  match msg with
  | AIMessage content tool_calls =>
      let trace1 :=
        match tool_calls with
        | [] => trace
        | _ :: _ => fold_left (record_invocation messages) tool_calls trace
        end in
      if Py.truthy content then
        match tool_calls with
        | [] => Trace.set_final_answer trace1 content
        | _ :: _ => trace1
        end
      else trace1
  | _ => trace
  end.

Definition _extract_tool_calls (trace : ExecutionTrace) (messages : list Message)
    : ExecutionTrace :=
  fold_left (extract_message messages) messages trace.

Definition tools_used (trace : ExecutionTrace) : list string :=
  tool <$> trace_tool_calls trace.

Definition _check_missing_required_tools (trace : ExecutionTrace) (clk : Clock)
    : ExecutionTrace * Clock :=
  let used := tools_used trace in
  fold_left
    (fun (st : ExecutionTrace * Clock) required_tool =>
       if negb (Py.mem required_tool used) then
         Trace.add_mistake st.1 MistakeType.MISSING_REQUIRED_TOOL
           ("Required tool '" +:+ required_tool +:+ "' was not used")
           None st.2
       else st)
    REQUIRED_TOOLS (trace, clk).

(** Sub-check 1: hotels before flights. *)
Definition check_hotels_before_flights (used : list string)
    (trace : ExecutionTrace) (clk : Clock) : ExecutionTrace * Clock :=
  if (Py.mem "recommend_hotels" used && Py.mem "search_flights" used)%bool then
    match Py.index "recommend_hotels" used, Py.index "search_flights" used with
    | Some hotel_idx, Some flight_idx =>
        if (hotel_idx <? flight_idx)%nat then
          Trace.add_mistake trace MistakeType.WRONG_SEQUENCE
            "Hotels were recommended before searching for flights"
            (Some (Z.of_nat hotel_idx + 1)) clk
        else (trace, clk)
    | _, _ => (trace, clk)
    end
  else (trace, clk).

(** Sub-check 2: the itinerary should be last. *)
Definition check_itinerary_last (used : list string)
    (trace : ExecutionTrace) (clk : Clock) : ExecutionTrace * Clock :=
  if Py.mem "create_itinerary" used then
    match Py.index "create_itinerary" used with
    | Some itinerary_idx =>
        if Z.of_nat itinerary_idx <? Py.len used - 1 then
          Trace.add_mistake trace MistakeType.WRONG_SEQUENCE
            "Itinerary was created before completing other planning steps"
            (Some (Z.of_nat itinerary_idx + 1)) clk
        else (trace, clk)
    | None => (trace, clk)
    end
  else (trace, clk).

(** Sub-check 3: the weather should be checked first. *)
Definition check_weather_first (used : list string)
    (trace : ExecutionTrace) (clk : Clock) : ExecutionTrace * Clock :=
  if Py.mem "check_weather" used then
    match Py.index "check_weather" used with
    | Some weather_idx =>
        if 0 <? Z.of_nat weather_idx then
          Trace.add_mistake trace MistakeType.WRONG_SEQUENCE
            "Weather should be checked before other tools"
            (Some (Z.of_nat weather_idx + 1)) clk
        else (trace, clk)
    | None => (trace, clk)
    end
  else (trace, clk).

Definition _check_tool_sequence (trace : ExecutionTrace) (clk : Clock)
    : ExecutionTrace * Clock :=
  if Py.len (trace_tool_calls trace) <? 2 then (trace, clk)
  else
    let used := tools_used trace in
    let '(trace1, clk1) := check_hotels_before_flights used trace clk in
    let '(trace2, clk2) := check_itinerary_last used trace1 clk1 in
    check_weather_first used trace2 clk2.

Definition _check_early_termination (trace : ExecutionTrace) (clk : Clock)
    : ExecutionTrace * Clock :=
  if (Py.truthy (final_answer trace) && (Py.len (trace_tool_calls trace) <? 2))%bool then
    Trace.add_mistake trace MistakeType.TOO_EARLY_ANSWER
      ("Agent provided final answer after only "
         +:+ Py.str_of_int (Py.len (trace_tool_calls trace)) +:+ " tool calls")
      (Some (Py.len (trace_tool_calls trace))) clk
  else (trace, clk).

Definition generic_phrases : list string :=
  ["i cannot"; "i don't have access"; "i'm unable to"; "i can't help"].

Definition _check_tool_output_usage (trace : ExecutionTrace)
    (messages : list Message) (clk : Clock) : ExecutionTrace * Clock :=
  if negb (Py.truthy (final_answer trace)) then (trace, clk)
  else
    let final_answer_lower := Py.lower (final_answer trace) in
    if 0 <? Py.len (trace_tool_calls trace) then
      let is_generic :=
        existsb (fun phrase => Py.contains phrase final_answer_lower) generic_phrases in
      if is_generic then
        Trace.add_mistake trace MistakeType.IGNORED_TOOL_OUTPUT
          "Agent ignored tool outputs and provided generic response"
          (Some (Py.len (trace_tool_calls trace) + 1)) clk
      else (trace, clk)
    else (trace, clk).

Definition evaluate (trace : ExecutionTrace) (messages : list Message) (clk : Clock)
    : ExecutionTrace * Clock :=
  let trace0 := _extract_tool_calls trace messages in
  let '(trace1, clk1) := _check_missing_required_tools trace0 clk in
  let '(trace2, clk2) := _check_tool_sequence trace1 clk1 in
  let '(trace3, clk3) := _check_early_termination trace2 clk2 in
  let '(trace4, clk4) := _check_tool_output_usage trace3 messages clk3 in
  (Trace.set_success trace4 (Py.len (mistakes trace4) =? 0), clk4).

End Evaluator.

(* ===================================================================== *)
(** * Exceptions and state: the monad of the memory-store methods         *)
(* ===================================================================== *)

Inductive exn := ValueError | ZeroDivisionError.

Inductive outcome (A : Type) :=
| Return (a : A)
| Raise (e : exn).
Arguments Return {A} a.
Arguments Raise {A} e.

(** A method body: it reads and updates a state, and either returns a
    value or raises; what it changed before raising stays changed. *)
Definition M (S A : Type) : Type := S -> outcome A * S.

Definition ret {S A} (a : A) : M S A := fun s => (Return a, s).

Definition bind {S A B} (m : M S A) (k : A -> M S B) : M S B :=
  fun s =>
    match m s with
    | (Return a, s') => k a s'
    | (Raise e, s') => (Raise e, s')
    end.

Definition raise {S A} (e : exn) : M S A := fun s => (Raise e, s).
Definition get {S} : M S S := fun s => (Return s, s).
Definition modify {S} (f : S -> S) : M S unit := fun s => (Return tt, f s).

#[global] Instance M_ret {S} : MRet (M S) := fun A => @ret S A.
#[global] Instance M_bind {S} : MBind (M S) := fun A B k m => @bind S A B m k.

(** [for x in xs: body(x)]; a raise in the body leaves the loop. *)
Fixpoint for_each {S A} (xs : list A) (body : A -> M S unit) : M S unit :=
  match xs with
  | [] => ret tt
  | x :: rest => body x ;; for_each rest body
  end.

(** The state a run ends in, whether it returned or raised. *)
Definition exec {S A} (m : M S A) (s : S) : S := (m s).2.
Definition result {S A} (m : M S A) (s : S) : outcome A := (m s).1.

(* ===================================================================== *)
(** * memory.py: MemoryStore                                              *)
(* ===================================================================== *)

(** An element of [learned_constraints]. *)
Record Constraint := {
  pattern_key : string;
  constraint : string;
  occurrences : Z;
  created_at : string
}.

(** [ExecutionTrace.to_dict()]: a trace as it is written to the file. *)
Record TraceDict := {
  d_run_id : Z;
  d_task : string;
  d_timestamp : string;
  d_tool_calls : list ToolCall;
  d_final_answer : string;
  d_success : bool;
  d_mistakes : list Mistake
}.

(** The content of the storage file. [_load] reads the four top-level
    keys with [data.get(key, default)], so each may be absent. *)
Record Document := {
  doc_run_counter : option Z;
  doc_learned_constraints : option (list Constraint);
  doc_mistake_patterns : option (list (string * Z));
  doc_execution_history : option (list TraceDict)
}.

Record MemoryStore := {
  storage_path : string;
  execution_history : list ExecutionTrace;
  learned_constraints : list Constraint;
  mistake_patterns : list (string * Z);
  run_counter : Z
}.

(** What a method of the store can touch: the store itself, the clock and
    the disk. *)
Record State := {
  self : MemoryStore;
  clock : Clock;
  disk : gmap string Document
}.

Module Dict.

(** [d.get(k)] / [k in d] on an insertion-ordered dict. *)
Fixpoint lookup {V} (k : string) (d : list (string * V)) : option V :=
  match d with
  | [] => None
  | (k', v) :: rest => if decide (k' = k) then Some v else lookup k rest
  end.

(** [d[k] += 1] on a [defaultdict(int)]: an existing key keeps its
    place, a new key is added at the end with value [0 + 1]. *)
Fixpoint incr (k : string) (d : list (string * Z)) : list (string * Z) :=
  match d with
  | [] => [(k, 0 + 1)]
  | (k', v) :: rest =>
      if decide (k' = k) then (k', v + 1) :: rest else (k', v) :: incr k rest
  end.

End Dict.

Module Store.

Definition to_dict (t : ExecutionTrace) : TraceDict :=
  {| d_run_id := run_id t; d_task := task t; d_timestamp := timestamp t;
     d_tool_calls := trace_tool_calls t; d_final_answer := final_answer t;
     d_success := success t; d_mistakes := mistakes t |}.

(** The body of the loop of [_load]: rebuild a trace from its record. *)
Definition of_dict (trace_data : TraceDict) : ExecutionTrace :=
  let trace := Trace.init (d_run_id trace_data) (d_task trace_data)
                 (d_timestamp trace_data) in
  {| run_id := run_id trace; task := task trace; timestamp := timestamp trace;
     trace_tool_calls := d_tool_calls trace_data;
     final_answer := d_final_answer trace_data;
     success := d_success trace_data;
     mistakes := d_mistakes trace_data |}.

Definition _load (store : MemoryStore) (files : gmap string Document) : MemoryStore :=
  match files !! storage_path store with
  | None => store
  | Some data =>
      let history_data := default [] (doc_execution_history data) in
      {| storage_path := storage_path store;
         run_counter := default 0 (doc_run_counter data);
         learned_constraints := default [] (doc_learned_constraints data);
         mistake_patterns := default [] (doc_mistake_patterns data);
         execution_history :=
           execution_history store ++ (of_dict <$> Py.last_n 50 history_data) |}
  end.

(** [MemoryStore.__init__]: an empty store, then what the file holds. *)
Definition init (path : string) (files : gmap string Document) : MemoryStore :=
  _load {| storage_path := path; execution_history := [];
           learned_constraints := []; mistake_patterns := [];
           run_counter := 0 |} files.

Definition document (store : MemoryStore) : Document :=
  {| doc_run_counter := Some (run_counter store);
     doc_learned_constraints := Some (learned_constraints store);
     doc_mistake_patterns := Some (mistake_patterns store);
     doc_execution_history :=
       Some (to_dict <$> Py.last_n 50 (execution_history store)) |}.

Definition _save : M State unit :=
  modify (fun s =>
    {| self := self s; clock := clock s;
       disk := <[storage_path (self s) := document (self s)]> (disk s) |}).

Definition set_self (f : MemoryStore -> MemoryStore) : M State unit :=
  modify (fun s => {| self := f (self s); clock := clock s; disk := disk s |}).

(** [datetime.now().isoformat()] inside a method. *)
Definition now : M State string :=
  fun s =>
    let '(stamp, clk) := now_isoformat (clock s) in
    (Return stamp, {| self := self s; clock := clk; disk := disk s |}).

Definition create_trace (task : string) : M State ExecutionTrace :=
  set_self (fun st =>
    {| storage_path := storage_path st;
       execution_history := execution_history st;
       learned_constraints := learned_constraints st;
       mistake_patterns := mistake_patterns st;
       run_counter := run_counter st + 1 |}) ;;
  s ← get;
  stamp ← now;
  ret (Trace.init (run_counter (self s)) task stamp).

Definition constraints_map (description : string) : list (string * string) :=
  [ (MistakeType.MISSING_REQUIRED_TOOL,
       "ALWAYS use the required tool mentioned: " +:+ description);
    (MistakeType.WRONG_SEQUENCE,
       "Follow the correct tool sequence: " +:+ description);
    (MistakeType.TOO_EARLY_ANSWER,
       "Do NOT provide a final answer until ALL necessary tools have been called");
    (MistakeType.IGNORED_TOOL_OUTPUT,
       "MUST incorporate tool outputs into your answer: " +:+ description);
    (MistakeType.WRONG_TOOL,
       "Use the correct tool: " +:+ description) ].

Definition _create_constraint (mistake_type description : string) (count : Z)
    : option string :=
  match Dict.lookup mistake_type (constraints_map description) with
  | Some base_constraint =>
      Some (base_constraint +:+ " (learned from " +:+ Py.str_of_int count
              +:+ " past mistakes)")
  | None => None
  end.

Definition has_constraint (key : string) (cs : list Constraint) : bool :=
  existsb (fun c => bool_decide (pattern_key c = key)) cs.

Definition append_constraint (c : Constraint) : M State unit :=
  set_self (fun st =>
    {| storage_path := storage_path st;
       execution_history := execution_history st;
       learned_constraints := learned_constraints st ++ [c];
       mistake_patterns := mistake_patterns st;
       run_counter := run_counter st |}).

(** Body of the loop of [_learn_from_patterns]. *)
Definition learn_one (item : string * Z) : M State unit :=
  let '(key, count) := item in
  if 2 <=? count then
    match Py.split_colon key with
    | None => raise ValueError
    | Some (mistake_type, description) =>
        s ← get;
        let existing := has_constraint key (learned_constraints (self s)) in
        if negb existing then
          match _create_constraint mistake_type description count with
          | Some text =>
              if Py.truthy text then
                stamp ← now;
                append_constraint
                  {| pattern_key := key; constraint := text;
                     occurrences := count; created_at := stamp |}
              else ret tt
          | None => ret tt
          end
        else ret tt
    end
  else ret tt.

Definition _learn_from_patterns : M State unit :=
  s ← get;
  for_each (mistake_patterns (self s)) learn_one.

Definition mistake_key (mistake : Mistake) : string :=
  m_type mistake +:+ ":" +:+ m_description mistake.

Definition count_mistake (mistake : Mistake) : M State unit :=
  set_self (fun st =>
    {| storage_path := storage_path st;
       execution_history := execution_history st;
       learned_constraints := learned_constraints st;
       mistake_patterns := Dict.incr (mistake_key mistake) (mistake_patterns st);
       run_counter := run_counter st |}).

Definition save_trace (trace : ExecutionTrace) : M State unit :=
  set_self (fun st =>
    {| storage_path := storage_path st;
       execution_history := execution_history st ++ [trace];
       learned_constraints := learned_constraints st;
       mistake_patterns := mistake_patterns st;
       run_counter := run_counter st |}) ;;
  for_each (mistakes trace) count_mistake ;;
  _learn_from_patterns ;;
  _save.

Definition get_active_constraints (store : MemoryStore) : list string :=
  constraint <$> learned_constraints store.

End Store.

(* ===================================================================== *)
(** * memory.py: get_statistics                                           *)
(* ===================================================================== *)

(** The float arithmetic of [get_statistics], as an interface: [a / b]
    on two ints with [b] not zero, [x * n] for a float and an int, and
    [round(x, ndigits)] on a float. *)
Class PyFloat (F : Type) := {
  float_div : Z -> Z -> F;
  float_mul : F -> Z -> F;
  float_round : F -> Z -> F
}.

(** A Python number: [improvement] is the int [0] on one branch and a
    float on the other. *)
Inductive number (F : Type) :=
| Int (n : Z)
| Float (x : F).
Arguments Int {F} n.
Arguments Float {F} x.

Record Statistics (F : Type) := {
  total_runs : Z;
  successful_runs : Z;
  total_mistakes : Z;
  stat_learned_constraints : Z;
  improvement_rate : number F;
  stat_mistake_patterns : list (string * Z)
}.
Arguments total_runs {F} _.
Arguments successful_runs {F} _.
Arguments total_mistakes {F} _.
Arguments stat_learned_constraints {F} _.
Arguments improvement_rate {F} _.
Arguments stat_mistake_patterns {F} _.

Module Stats.
Section WithFloat.

Context {F : Type} `{PyFloat F}.

(** [a / b] on two ints: raises when the divisor is zero. *)
Definition truediv (a b : Z) : outcome F :=
  if b =? 0 then Raise ZeroDivisionError else Return (float_div a b).

(** [round(x, ndigits)]: an int is returned as it is (for
    [ndigits >= 0]), a float is rounded. *)
Definition round (x : number F) (ndigits : Z) : number F :=
  match x with
  | Int n => Int n
  | Float y => Float (float_round y ndigits)
  end.

(** [sum(len(trace.mistakes) for trace in traces)] *)
Definition sum_mistakes (traces : list ExecutionTrace) : Z :=
  fold_left (fun acc trace => acc + Py.len (mistakes trace)) traces 0.

(** [sum(1 for trace in traces if trace.success)] *)
Definition count_success (traces : list ExecutionTrace) : Z :=
  fold_left (fun acc trace => if success trace then acc + 1 else acc) traces 0.

(** The value of the local variable [improvement]. *)
Definition improvement (history : list ExecutionTrace) : outcome (number F) :=
  if 10 <=? Py.len history then
    let recent_mistakes := sum_mistakes (Py.last_n 5 history) in
    let previous_mistakes := sum_mistakes (Py.slice_neg 10 5 history) in
    match truediv (previous_mistakes - recent_mistakes) (Z.max previous_mistakes 1) with
    | Return q => Return (Float (float_mul q 100))
    | Raise e => Raise e
    end
  else Return (Int 0).

Definition get_statistics (store : MemoryStore) : outcome (Statistics F) :=
  let total := Py.len (execution_history store) in
  let successful := count_success (execution_history store) in
  let all_mistakes := sum_mistakes (execution_history store) in
  match improvement (execution_history store) with
  | Return imp =>
      Return {| total_runs := total;
                successful_runs := successful;
                total_mistakes := all_mistakes;
                stat_learned_constraints := Py.len (learned_constraints store);
                improvement_rate := round imp 2;
                stat_mistake_patterns := mistake_patterns store |}
  | Raise e => Raise e
  end.

End WithFloat.
End Stats.

(** Exact rational arithmetic as one implementation of the float
    interface; [round] goes to the nearest multiple of [10^-ndigits],
    ties to the even one. *)
Module ExactFloat.

Definition round_half_even (q : Q) : Z :=
  let n := Qnum q in
  let d := Z.pos (Qden q) in
  let fl := n / d in
  let twice_rem := 2 * (n mod d) in
  if twice_rem <? d then fl
  else if d <? twice_rem then fl + 1
  else if Z.even fl then fl else fl + 1.

Definition round_to (q : Q) (ndigits : Z) : Q :=
  let scale := inject_Z (10 ^ ndigits) in
  Qred (inject_Z (round_half_even (Qmult q scale)) / scale)%Q.

#[global] Instance exact : PyFloat Q := {|
  float_div a b := Qred (inject_Z a / inject_Z b)%Q;
  float_mul x n := Qred (x * inject_Z n)%Q;
  float_round := round_to
|}.

End ExactFloat.

(* ===================================================================== *)
(** * The calls a driver makes on one store                               *)
(* ===================================================================== *)

Inductive Call :=
| CreateTrace (task : string)
| SaveTrace (trace : ExecutionTrace).

Definition call (c : Call) : M State unit :=
  match c with
  | CreateTrace task => _ ← Store.create_trace task; ret tt
  | SaveTrace trace => Store.save_trace trace
  end.

(** The driver makes the calls one after the other; a call that raises
    is caught, and the next call finds the state it left. *)
Fixpoint run_calls (calls : list Call) (s : State) : State :=
  match calls with
  | [] => s
  | c :: rest => run_calls rest (exec (call c) s)
  end.

(** A store that found no file at start-up, with some clock and an empty
    disk. *)
Definition fresh_state (path : string) (clk : Clock) : State :=
  {| self := Store.init path ∅; clock := clk; disk := ∅ |}.

(* ===================================================================== *)
(** * Properties of the trace model and of the evaluator                  *)
(* ===================================================================== *)

Section TraceFacts.

Lemma len_zero_nil {A} (xs : list A) : (Py.len xs =? 0) = true <-> xs = [].
Proof.
  unfold Py.len. rewrite Z.eqb_eq. destruct xs; simpl; split; intros; try done; lia.
Qed.

Lemma add_mistake_mistakes t ty d st clk :
  mistakes (Trace.add_mistake t ty d st clk).1 =
  mistakes t ++ [ {| m_type := ty; m_description := d; m_step := st;
                     m_timestamp := readings clk (ticks clk) |} ].
Proof. reflexivity. Qed.

End TraceFacts.

(** [grows kinds t t']: [t'] is [t] with mistakes appended, each of a kind
    in [kinds]; the tool calls and the final answer are those of [t]. *)
Definition grows (kinds : list string) (t t' : ExecutionTrace) : Prop :=
  trace_tool_calls t' = trace_tool_calls t /\
  final_answer t' = final_answer t /\
  exists added,
    mistakes t' = mistakes t ++ added /\
    Forall (fun m => m_type m ∈ kinds) added.

Section Grows.

Variable kinds : list string.

Lemma grows_refl t : grows kinds t t.
Proof.
  repeat split. exists []. split; [by rewrite app_nil_r | constructor].
Qed.

Lemma grows_trans t1 t2 t3 :
  grows kinds t1 t2 -> grows kinds t2 t3 -> grows kinds t1 t3.
Proof.
  intros (Hc1 & Hf1 & a1 & Hm1 & Hk1) (Hc2 & Hf2 & a2 & Hm2 & Hk2).
  split; [congruence |]. split; [congruence |].
  exists (a1 ++ a2). split.
  - by rewrite Hm2, Hm1, app_assoc.
  - by apply Forall_app.
Qed.

Lemma grows_add_mistake t ty d st clk :
  ty ∈ kinds -> grows kinds t (Trace.add_mistake t ty d st clk).1.
Proof.
  intros Hty. repeat split.
  eexists. split; [apply add_mistake_mistakes |].
  by repeat constructor.
Qed.

End Grows.

(** The kinds of mistake the four checks can record. *)
Definition evaluator_kinds : list string :=
  [ MistakeType.MISSING_REQUIRED_TOOL; MistakeType.WRONG_SEQUENCE;
    MistakeType.TOO_EARLY_ANSWER; MistakeType.IGNORED_TOOL_OUTPUT ].

Ltac kind_in := unfold evaluator_kinds; set_solver.

Section Checks.

Import Evaluator.

Lemma missing_required_grows t clk :
  grows evaluator_kinds t (_check_missing_required_tools t clk).1.
Proof.
  unfold _check_missing_required_tools, REQUIRED_TOOLS. simpl fold_left.
  destruct (negb _); [apply grows_add_mistake; kind_in | apply grows_refl].
Qed.

Lemma hotels_before_flights_grows used t clk :
  grows evaluator_kinds t (check_hotels_before_flights used t clk).1.
Proof.
  unfold check_hotels_before_flights.
  destruct (_ && _)%bool; [| apply grows_refl].
  destruct (Py.index _ used); [| apply grows_refl].
  destruct (Py.index _ used); [| apply grows_refl].
  destruct (_ <? _)%nat; [apply grows_add_mistake; kind_in | apply grows_refl].
Qed.

Lemma itinerary_last_grows used t clk :
  grows evaluator_kinds t (check_itinerary_last used t clk).1.
Proof.
  unfold check_itinerary_last.
  destruct (Py.mem _ used); [| apply grows_refl].
  destruct (Py.index _ used); [| apply grows_refl].
  destruct (_ <? _); [apply grows_add_mistake; kind_in | apply grows_refl].
Qed.

Lemma weather_first_grows used t clk :
  grows evaluator_kinds t (check_weather_first used t clk).1.
Proof.
  unfold check_weather_first.
  destruct (Py.mem _ used); [| apply grows_refl].
  destruct (Py.index _ used); [| apply grows_refl].
  destruct (_ <? _); [apply grows_add_mistake; kind_in | apply grows_refl].
Qed.

Lemma tool_sequence_grows t clk :
  grows evaluator_kinds t (_check_tool_sequence t clk).1.
Proof.
  unfold _check_tool_sequence.
  destruct (_ <? 2); [apply grows_refl |].
  pose proof (hotels_before_flights_grows (tools_used t) t clk) as H1.
  destruct (check_hotels_before_flights _ t clk) as [t1 c1].
  pose proof (itinerary_last_grows (tools_used t) t1 c1) as H2.
  destruct (check_itinerary_last _ t1 c1) as [t2 c2].
  pose proof (weather_first_grows (tools_used t) t2 c2) as H3.
  eapply grows_trans; [exact H1 |]. eapply grows_trans; [exact H2 | exact H3].
Qed.

Lemma early_termination_grows t clk :
  grows evaluator_kinds t (_check_early_termination t clk).1.
Proof.
  unfold _check_early_termination.
  destruct (_ && _)%bool; [apply grows_add_mistake; kind_in | apply grows_refl].
Qed.

Lemma output_usage_grows t messages clk :
  grows evaluator_kinds t (_check_tool_output_usage t messages clk).1.
Proof.
  unfold _check_tool_output_usage.
  destruct (negb _); [apply grows_refl |].
  destruct (0 <? _); [| apply grows_refl].
  destruct (existsb _ _); [apply grows_add_mistake; kind_in | apply grows_refl].
Qed.

(** Extraction records tool calls and the final answer only. *)
Lemma record_invocation_mistakes messages t tc :
  mistakes (record_invocation messages t tc) = mistakes t.
Proof. reflexivity. Qed.

Lemma fold_record_mistakes messages tcs t :
  mistakes (fold_left (record_invocation messages) tcs t) = mistakes t.
Proof. revert t. induction tcs as [| tc tcs IH]; intros t; [done |]. simpl. by rewrite IH. Qed.

Lemma extract_message_mistakes messages t msg :
  mistakes (extract_message messages t msg) = mistakes t.
Proof.
  destruct msg as [c | c | c tcs | c tid]; try done.
  unfold extract_message.
  destruct tcs as [| tc tcs]; destruct (Py.truthy c); try done;
    apply fold_record_mistakes.
Qed.

Lemma extract_mistakes t messages :
  mistakes (_extract_tool_calls t messages) = mistakes t.
Proof.
  unfold _extract_tool_calls. generalize messages at 1. intros all.
  revert t. induction messages as [| m ms IH]; intros t; [done |].
  simpl. by rewrite IH, extract_message_mistakes.
Qed.

(** What [evaluate] leaves in [trace.mistakes]: the mistakes that were
    there, then those the four checks found, and [success] says whether
    that list is empty. *)
Lemma evaluate_shape t messages clk :
  exists t4 clk4,
    Evaluator.evaluate t messages clk =
      (Trace.set_success t4 (Py.len (mistakes t4) =? 0), clk4) /\
    exists added,
      mistakes t4 = mistakes t ++ added /\
      Forall (fun m => m_type m ∈ evaluator_kinds) added.
Proof.
  unfold evaluate.
  pose proof (missing_required_grows (_extract_tool_calls t messages) clk) as H1.
  destruct (_check_missing_required_tools _ clk) as [t1 c1].
  pose proof (tool_sequence_grows t1 c1) as H2.
  destruct (_check_tool_sequence t1 c1) as [t2 c2].
  pose proof (early_termination_grows t2 c2) as H3.
  destruct (_check_early_termination t2 c2) as [t3 c3].
  pose proof (output_usage_grows t3 messages c3) as H4.
  destruct (_check_tool_output_usage t3 messages c3) as [t4 c4].
  exists t4, c4. split; [done |].
  pose proof (grows_trans _ _ _ _ H1 (grows_trans _ _ _ _ H2
                (grows_trans _ _ _ _ H3 H4))) as (_ & _ & added & Hm & Hk).
  exists added. split; [| done].
  simpl in Hm. by rewrite Hm, extract_mistakes.
Qed.

End Checks.

Lemma evaluate_success_iff_no_mistakes_aux trace messages clk :
  success (Evaluator.evaluate trace messages clk).1 = true <->
  mistakes (Evaluator.evaluate trace messages clk).1 = [].
Proof.
  destruct (evaluate_shape trace messages clk) as (t4 & clk4 & Heq & _).
  rewrite Heq. simpl. apply len_zero_nil.
Qed.

(** C1. After [evaluate(trace, raw_messages)] returns, [trace.success] is
    true if and only if [trace.mistakes] is empty: a trace with no mistake
    has [success = True], a trace with one or more has [success = False]. *)
Theorem evaluate_success_iff_no_mistakes
    (trace : ExecutionTrace) (messages : list Message) (clk : Clock) :
  let evaluated := (Evaluator.evaluate trace messages clk).1 in
  (success evaluated = true <-> mistakes evaluated = []) /\
  (mistakes evaluated = [] -> success evaluated = true) /\
  (mistakes evaluated <> [] -> success evaluated = false).
Proof.
  destruct (evaluate_shape trace messages clk) as (t4 & clk4 & Heq & _).
  rewrite Heq. simpl.
  pose proof (len_zero_nil (mistakes t4)) as Hlen.
  split; [exact Hlen |]. split.
  - intros Hnil. by apply Hlen.
  - intros Hne. destruct (Py.len (mistakes t4) =? 0) eqn:E; [| done].
    exfalso. apply Hne. by apply Hlen.
Qed.

(* --------------------------------------------------------------------- *)
(** ** The sequence check on scenario C                                   *)
(* --------------------------------------------------------------------- *)

Definition scenario_C : list string :=
  ["search_flights"; "check_weather"; "recommend_hotels"; "create_itinerary"].

(** A trace whose tool calls carry the given names, in order. *)
Definition trace_of_names (names : list string) : ExecutionTrace :=
  fold_left (fun t n => Trace.add_tool_call t n (JObj []) "") names
    (Trace.init 1 "Plan a trip" "2025-01-01T10:00:00").

Definition wall_clock : Clock :=
  {| readings := fun n => "2025-01-01T10:00:0" +:+ Py.str_of_int (Z.of_nat n);
     ticks := 0 |}.

(** C5. For a trace whose tool-call names are [search_flights],
    [check_weather], [recommend_hotels], [create_itinerary], the sequence
    check records exactly one mistake: the wrong-sequence mistake for the
    weather tool not being first, with step 2. The hotels-before-flights
    sub-check and the itinerary-not-last sub-check leave the trace as it
    is. *)
Theorem scenario_C_only_weather_mistake (trace : ExecutionTrace) (clk : Clock) :
  Evaluator.tools_used trace = scenario_C ->
  Evaluator.check_hotels_before_flights scenario_C trace clk = (trace, clk) /\
  Evaluator.check_itinerary_last scenario_C trace clk = (trace, clk) /\
  mistakes (Evaluator._check_tool_sequence trace clk).1 =
    mistakes trace ++
    [ {| m_type := MistakeType.WRONG_SEQUENCE;
         m_description := "Weather should be checked before other tools";
         m_step := Some 2;
         m_timestamp := readings clk (ticks clk) |} ].
Proof.
  intros Hused.
  assert (Hlen : length (trace_tool_calls trace) = 4%nat).
  { apply (f_equal length) in Hused. unfold Evaluator.tools_used in Hused.
    by rewrite length_fmap in Hused. }
  split; [reflexivity |]. split; [reflexivity |].
  unfold Evaluator._check_tool_sequence, Py.len.
  rewrite Hlen, Hused. reflexivity.
Qed.

Lemma scenario_C_only_weather_mistake_witness :
  Evaluator.tools_used (trace_of_names scenario_C) = scenario_C /\
  length (mistakes (Evaluator._check_tool_sequence
                      (trace_of_names scenario_C) wall_clock).1) = 1%nat.
Proof.
  split; [reflexivity |].
  destruct (scenario_C_only_weather_mistake (trace_of_names scenario_C) wall_clock)
    as (_ & _ & Hm); [reflexivity |].
  rewrite Hm. reflexivity.
Defined.

(* --------------------------------------------------------------------- *)
(** ** Evaluating the same log twice                                      *)
(* --------------------------------------------------------------------- *)

(** A mistake without its timestamp. *)
Definition content (m : Mistake) : string * string * option Z :=
  (m_type m, m_description m, m_step m).

(** Two traces that the checks cannot tell apart: same tool calls, same
    final answer, and mistake lists that differ in timestamps at most. *)
Definition alike (t1 t2 : ExecutionTrace) : Prop :=
  trace_tool_calls t1 = trace_tool_calls t2 /\
  final_answer t1 = final_answer t2 /\
  content <$> mistakes t1 = content <$> mistakes t2.

Section Alike.

Import Evaluator.

Lemma alike_refl t : alike t t.
Proof. done. Qed.

Lemma alike_add_mistake t1 t2 ty d st c1 c2 :
  alike t1 t2 ->
  alike (Trace.add_mistake t1 ty d st c1).1 (Trace.add_mistake t2 ty d st c2).1.
Proof.
  intros (Hc & Hf & Hm). repeat split; try done.
  rewrite !add_mistake_mistakes, !fmap_app. by rewrite Hm.
Qed.

Ltac alike_cases :=
  repeat match goal with
    | |- alike (Trace.add_mistake _ _ _ _ _).1 (Trace.add_mistake _ _ _ _ _).1 =>
        by apply alike_add_mistake
    | |- alike (if ?b then _ else _).1 (if ?b then _ else _).1 => destruct b
    | |- alike (match ?o with Some _ => _ | None => _ end).1
               (match ?o with Some _ => _ | None => _ end).1 => destruct o
    | |- alike (_, _).1 (_, _).1 => done
    end.

Lemma missing_required_alike t1 t2 c1 c2 :
  alike t1 t2 ->
  alike (_check_missing_required_tools t1 c1).1 (_check_missing_required_tools t2 c2).1.
Proof.
  intros Ha. pose proof Ha as (Hc & _ & _).
  unfold _check_missing_required_tools, REQUIRED_TOOLS, tools_used.
  rewrite Hc. simpl fold_left. alike_cases.
Qed.

Lemma hotels_before_flights_alike used t1 t2 c1 c2 :
  alike t1 t2 ->
  alike (check_hotels_before_flights used t1 c1).1
        (check_hotels_before_flights used t2 c2).1.
Proof. intros Ha. unfold check_hotels_before_flights. alike_cases. Qed.

Lemma itinerary_last_alike used t1 t2 c1 c2 :
  alike t1 t2 ->
  alike (check_itinerary_last used t1 c1).1 (check_itinerary_last used t2 c2).1.
Proof. intros Ha. unfold check_itinerary_last. alike_cases. Qed.

Lemma weather_first_alike used t1 t2 c1 c2 :
  alike t1 t2 ->
  alike (check_weather_first used t1 c1).1 (check_weather_first used t2 c2).1.
Proof. intros Ha. unfold check_weather_first. alike_cases. Qed.

Lemma tool_sequence_alike t1 t2 c1 c2 :
  alike t1 t2 ->
  alike (_check_tool_sequence t1 c1).1 (_check_tool_sequence t2 c2).1.
Proof.
  intros Ha. pose proof Ha as (Hc & _ & _).
  unfold _check_tool_sequence, tools_used. rewrite Hc.
  destruct (_ <? 2); [done |].
  pose proof (hotels_before_flights_alike
                (tool <$> trace_tool_calls t2) t1 t2 c1 c2 Ha) as H1.
  destruct (check_hotels_before_flights _ t1 c1) as [u1 d1].
  destruct (check_hotels_before_flights _ t2 c2) as [u2 d2].
  pose proof (itinerary_last_alike
                (tool <$> trace_tool_calls t2) u1 u2 d1 d2 H1) as H2.
  destruct (check_itinerary_last _ u1 d1) as [v1 e1].
  destruct (check_itinerary_last _ u2 d2) as [v2 e2].
  by apply weather_first_alike.
Qed.

Lemma early_termination_alike t1 t2 c1 c2 :
  alike t1 t2 ->
  alike (_check_early_termination t1 c1).1 (_check_early_termination t2 c2).1.
Proof.
  intros Ha. pose proof Ha as (Hc & Hf & _).
  unfold _check_early_termination. rewrite Hc, Hf. alike_cases.
Qed.

Lemma output_usage_alike messages t1 t2 c1 c2 :
  alike t1 t2 ->
  alike (_check_tool_output_usage t1 messages c1).1
        (_check_tool_output_usage t2 messages c2).1.
Proof.
  intros Ha. pose proof Ha as (Hc & Hf & _).
  unfold _check_tool_output_usage. rewrite Hc, Hf. alike_cases.
Qed.

Lemma evaluate_alike t messages c1 c2 :
  alike (evaluate t messages c1).1 (evaluate t messages c2).1.
Proof.
  unfold evaluate.
  pose proof (missing_required_alike _ _ c1 c2
                (alike_refl (_extract_tool_calls t messages))) as H1.
  destruct (_check_missing_required_tools _ c1) as [u1 d1].
  destruct (_check_missing_required_tools _ c2) as [u2 d2].
  cbn [fst snd] in H1.
  pose proof (tool_sequence_alike _ _ d1 d2 H1) as H2.
  destruct (_check_tool_sequence u1 d1) as [v1 e1].
  destruct (_check_tool_sequence u2 d2) as [v2 e2].
  cbn [fst snd] in H2.
  pose proof (early_termination_alike _ _ e1 e2 H2) as H3.
  destruct (_check_early_termination v1 e1) as [w1 f1].
  destruct (_check_early_termination v2 e2) as [w2 f2].
  cbn [fst snd] in H3.
  pose proof (output_usage_alike messages _ _ f1 f2 H3) as H4.
  destruct (_check_tool_output_usage w1 messages f1) as [x1 g1].
  destruct (_check_tool_output_usage w2 messages f2) as [x2 g2].
  exact H4.
Qed.

End Alike.

(** C3, as the code has it. Evaluating the same raw log twice, each time
    on a trace in the same state, gives two mistake lists of the same
    length that agree, position by position, in kind, description and
    step, whatever the clock reads; the timestamp of a mistake is the
    clock reading at its detection and is not part of the agreement. *)
Theorem evaluate_twice_same_content
    (trace : ExecutionTrace) (messages : list Message) (clk1 clk2 : Clock) :
  content <$> mistakes (Evaluator.evaluate trace messages clk1).1 =
  content <$> mistakes (Evaluator.evaluate trace messages clk2).1 /\
  length (mistakes (Evaluator.evaluate trace messages clk1).1) =
  length (mistakes (Evaluator.evaluate trace messages clk2).1).
Proof.
  destruct (evaluate_alike trace messages clk1 clk2) as (_ & _ & Hm).
  split; [exact Hm |].
  apply (f_equal length) in Hm. by rewrite !length_fmap in Hm.
Qed.

(** C3, as stated, fails. With no tool call in the log the evaluator
    records the missing weather check. A second evaluation of a fresh
    trace stamps that mistake with a later clock reading, and a second
    evaluation of the evaluated trace appends the mistake again: in both
    cases the second mistake list is not the first one. *)
Lemma evaluate_twice_not_identical :
  let fresh := Trace.init 1 "Plan a trip" "2025-01-01T10:00:00" in
  let first := Evaluator.evaluate fresh [] wall_clock in
  mistakes (Evaluator.evaluate fresh [] first.2).1 <> mistakes first.1 /\
  mistakes (Evaluator.evaluate first.1 [] first.2).1 <> mistakes first.1.
Proof.
  split; intros H; vm_compute in H; discriminate H.
Qed.

(* --------------------------------------------------------------------- *)
(** ** Extraction: which tool result becomes the output of a call         *)
(* --------------------------------------------------------------------- *)

(** [is_result_for call_id m]: [m] is a tool-result message whose
    correlation id is [call_id]. *)
Definition is_result_for (call_id : option string) (m : Message) : Prop :=
  match m with
  | ToolMessage _ tid => Some tid = call_id
  | _ => False
  end.

(** [first_result call_id log out]: [out] is the content of the first
    tool-result message of [log] that answers [call_id], or the empty
    string when [log] has none. *)
Definition first_result (call_id : option string) (log : list Message)
    (out : string) : Prop :=
  (exists before content tid after,
      log = before ++ ToolMessage content tid :: after /\
      Some tid = call_id /\
      Forall (fun m => ~ is_result_for call_id m) before /\
      out = content)
  \/ (Forall (fun m => ~ is_result_for call_id m) log /\ out = "").

(** All tool invocations of a log, in the order extraction meets them. *)
Definition invocations (log : list Message) : list ToolInvocation :=
  flat_map (fun m => match m with AIMessage _ tcs => tcs | _ => [] end) log.

(** The calls recorded for a run of invocations, the first of them at
    position [start] of [trace.tool_calls]. *)
Fixpoint calls_of (log : list Message) (start : nat) (invs : list ToolInvocation)
    : list ToolCall :=
  match invs with
  | [] => []
  | inv :: rest =>
      {| tool := name inv; arguments := args inv;
         output := Evaluator.find_output log (id inv);
         order := Z.of_nat start + 1 |} :: calls_of log (S start) rest
  end.

Section Extraction.

Import Evaluator.

Lemma find_output_first_result log call_id :
  first_result call_id log (find_output log call_id).
Proof.
  induction log as [| m log IH]; [right; by split |].
  assert (Hskip : ~ is_result_for call_id m ->
                  first_result call_id (m :: log) (find_output log call_id)).
  { intros Hm. destruct IH as [(before & c & tid & after & -> & Hid & Hb & Ho) | [Hall Ho]].
    - left. exists (m :: before), c, tid, after. repeat split; try done.
      by constructor.
    - right. split; [by constructor | done]. }
  destruct m as [c | c | c tcs | c tid]; simpl; try (apply Hskip; simpl; tauto).
  destruct (decide (Some tid = call_id)) as [Heq | Hne].
  - left. exists [], c, tid, log. by repeat split.
  - by apply Hskip.
Qed.

Lemma first_result_find_output call_id log out :
  first_result call_id log out -> out = find_output log call_id.
Proof.
  revert out. induction log as [| m log IH]; intros out.
  - intros [(before & c & tid & after & Heq & _) | [_ ->]]; [| done].
    by destruct before.
  - intros [(before & c & tid & after & Heq & Hid & Hb & ->) | [Hall ->]].
    + destruct before as [| b before]; simplify_eq /=.
      * by rewrite decide_True.
      * apply Forall_cons in Hb as [Hb1 Hb].
        assert (Hrest : c = find_output (before ++ ToolMessage c tid :: after)
                              (Some tid)).
        { apply IH. left. by exists before, c, tid, after. }
        destruct b as [c' | c' | c' tcs | c' tid']; try done.
        simpl in Hb1. by rewrite decide_False.
    + apply Forall_cons in Hall as [Hm Hall].
      assert (Hrest : "" = find_output log call_id) by (apply IH; right; done).
      destruct m as [c' | c' | c' tcs | c' tid']; try done.
      simpl in Hm. simpl. by rewrite decide_False.
Qed.

Lemma first_result_unique call_id log out1 out2 :
  first_result call_id log out1 -> first_result call_id log out2 -> out1 = out2.
Proof.
  intros H1 H2.
  by rewrite (first_result_find_output _ _ _ H1), (first_result_find_output _ _ _ H2).
Qed.

Lemma calls_of_app log start xs ys :
  calls_of log start (xs ++ ys) =
  calls_of log start xs ++ calls_of log (start + length xs) ys.
Proof.
  revert start. induction xs as [| x xs IH]; intros start; simpl.
  - by rewrite Nat.add_0_r.
  - rewrite IH. by replace (S start + length xs)%nat with (start + S (length xs))%nat by lia.
Qed.

Lemma length_calls_of log start invs :
  length (calls_of log start invs) = length invs.
Proof. revert start. induction invs; intros; simpl; [done | by f_equal]. Qed.

Lemma calls_of_lookup log start invs n inv :
  invs !! n = Some inv ->
  calls_of log start invs !! n =
    Some {| tool := name inv; arguments := args inv;
            output := find_output log (id inv);
            order := Z.of_nat (start + n) + 1 |}.
Proof.
  revert start n. induction invs as [| x invs IH]; intros start n Hn; [done |].
  destruct n as [| n]; simpl in *.
  - simplify_eq. by rewrite Nat.add_0_r.
  - rewrite (IH (S start) n Hn). do 3 f_equal. lia.
Qed.

Lemma fold_record_calls log tcs t :
  trace_tool_calls (fold_left (record_invocation log) tcs t) =
  trace_tool_calls t ++ calls_of log (length (trace_tool_calls t)) tcs.
Proof.
  revert t. induction tcs as [| tc tcs IH]; intros t; simpl.
  - by rewrite app_nil_r.
  - rewrite IH. simpl. rewrite <- app_assoc, length_app. simpl.
    unfold Py.len. by rewrite Nat.add_1_r.
Qed.

Lemma extract_message_calls log t msg :
  trace_tool_calls (extract_message log t msg) =
  trace_tool_calls t ++
  calls_of log (length (trace_tool_calls t)) (invocations [msg]).
Proof.
  destruct msg as [c | c | c tcs | c tid]; simpl; try by rewrite app_nil_r.
  rewrite app_nil_r.
  destruct tcs as [| tc tcs].
  - destruct (Py.truthy c); simpl; by rewrite app_nil_r.
  - destruct (Py.truthy c); apply fold_record_calls.
Qed.

Lemma invocations_cons m ms :
  invocations (m :: ms) = invocations [m] ++ invocations ms.
Proof. unfold invocations. simpl. by rewrite app_nil_r. Qed.

Lemma extract_calls t log :
  trace_tool_calls (_extract_tool_calls t log) =
  trace_tool_calls t ++ calls_of log (length (trace_tool_calls t)) (invocations log).
Proof.
  unfold _extract_tool_calls. generalize log at 1 3. intros all.
  revert t. induction log as [| m ms IH]; intros t.
  - simpl. by rewrite app_nil_r.
  - simpl fold_left. rewrite (invocations_cons m ms), IH, extract_message_calls.
    by rewrite calls_of_app, app_assoc, length_app, length_calls_of.
Qed.

Lemma invocations_lookup log pos c tcs n inv :
  log !! pos = Some (AIMessage c tcs) ->
  tcs !! n = Some inv ->
  invocations log !! (length (invocations (take pos log)) + n)%nat = Some inv.
Proof.
  intros Hpos Hn.
  assert (Hsplit : invocations log =
                   invocations (take pos log) ++ tcs ++ invocations (drop (S pos) log)).
  { pose proof (take_drop_middle log pos _ Hpos) as Hmid.
    remember (take pos log) as before. remember (drop (S pos) log) as after.
    rewrite <- Hmid. unfold invocations. by rewrite flat_map_app. }
  rewrite Hsplit, lookup_app_r by lia.
  replace (_ + n - _)%nat with n by lia.
  by rewrite lookup_app_l by (by eapply lookup_lt_Some).
Qed.

End Extraction.

(** C4, as the code has it. For the invocation at position [n] of the
    assistant message at position [pos] of the log, extraction records a
    call with the invocation's name and arguments whose output is the
    content of the first tool-result message of the whole log whose
    correlation id is the invocation's id, wherever that message stands,
    before the assistant message or after it; the output is the empty
    string when no tool-result message of the log carries that id. *)
Theorem extracted_output_first_result_of_log
    (trace : ExecutionTrace) (log : list Message) (pos n : nat)
    (text : string) (tcs : list ToolInvocation) (inv : ToolInvocation) :
  log !! pos = Some (AIMessage text tcs) ->
  tcs !! n = Some inv ->
  exists call,
    trace_tool_calls (Evaluator._extract_tool_calls trace log)
      !! (length (trace_tool_calls trace)
          + length (invocations (take pos log)) + n)%nat = Some call /\
    tool call = name inv /\
    arguments call = args inv /\
    first_result (id inv) log (output call).
Proof.
  intros Hpos Hn.
  pose proof (invocations_lookup log pos text tcs n inv Hpos Hn) as Hinv.
  eexists. split.
  - rewrite extract_calls, <- Nat.add_assoc, lookup_app_r by lia.
    replace (_ + _ - _)%nat with (length (invocations (take pos log)) + n)%nat by lia.
    by apply calls_of_lookup.
  - simpl. repeat split. apply find_output_first_result.
Qed.

(** A log in which a tool result comes before the invocation it names. *)
Definition stale_log : list Message :=
  [ HumanMessage "Plan a trip to Paris";
    ToolMessage "Sunny, 24C" "call_1";
    AIMessage "" [ {| name := "check_weather"; args := JObj []; id := Some "call_1" |} ];
    AIMessage "Here is your plan." [] ].

Lemma extracted_output_first_result_of_log_witness :
  exists call,
    trace_tool_calls
      (Evaluator._extract_tool_calls (Trace.init 1 "Plan a trip" "t0") stale_log)
      !! 0%nat = Some call /\
    first_result (Some "call_1") stale_log (output call).
Proof.
  destruct (extracted_output_first_result_of_log
              (Trace.init 1 "Plan a trip" "t0") stale_log 2 0 ""
              [ {| name := "check_weather"; args := JObj []; id := Some "call_1" |} ]
              {| name := "check_weather"; args := JObj []; id := Some "call_1" |}
              eq_refl eq_refl) as (call & Hcall & _ & _ & Hout).
  exists call. split; [exact Hcall | exact Hout].
Defined.

(** C4, as stated, fails: the claim takes the output from the messages
    after the assistant message only. In [stale_log] no tool result
    follows the invocation, so the claim gives the empty output, while
    extraction records the content of the earlier message. *)
Lemma extracted_output_not_first_result_after :
  ~ (forall trace log pos n text tcs inv,
        log !! pos = Some (AIMessage text tcs) ->
        tcs !! n = Some inv ->
        exists call,
          trace_tool_calls (Evaluator._extract_tool_calls trace log)
            !! (length (trace_tool_calls trace)
                + length (invocations (take pos log)) + n)%nat = Some call /\
          first_result (id inv) (drop (S pos) log) (output call)).
Proof.
  intros Hclaim.
  destruct (Hclaim (Trace.init 1 "Plan a trip" "t0") stale_log 2%nat 0%nat ""
              [ {| name := "check_weather"; args := JObj []; id := Some "call_1" |} ]
              {| name := "check_weather"; args := JObj []; id := Some "call_1" |}
              eq_refl eq_refl) as (call & Hcall & Hout).
  vm_compute in Hcall. injection Hcall as <-.
  simpl in Hout.
  pose proof (first_result_unique _ _ _ _ Hout
                (find_output_first_result _ _)) as Heq.
  vm_compute in Heq. discriminate Heq.
Qed.

(* ===================================================================== *)
(** * Reasoning about method bodies                                       *)
(* ===================================================================== *)

Section MonadFacts.

Context {S : Type}.

Lemma run_bind {A B} (m : M S A) (k : A -> M S B) s :
  (m ≫= k) s =
  match m s with
  | (Return a, s') => k a s'
  | (Raise e, s') => (Raise e, s')
  end.
Proof. reflexivity. Qed.

Lemma exec_bind {A B} (m : M S A) (k : A -> M S B) s :
  exec (m ≫= k) s =
  match result m s with
  | Return a => exec (k a) (exec m s)
  | Raise _ => exec m s
  end.
Proof.
  unfold exec, result. rewrite run_bind. by destruct (m s) as [[a | e] s'].
Qed.

Lemma run_for_each_cons {A} (x : A) xs (body : A -> M S unit) s :
  for_each (x :: xs) body s =
  match body x s with
  | (Return _, s') => for_each xs body s'
  | (Raise e, s') => (Raise e, s')
  end.
Proof. reflexivity. Qed.

(** A property of the state that a method keeps, whether it returns or
    raises. *)
Definition preserves {A} (P : S -> Prop) (m : M S A) : Prop :=
  forall s, P s -> P (exec m s).

Lemma preserves_ret {A} P (a : A) : preserves P (ret a).
Proof. by intros s. Qed.

Lemma preserves_raise {A} P e : preserves P (raise (A:=A) e).
Proof. by intros s. Qed.

Lemma preserves_get P : preserves P get.
Proof. by intros s. Qed.

Lemma preserves_modify P (f : S -> S) :
  (forall s, P s -> P (f s)) -> preserves P (modify f).
Proof. intros Hf s Hs. by apply Hf. Qed.

Lemma preserves_bind {A B} P (m : M S A) (k : A -> M S B) :
  preserves P m -> (forall a, preserves P (k a)) -> preserves P (m ≫= k).
Proof.
  intros Hm Hk s Hs. rewrite exec_bind.
  destruct (result m s); [apply Hk |]; by apply Hm.
Qed.

Lemma preserves_for_each {A} P (xs : list A) (body : A -> M S unit) :
  (forall x, preserves P (body x)) -> preserves P (for_each xs body).
Proof.
  intros Hbody. induction xs as [| x xs IH]; [apply preserves_ret |].
  apply (preserves_bind P (body x) (fun _ => for_each xs body)); [apply Hbody | done].
Qed.

End MonadFacts.

(* ===================================================================== *)
(** * Properties of the memory store                                      *)
(* ===================================================================== *)

Section StoreFrames.

Import Store.

(** A property of the store that holds whatever happens to the clock
    and the disk. *)
Definition on_store (P : MemoryStore -> Prop) (s : State) : Prop := P (self s).

Lemma preserves_set_self P f :
  (forall st, P st -> P (f st)) -> preserves (on_store P) (set_self f).
Proof. intros Hf. apply preserves_modify. intros s Hs. by apply Hf. Qed.

Lemma preserves_now P : preserves (on_store P) now.
Proof. by intros s Hs. Qed.

Lemma preserves_save P : preserves (on_store P) _save.
Proof. by intros s Hs. Qed.

Lemma preserves_append_constraint P c :
  (forall st, P st ->
     P {| storage_path := storage_path st;
          execution_history := execution_history st;
          learned_constraints := learned_constraints st ++ [c];
          mistake_patterns := mistake_patterns st;
          run_counter := run_counter st |}) ->
  preserves (on_store P) (append_constraint c).
Proof. intros Hc. by apply preserves_set_self. Qed.

(** Whatever [learn_one] keeps when it appends a constraint, the whole
    of [save_trace] keeps too, provided the two updates that come
    before the learning pass keep it. *)
Lemma preserves_learn_one P item :
  (forall c st, P st ->
     P {| storage_path := storage_path st;
          execution_history := execution_history st;
          learned_constraints := learned_constraints st ++ [c];
          mistake_patterns := mistake_patterns st;
          run_counter := run_counter st |}) ->
  preserves (on_store P) (learn_one item).
Proof.
  intros Hc. destruct item as [key count]. unfold learn_one.
  destruct (2 <=? count); [| apply preserves_ret].
  destruct (Py.split_colon key) as [[ty d] |]; [| apply preserves_raise].
  apply preserves_bind; [apply preserves_get |]. intros s0.
  destruct (negb _); [| apply preserves_ret].
  destruct (_create_constraint ty d count) as [text |]; [| apply preserves_ret].
  destruct (Py.truthy text); [| apply preserves_ret].
  apply preserves_bind; [apply preserves_now |]. intros stamp.
  apply preserves_append_constraint. intros st. apply Hc.
Qed.

Lemma preserves_learn P :
  (forall c st, P st ->
     P {| storage_path := storage_path st;
          execution_history := execution_history st;
          learned_constraints := learned_constraints st ++ [c];
          mistake_patterns := mistake_patterns st;
          run_counter := run_counter st |}) ->
  preserves (on_store P) _learn_from_patterns.
Proof.
  intros Hc. apply preserves_bind; [apply preserves_get |]. intros s0.
  apply preserves_for_each. intros item. by apply preserves_learn_one.
Qed.

Lemma preserves_save_trace P trace :
  (forall st, P st ->
     P {| storage_path := storage_path st;
          execution_history := execution_history st ++ [trace];
          learned_constraints := learned_constraints st;
          mistake_patterns := mistake_patterns st;
          run_counter := run_counter st |}) ->
  (forall k st, P st ->
     P {| storage_path := storage_path st;
          execution_history := execution_history st;
          learned_constraints := learned_constraints st;
          mistake_patterns := Dict.incr k (mistake_patterns st);
          run_counter := run_counter st |}) ->
  (forall c st, P st ->
     P {| storage_path := storage_path st;
          execution_history := execution_history st;
          learned_constraints := learned_constraints st ++ [c];
          mistake_patterns := mistake_patterns st;
          run_counter := run_counter st |}) ->
  preserves (on_store P) (save_trace trace).
Proof.
  intros Hh Hp Hc. unfold save_trace.
  apply preserves_bind; [by apply preserves_set_self |]. intros _.
  apply preserves_bind.
  { apply preserves_for_each. intros m. apply preserves_set_self.
    intros st. apply Hp. }
  intros _.
  apply preserves_bind; [by apply preserves_learn |]. intros _.
  apply preserves_save.
Qed.

End StoreFrames.

(* --------------------------------------------------------------------- *)
(** ** create_trace and the run counter                                   *)
(* --------------------------------------------------------------------- *)

Lemma create_trace_run task s :
  Store.create_trace task s =
  (Return (Trace.init (run_counter (self s) + 1) task (readings (clock s) (ticks (clock s)))),
   {| self := {| storage_path := storage_path (self s);
                 execution_history := execution_history (self s);
                 learned_constraints := learned_constraints (self s);
                 mistake_patterns := mistake_patterns (self s);
                 run_counter := run_counter (self s) + 1 |};
      clock := {| readings := readings (clock s); ticks := S (ticks (clock s)) |};
      disk := disk s |}).
Proof. reflexivity. Qed.

Lemma save_trace_run_counter trace s :
  run_counter (self (exec (Store.save_trace trace) s)) = run_counter (self s).
Proof.
  apply (preserves_save_trace (fun st => run_counter st = run_counter (self s)));
    try done.
Qed.

(** The number of [create_trace] calls among the calls of a driver. *)
Fixpoint creations (calls : list Call) : Z :=
  match calls with
  | [] => 0
  | CreateTrace _ :: rest => 1 + creations rest
  | SaveTrace _ :: rest => creations rest
  end.

(** C8. After N calls to [create_trace], [run_counter] is its initial
    value plus N, whatever traces are passed to [save_trace] in between
    and however many; each [create_trace] call returns a trace and has
    already raised the counter by one when it returns, and the new trace
    carries the new counter as its run id. *)
Theorem run_counter_counts_create_trace (calls : list Call) (s : State) :
  run_counter (self (run_calls calls s)) = run_counter (self s) + creations calls /\
  0 <= creations calls /\
  (forall task,
      run_counter (self (exec (Store.create_trace task) s)) = run_counter (self s) + 1 /\
      exists trace,
        result (Store.create_trace task) s = Return trace /\
        run_id trace = run_counter (self s) + 1) /\
  (forall trace,
      run_counter (self (exec (Store.save_trace trace) s)) = run_counter (self s)).
Proof.
  split; [| split; [| split]].
  - revert s. induction calls as [| c calls IH]; intros s; simpl; [lia |].
    rewrite IH. destruct c as [task | trace].
    + change (exec (call (CreateTrace task)) s)
        with (exec (Store.create_trace task) s).
      unfold exec. rewrite create_trace_run. simpl. lia.
    + change (exec (call (SaveTrace trace)) s)
        with (exec (Store.save_trace trace) s).
      rewrite save_trace_run_counter. lia.
  - induction calls as [| [task | trace] calls IH]; simpl; lia.
  - intros task. unfold exec, result. rewrite create_trace_run. simpl.
    split; [done |]. by eexists.
  - intros trace. apply save_trace_run_counter.
Qed.

(* --------------------------------------------------------------------- *)
(** ** A trace as create_trace returns it                                 *)
(* --------------------------------------------------------------------- *)

(** C9. The trace returned by [create_trace] has no tool calls, no
    mistakes, an empty final answer and [success = False]. So a trace
    that was created and not yet evaluated has [success = False] with an
    empty mistake list: "success iff no mistakes" does not hold of it,
    and holds only once the trace has gone through [evaluate]. *)
Theorem created_trace_is_empty_and_unsuccessful (task : string) (s : State) :
  exists trace,
    result (Store.create_trace task) s = Return trace /\
    trace_tool_calls trace = [] /\
    mistakes trace = [] /\
    final_answer trace = "" /\
    success trace = false /\
    ~ (success trace = true <-> mistakes trace = []) /\
    (forall messages clk,
        let evaluated := (Evaluator.evaluate trace messages clk).1 in
        success evaluated = true <-> mistakes evaluated = []).
Proof.
  eexists. split; [unfold result; by rewrite create_trace_run |].
  simpl. repeat split; try done.
  - intros [_ H]. by specialize (H eq_refl).
  - by apply evaluate_success_iff_no_mistakes_aux.
  - by apply evaluate_success_iff_no_mistakes_aux.
Qed.

(* --------------------------------------------------------------------- *)
(** ** Saving and loading                                                 *)
(* --------------------------------------------------------------------- *)

Section RoundTrip.

Import Store.

Lemma of_dict_to_dict t : of_dict (to_dict t) = t.
Proof. by destruct t. Qed.

Lemma last_n_idem {A} n (xs : list A) : Py.last_n n (Py.last_n n xs) = Py.last_n n xs.
Proof.
  unfold Py.last_n. rewrite length_drop.
  replace (length xs - (length xs - n) - n)%nat with 0%nat by lia. done.
Qed.

Lemma last_n_fmap {A B} (f : A -> B) n (xs : list A) :
  Py.last_n n (f <$> xs) = f <$> Py.last_n n xs.
Proof. unfold Py.last_n. by rewrite length_fmap, fmap_drop. Qed.

Lemma length_last_n {A} n (xs : list A) : (length (Py.last_n n xs) <= n)%nat.
Proof. unfold Py.last_n. rewrite length_drop. lia. Qed.

(** The state a fresh instance builds from the document of a store:
    the counter, the constraints and the pattern counts as they were, and
    the last 50 traces of the history. *)
Lemma init_of_document path files st :
  files !! path = Some (document st) ->
  init path files =
  {| storage_path := path;
     execution_history := Py.last_n 50 (execution_history st);
     learned_constraints := learned_constraints st;
     mistake_patterns := mistake_patterns st;
     run_counter := run_counter st |}.
Proof.
  intros Hfile. unfold init, _load. simpl. rewrite Hfile. simpl. f_equal.
  rewrite last_n_fmap, last_n_idem, <- list_fmap_compose.
  rewrite <- (list_fmap_id (Py.last_n 50 _)) at 2.
  apply list_fmap_ext. intros i t _. apply of_dict_to_dict.
Qed.

Lemma init_after_save s :
  init (storage_path (self s)) (disk (exec _save s)) =
  {| storage_path := storage_path (self s);
     execution_history := Py.last_n 50 (execution_history (self s));
     learned_constraints := learned_constraints (self s);
     mistake_patterns := mistake_patterns (self s);
     run_counter := run_counter (self s) |}.
Proof. apply init_of_document. simpl. apply lookup_insert_eq. Qed.

End RoundTrip.

(* --------------------------------------------------------------------- *)
(** ** The improvement rate of get_statistics                             *)
(* --------------------------------------------------------------------- *)

(** The total number of mistakes of some runs. *)
Definition mistake_total (runs : list ExecutionTrace) : Z :=
  Z.of_nat (sum_list ((fun t => length (mistakes t)) <$> runs)).

Section Statistics.

Lemma sum_mistakes_from acc runs :
  fold_left (fun a t => a + Py.len (mistakes t)) runs acc = acc + mistake_total runs.
Proof.
  revert acc. induction runs as [| t runs IH]; intros acc.
  - unfold mistake_total. simpl. lia.
  - simpl fold_left. rewrite IH. unfold mistake_total, Py.len.
    rewrite fmap_cons. simpl sum_list. lia.
Qed.

Lemma sum_mistakes_total {F} `{PyFloat F} runs :
  Stats.sum_mistakes runs = mistake_total runs.
Proof. unfold Stats.sum_mistakes. by rewrite sum_mistakes_from. Qed.

Lemma last_5_of_split {A} (older previous recent : list A) :
  length recent = 5%nat ->
  Py.last_n 5 (older ++ previous ++ recent) = recent.
Proof.
  intros Hr. unfold Py.last_n. rewrite app_assoc, !length_app, Hr.
  replace (_ + 5 - 5)%nat with (length (older ++ previous)) by (rewrite length_app; lia).
  by rewrite drop_app_length.
Qed.

Lemma preceding_5_of_split {A} (older previous recent : list A) :
  length previous = 5%nat -> length recent = 5%nat ->
  Py.slice_neg 10 5 (older ++ previous ++ recent) = previous.
Proof.
  intros Hp Hr. unfold Py.slice_neg. rewrite !length_app, Hp, Hr.
  replace (length older + (5 + 5) - 10)%nat with (length older) by lia.
  replace (length older + (5 + 5) - 5 - length older)%nat with (length previous) by lia.
  by rewrite drop_app_length, take_app_length.
Qed.

(** A history of ten runs or more ends with the preceding five and the
    most recent five. *)
Lemma history_split {A} (history : list A) :
  (10 <= length history)%nat ->
  exists older previous recent,
    history = older ++ previous ++ recent /\
    length previous = 5%nat /\ length recent = 5%nat.
Proof.
  intros Hlen.
  exists (take (length history - 10) history),
         (take 5 (drop (length history - 10) history)),
         (drop 5 (drop (length history - 10) history)).
  split; [by rewrite !take_drop |].
  rewrite length_take, !length_drop. lia.
Qed.

End Statistics.

(** C7, as the code has it. [get_statistics] always returns. With fewer
    than 10 runs in the history the improvement rate is the integer zero.
    With 10 runs or more it is [round(x, 2)], where [x] is the float
    [(previous_mistakes - recent_mistakes) / max(previous_mistakes, 1) * 100],
    [recent_mistakes] is the mistake total of the most recent 5 runs and
    [previous_mistakes] that of the 5 runs before them; the divisor is
    never zero, and it is 1 when those 5 runs had no mistakes. *)
Theorem improvement_rate_is_rounded_ratio {F : Type} `{PyFloat F} (store : MemoryStore) :
  exists stats,
    Stats.get_statistics store = Return stats /\
    ((length (execution_history store) < 10)%nat -> improvement_rate stats = Int 0) /\
    (forall older previous recent,
        execution_history store = older ++ previous ++ recent ->
        length previous = 5%nat -> length recent = 5%nat ->
        let previous_mistakes := mistake_total previous in
        let recent_mistakes := mistake_total recent in
        let divisor := Z.max previous_mistakes 1 in
        divisor <> 0 /\
        (previous_mistakes = 0 -> divisor = 1) /\
        improvement_rate stats =
          Float (float_round
                   (float_mul (float_div (previous_mistakes - recent_mistakes) divisor) 100)
                   2)).
Proof.
  unfold Stats.get_statistics, Stats.improvement, Stats.truediv.
  destruct (10 <=? Py.len (execution_history store)) eqn:Hten.
  - assert (Hne : forall z, (Z.max z 1 =? 0) = false) by (intros z; apply Z.eqb_neq; lia).
    rewrite Hne. eexists. split; [reflexivity |]. split.
    + intros Hlt. apply Z.leb_le in Hten. unfold Py.len in Hten. lia.
    + intros older previous recent Hsplit Hp Hr. simpl.
      rewrite Hsplit, last_5_of_split, preceding_5_of_split by done.
      rewrite !sum_mistakes_total.
      split; [lia |]. split; [lia | done].
  - eexists. split; [reflexivity |]. split; [done |].
    intros older previous recent Hsplit Hp Hr.
    apply Z.leb_gt in Hten. unfold Py.len in Hten.
    rewrite Hsplit, !length_app in Hten. lia.
Qed.

(** Ten runs: the five older ones have three mistakes between them, the
    five recent ones have one. *)
Definition run_with (n : nat) : ExecutionTrace :=
  {| run_id := 1; task := "Plan a trip"; timestamp := "2025-01-01T10:00:00";
     trace_tool_calls := []; final_answer := ""; success := false;
     mistakes :=
       repeat {| m_type := MistakeType.TOO_EARLY_ANSWER;
                 m_description := "Agent provided final answer after only 0 tool calls";
                 m_step := Some 0; m_timestamp := "2025-01-01T10:00:01" |} n |}.

Definition three_then_one : MemoryStore :=
  {| storage_path := "agent_memory.json";
     execution_history :=
       [run_with 1; run_with 1; run_with 1; run_with 0; run_with 0]
         ++ [run_with 1; run_with 0; run_with 0; run_with 0; run_with 0];
     learned_constraints := []; mistake_patterns := []; run_counter := 10 |}.

Lemma improvement_rate_is_rounded_ratio_witness :
  exists stats,
    Stats.get_statistics (F:=Q) three_then_one = Return stats /\
    improvement_rate stats = Float (6667 # 100)%Q.
Proof.
  destruct (improvement_rate_is_rounded_ratio (F:=Q) three_then_one)
    as (stats & Hret & _ & Hrate).
  exists stats. split; [exact Hret |].
  destruct (Hrate [] [run_with 1; run_with 1; run_with 1; run_with 0; run_with 0]
              [run_with 1; run_with 0; run_with 0; run_with 0; run_with 0]
              eq_refl eq_refl eq_refl) as (_ & _ & ->).
  reflexivity.
Defined.

(** C7, as stated, fails: the reported rate is not the ratio itself but
    the ratio rounded to two decimals. In exact arithmetic, with 3
    mistakes in the preceding five runs and 1 in the recent five, the
    ratio is 200/3 and the reported rate is 66.67. *)
Lemma improvement_rate_not_the_ratio :
  ~ (forall (store : MemoryStore) older previous recent,
        execution_history store = older ++ previous ++ recent ->
        length previous = 5%nat -> length recent = 5%nat ->
        exists stats rate,
          Stats.get_statistics (F:=Q) store = Return stats /\
          improvement_rate stats = Float rate /\
          (rate == inject_Z (mistake_total previous - mistake_total recent)
                   / inject_Z (Z.max (mistake_total previous) 1) * 100)%Q).
Proof.
  intros Hclaim.
  destruct (Hclaim three_then_one []
              [run_with 1; run_with 1; run_with 1; run_with 0; run_with 0]
              [run_with 1; run_with 0; run_with 0; run_with 0; run_with 0]
              eq_refl eq_refl eq_refl) as (stats & rate & Hret & Hrate & Heq).
  vm_compute in Hret. injection Hret as <-.
  simpl in Hrate. injection Hrate as <-.
  vm_compute in Heq. discriminate Heq.
Qed.

(* ===================================================================== *)
(** * Pattern counts and the learning pass                                *)
(* ===================================================================== *)

(** The count of a pattern key: [mistake_patterns[key]] on the
    [defaultdict(int)], zero for a key never counted. *)
Definition count_of (key : string) (st : MemoryStore) : Z :=
  default 0 (Dict.lookup key (mistake_patterns st)).

(** The dict after the loop of [save_trace] over [trace.mistakes]. *)
Definition counted (ms : list Mistake) (d : list (string * Z)) : list (string * Z) :=
  fold_left (fun d m => Dict.incr (Store.mistake_key m) d) ms d.

(** How often a pattern key occurs among the mistakes of a trace. *)
Definition occurrences_in (key : string) (ms : list Mistake) : Z :=
  Z.of_nat (length (filter (fun m => Store.mistake_key m = key) ms)).

Section DictFacts.

Lemma lookup_elem {V} k (v : V) d : Dict.lookup k d = Some v -> (k, v) ∈ d.
Proof.
  induction d as [| [k' v'] d IH]; [done |]. simpl.
  destruct (decide (k' = k)) as [-> | Hne].
  - intros [= ->]. by left.
  - intros H. right. by apply IH.
Qed.

Lemma elem_lookup {V} k (v : V) d :
  NoDup (fst <$> d) -> (k, v) ∈ d -> Dict.lookup k d = Some v.
Proof.
  induction d as [| [k' v'] d IH]; [by intros _ ?%elem_of_nil |].
  rewrite fmap_cons, NoDup_cons. cbn [Dict.lookup fst]. intros [Hnotin Hnd] Hin.
  apply elem_of_cons in Hin as [[= <- <-] | Hin].
  - by case_decide.
  - case_decide as Heq; [| by apply IH].
    subst k'. exfalso. apply Hnotin. apply list_elem_of_fmap. by exists (k, v).
Qed.

Lemma lookup_incr k k' d :
  Dict.lookup k' (Dict.incr k d) =
  if decide (k = k') then Some (default 0 (Dict.lookup k d) + 1)
  else Dict.lookup k' d.
Proof.
  induction d as [| [k0 v0] d IH]; simpl.
  - destruct (decide (k = k')); done.
  - destruct (decide (k0 = k)) as [-> | Hne]; simpl.
    + destruct (decide (k = k')); done.
    + rewrite IH. destruct (decide (k0 = k')) as [-> | Hne'].
      * by rewrite decide_False by done.
      * done.
Qed.

Lemma keys_incr k d :
  fst <$> Dict.incr k d =
  if decide (k ∈ fst <$> d) then fst <$> d else (fst <$> d) ++ [k].
Proof.
  induction d as [| [k0 v0] d IH].
  - destruct (decide (k ∈ fst <$> [])) as [Hin | _]; [by apply elem_of_nil in Hin | done].
  - cbn [Dict.incr].
    destruct (decide (k0 = k)) as [-> | Hne]; rewrite !fmap_cons; cbn [fst].
    + destruct (decide (k ∈ k :: (fst <$> d))) as [_ | Hnin]; [done |].
      exfalso. apply Hnin. by left.
    + rewrite IH.
      destruct (decide (k ∈ fst <$> d)) as [Hin | Hnin];
        destruct (decide (k ∈ k0 :: (fst <$> d))) as [Hin' | Hnin']; try done.
      * exfalso. apply Hnin'. by right.
      * apply elem_of_cons in Hin' as [-> | ?]; done.
Qed.

Lemma NoDup_keys_incr k d : NoDup (fst <$> d) -> NoDup (fst <$> Dict.incr k d).
Proof.
  intros Hnd. rewrite keys_incr. destruct (decide _) as [Hin | Hnin]; [done |].
  apply NoDup_app. split; [done |]. split; [| apply NoDup_singleton].
  intros x Hx ->%list_elem_of_singleton. done.
Qed.

Lemma Forall_keys_incr (P : string -> Prop) k d :
  P k -> Forall (fun kv => P kv.1) d -> Forall (fun kv => P kv.1) (Dict.incr k d).
Proof.
  intros Hk. induction d as [| [k0 v0] d IH]; simpl; intros Hd.
  - by repeat constructor.
  - apply Forall_cons in Hd as [H0 Hd].
    destruct (decide (k0 = k)); constructor; auto.
Qed.

Lemma NoDup_keys_counted ms d : NoDup (fst <$> d) -> NoDup (fst <$> counted ms d).
Proof.
  revert d. induction ms as [| m ms IH]; intros d Hd; [done |].
  apply IH. by apply NoDup_keys_incr.
Qed.

Lemma Forall_keys_counted (P : string -> Prop) ms d :
  Forall (fun m => P (Store.mistake_key m)) ms ->
  Forall (fun kv => P kv.1) d ->
  Forall (fun kv => P kv.1) (counted ms d).
Proof.
  revert d. induction ms as [| m ms IH]; intros d Hms Hd; [done |].
  apply Forall_cons in Hms as [Hm Hms].
  apply IH; [done |]. by apply Forall_keys_incr.
Qed.

(** Saving a trace adds to each count the number of mistakes of the
    trace that carry the key: counts never go down. *)
Lemma lookup_counted k ms d :
  default 0 (Dict.lookup k (counted ms d)) =
  default 0 (Dict.lookup k d) + occurrences_in k ms.
Proof.
  revert d. induction ms as [| m ms IH]; intros d.
  - unfold occurrences_in. simpl. lia.
  - unfold counted. simpl fold_left. fold (counted ms (Dict.incr (Store.mistake_key m) d)).
    rewrite IH, lookup_incr. unfold occurrences_in. rewrite filter_cons.
    destruct (decide (Store.mistake_key m = k)) as [-> | Hne]; simpl; lia.
Qed.

Lemma occurrences_in_nonneg k ms : 0 <= occurrences_in k ms.
Proof. unfold occurrences_in. lia. Qed.

Lemma split_colon_key ty d : is_Some (Py.split_colon (ty +:+ ":" +:+ d)).
Proof.
  induction ty as [| c ty IH]; simpl; [by eexists |].
  destruct (decide (c = ":"%char)); [by eexists |].
  destruct IH as [[a b] ->]. by eexists.
Qed.

End DictFacts.

(** A pattern key for which [_create_constraint] has a template: the text
    before its first colon is one of the kinds of [constraints_map]. *)
Definition learnable (key : string) : Prop :=
  exists ty d,
    Py.split_colon key = Some (ty, d) /\
    is_Some (Dict.lookup ty (Store.constraints_map d)).

(** The state after [learn_one] has appended a constraint: one more
    constraint, one more clock reading taken. *)
Definition with_constraint (c : Constraint) (s : State) : State :=
  {| self := {| storage_path := storage_path (self s);
                execution_history := execution_history (self s);
                learned_constraints := learned_constraints (self s) ++ [c];
                mistake_patterns := mistake_patterns (self s);
                run_counter := run_counter (self s) |};
     clock := {| readings := readings (clock s); ticks := S (ticks (clock s)) |};
     disk := disk s |}.

(** [learned_from items s s']: between [s] and [s'] the learning pass
    appended constraints only, each for a different key, each for an item
    of [items] whose count is 2 or more and whose key had no constraint
    in [s], with that count as its [occurrences]. *)
Definition learned_from (items : list (string * Z)) (s s' : State) : Prop :=
  mistake_patterns (self s') = mistake_patterns (self s) /\
  exists new,
    learned_constraints (self s') = learned_constraints (self s) ++ new /\
    NoDup (pattern_key <$> new) /\
    Forall (fun c =>
              (pattern_key c, occurrences c) ∈ items /\
              2 <= occurrences c /\
              learnable (pattern_key c) /\
              pattern_key c ∉ pattern_key <$> learned_constraints (self s)) new.

Section Learning.

Import Store.

Lemma has_constraint_keys key cs :
  has_constraint key cs = true <-> key ∈ pattern_key <$> cs.
Proof.
  unfold has_constraint. induction cs as [| c cs IH]; simpl.
  - split; [done | by intros ?%elem_of_nil].
  - rewrite orb_true_iff, IH, bool_decide_eq_true, elem_of_cons.
    split; (intros [H | H]; [left | right]); done.
Qed.

Lemma has_constraint_not_keys key cs :
  has_constraint key cs = false <-> key ∉ pattern_key <$> cs.
Proof.
  rewrite <- has_constraint_keys. by destruct (has_constraint key cs).
Qed.

Lemma truthy_app a c b : Py.truthy (a +:+ String c b) = true.
Proof. by destruct a. Qed.

Lemma create_constraint_cases ty d n :
  match Dict.lookup ty (constraints_map d) with
  | Some _ => exists text, _create_constraint ty d n = Some text /\ Py.truthy text = true
  | None => _create_constraint ty d n = None
  end.
Proof.
  unfold _create_constraint. destruct (Dict.lookup ty _) as [base |]; [| done].
  eexists. split; [done |]. apply truthy_app.
Qed.

Lemma learn_one_cases key count s :
  (learn_one (key, count) s = (Return tt, s) /\
   (2 <= count -> learnable key -> key ∈ pattern_key <$> learned_constraints (self s)))
  \/ (learn_one (key, count) s = (Raise ValueError, s) /\ Py.split_colon key = None)
  \/ (exists text,
        learn_one (key, count) s =
          (Return tt,
           with_constraint {| pattern_key := key; constraint := text;
                              occurrences := count;
                              created_at := readings (clock s) (ticks (clock s)) |} s) /\
        2 <= count /\ learnable key /\
        key ∉ pattern_key <$> learned_constraints (self s)).
Proof.
  unfold learn_one.
  destruct (2 <=? count) eqn:Hcount; [| left; split; [done |]; apply Z.leb_gt in Hcount; lia].
  apply Z.leb_le in Hcount.
  destruct (Py.split_colon key) as [[ty d] |] eqn:Hsplit; [| right; left; by split].
  rewrite run_bind. cbn [get].
  destruct (has_constraint key (learned_constraints (self s))) eqn:Hex; cbn [negb].
  { left. split; [done |]. intros _ _. by apply has_constraint_keys. }
  apply has_constraint_not_keys in Hex.
  pose proof (create_constraint_cases ty d count) as Hcreate.
  destruct (Dict.lookup ty (constraints_map d)) as [base |] eqn:Hlook.
  - destruct Hcreate as (text & -> & ->).
    right; right. exists text. split; [reflexivity |].
    split; [done |]. split; [| done]. exists ty, d. split; [done |]. by rewrite Hlook.
  - rewrite Hcreate. left. split; [done |].
    intros _ (ty' & d' & Hsplit' & Hsome). simplify_eq.
    rewrite Hlook in Hsome. by destruct Hsome.
Qed.

Lemma learned_from_refl items s : learned_from items s s.
Proof.
  split; [done |]. exists []. rewrite app_nil_r. repeat split; constructor.
Qed.

Lemma learned_from_skip item items s s' :
  learned_from items s s' -> learned_from (item :: items) s s'.
Proof.
  intros (Hp & new & Hcs & Hnd & Hnew). split; [done |].
  exists new. repeat split; try done.
  eapply Forall_impl; [exact Hnew |]. intros c (Hin & ?). split; [by right | done].
Qed.

Lemma learned_from_step key count text stamp items s s' :
  2 <= count -> learnable key ->
  key ∉ pattern_key <$> learned_constraints (self s) ->
  learned_from items
    (with_constraint {| pattern_key := key; constraint := text;
                        occurrences := count; created_at := stamp |} s) s' ->
  learned_from ((key, count) :: items) s s'.
Proof.
  intros Hcount Hlearn Hfresh (Hp & new & Hcs & Hnd & Hnew).
  simpl in Hp, Hcs. split; [done |].
  exists ({| pattern_key := key; constraint := text;
             occurrences := count; created_at := stamp |} :: new).
  split; [by rewrite Hcs, <- app_assoc |]. split.
  - rewrite fmap_cons. apply NoDup_cons. split; [| done]. simpl.
    intros (c & Hkey & Hc)%list_elem_of_fmap.
    rewrite Forall_forall in Hnew. destruct (Hnew c Hc) as (_ & _ & _ & Hnotin).
    apply Hnotin. simpl. rewrite fmap_app, elem_of_app. right.
    rewrite <- Hkey. by left.
  - constructor; [simpl; repeat split; try done; by left |].
    eapply Forall_impl; [exact Hnew |]. simpl.
    intros c (Hin & H2 & Hl & Hnotin). repeat split; try done; [by right |].
    intros Hc. apply Hnotin. rewrite fmap_app, elem_of_app. by left.
Qed.

(** The loop of [_learn_from_patterns] over [items]. It appends
    constraints as [learned_from] says, also when it is cut short by a
    raise; and when every key has a colon it is not cut short, and
    leaves a constraint for every learnable key counted twice or
    more. *)
Lemma learn_loop items s :
  learned_from items s (exec (for_each items learn_one) s) /\
  (Forall (fun kv => is_Some (Py.split_colon kv.1)) items ->
   result (for_each items learn_one) s = Return tt /\
   forall k n, (k, n) ∈ items -> 2 <= n -> learnable k ->
     k ∈ pattern_key <$> learned_constraints (self (exec (for_each items learn_one) s))).
Proof.
  revert s. induction items as [| [key count] items IH]; intros s.
  { split; [apply learned_from_refl |]. intros _. split; [done |].
    by intros k n ?%elem_of_nil. }
  unfold exec, result. rewrite run_for_each_cons.
  destruct (learn_one_cases key count s)
    as [[-> Hhas] | [[-> Hnone] | (text & -> & Hcount & Hlearn & Hfresh)]].
  - destruct (IH s) as [Hfrom Hall]. split; [by apply learned_from_skip |].
    intros Hcolon. apply Forall_cons in Hcolon as [_ Hcolon].
    destruct (Hall Hcolon) as [Hret Hdone]. split; [done |].
    intros k n [[= -> ->] | Hin]%elem_of_cons H2 Hl; [| by eapply Hdone].
    destruct Hfrom as (_ & new & Hcs & _). unfold exec in Hcs.
    rewrite Hcs, fmap_app, elem_of_app. left. by apply Hhas.
  - split; [apply learned_from_refl |].
    intros Hcolon. apply Forall_cons in Hcolon as [Hsome _]. simpl in Hsome.
    rewrite Hnone in Hsome. by destruct Hsome.
  - match goal with |- context [with_constraint ?c s] => set (c0 := c) end.
    destruct (IH (with_constraint c0 s)) as [Hfrom Hall].
    split; [by eapply learned_from_step |].
    intros Hcolon. apply Forall_cons in Hcolon as [_ Hcolon].
    destruct (Hall Hcolon) as [Hret Hdone]. split; [done |].
    intros k n [[= -> ->] | Hin]%elem_of_cons H2 Hl; [| by eapply Hdone].
    destruct Hfrom as (_ & new & Hcs & _). unfold exec in Hcs.
    rewrite Hcs. simpl. rewrite !fmap_app, !elem_of_app. left; right. by left.
Qed.

End Learning.

(* --------------------------------------------------------------------- *)
(** ** save_trace, step by step                                           *)
(* --------------------------------------------------------------------- *)

(** The state [save_trace] hands to the learning pass: the trace is in
    the history and its mistakes are counted. *)
Definition recorded (trace : ExecutionTrace) (s : State) : State :=
  {| self := {| storage_path := storage_path (self s);
                execution_history := execution_history (self s) ++ [trace];
                learned_constraints := learned_constraints (self s);
                mistake_patterns := counted (mistakes trace) (mistake_patterns (self s));
                run_counter := run_counter (self s) |};
     clock := clock s;
     disk := disk s |}.

Section SaveTrace.

Import Store.

Lemma count_loop ms path hist cs pats rc clk dk :
  for_each ms count_mistake
    {| self := {| storage_path := path; execution_history := hist;
                  learned_constraints := cs; mistake_patterns := pats;
                  run_counter := rc |};
       clock := clk; disk := dk |} =
  (Return tt,
   {| self := {| storage_path := path; execution_history := hist;
                 learned_constraints := cs; mistake_patterns := counted ms pats;
                 run_counter := rc |};
      clock := clk; disk := dk |}).
Proof.
  revert pats. induction ms as [| m ms IH]; intros pats; [done |].
  rewrite run_for_each_cons. cbn [count_mistake set_self modify].
  cbn [self clock disk storage_path execution_history learned_constraints
       mistake_patterns run_counter].
  by rewrite IH.
Qed.

Lemma save_trace_run trace s :
  save_trace trace s =
  match for_each (mistake_patterns (self (recorded trace s))) learn_one
          (recorded trace s) with
  | (Return _, s2) => _save s2
  | (Raise e, s2) => (Raise e, s2)
  end.
Proof.
  destruct s as [[path hist cs pats rc] clk dk].
  unfold save_trace. rewrite run_bind. cbn [set_self modify].
  cbn [self clock disk storage_path execution_history learned_constraints
       mistake_patterns run_counter].
  rewrite run_bind, count_loop, run_bind.
  unfold _learn_from_patterns at 1. rewrite run_bind. cbn [get].
  unfold recorded.
  cbn [self clock disk storage_path execution_history learned_constraints
       mistake_patterns run_counter].
  by destruct (for_each _ learn_one _) as [[[] | e] s2].
Qed.

(** The store after [save_trace]: what the learning pass left; writing
    the file does not change it. *)
Lemma save_trace_self trace s :
  self (exec (save_trace trace) s) =
  self (exec (for_each (mistake_patterns (self (recorded trace s))) learn_one)
          (recorded trace s)).
Proof.
  unfold exec. rewrite save_trace_run.
  by destruct (for_each _ learn_one _) as [[[] | e] s2].
Qed.

Lemma save_trace_learned trace s :
  learned_from (mistake_patterns (self (recorded trace s)))
    (recorded trace s)
    (exec (for_each (mistake_patterns (self (recorded trace s))) learn_one)
       (recorded trace s)).
Proof. apply learn_loop. Qed.

(** When [save_trace] returns, the file holds the store it leaves. *)
Lemma save_trace_persisted trace s :
  result (save_trace trace) s = Return tt ->
  disk (exec (save_trace trace) s) !! storage_path (self (exec (save_trace trace) s))
    = Some (document (self (exec (save_trace trace) s))).
Proof.
  unfold exec, result. rewrite save_trace_run.
  destruct (for_each _ learn_one _) as [[[] | e] s2]; [| done].
  intros _. simpl. apply lookup_insert_eq.
Qed.

(** [save_trace] returns when every counted key has a colon. *)
Lemma save_trace_returns trace s :
  Forall (fun kv => is_Some (Py.split_colon kv.1)) (mistake_patterns (self s)) ->
  result (save_trace trace) s = Return tt.
Proof.
  intros Hcolon.
  assert (Hcolon' : Forall (fun kv => is_Some (Py.split_colon kv.1))
                      (mistake_patterns (self (recorded trace s)))).
  { simpl. apply (Forall_keys_counted (fun k => is_Some (Py.split_colon k)));
      [| done].
    apply Forall_forall. intros m _. apply split_colon_key. }
  destruct (learn_loop (mistake_patterns (self (recorded trace s)))
              (recorded trace s)) as [_ Hall].
  destruct (Hall Hcolon') as [Hret _].
  unfold exec, result in *. rewrite save_trace_run.
  by destruct (for_each _ learn_one _) as [[[] | e] s2].
Qed.

End SaveTrace.

(* --------------------------------------------------------------------- *)
(** ** The invariant of the store                                         *)
(* --------------------------------------------------------------------- *)

(** What holds of a store that started empty and was driven through
    [create_trace] and [save_trace] only. *)
Record consistent (st : MemoryStore) : Prop := {
  keys_once : NoDup (fst <$> mistake_patterns st);
  keys_colon : Forall (fun kv => is_Some (Py.split_colon kv.1)) (mistake_patterns st);
  one_per_key : NoDup (pattern_key <$> learned_constraints st);
  all_learned :
    forall k n, (k, n) ∈ mistake_patterns st -> 2 <= n -> learnable k ->
                k ∈ pattern_key <$> learned_constraints st;
  not_later :
    forall c, c ∈ learned_constraints st ->
              2 <= occurrences c <= count_of (pattern_key c) st
}.

Section Invariant.

Import Store.

Lemma consistent_init path : consistent (init path ∅).
Proof.
  unfold init, _load. rewrite lookup_empty. split; simpl.
  - apply NoDup_nil_2.
  - constructor.
  - apply NoDup_nil_2.
  - intros k n Hin. by apply elem_of_nil in Hin.
  - intros c Hin. by apply elem_of_nil in Hin.
Qed.

Lemma count_of_recorded key trace s :
  count_of key (self (recorded trace s)) =
  count_of key (self s) + occurrences_in key (mistakes trace).
Proof. unfold count_of. simpl. apply lookup_counted. Qed.

Lemma consistent_save_trace trace s :
  consistent (self s) -> consistent (self (exec (save_trace trace) s)).
Proof.
  intros [Honce Hcolon Hone Hall Hlater].
  rewrite save_trace_self.
  set (s1 := recorded trace s).
  assert (Honce1 : NoDup (fst <$> mistake_patterns (self s1)))
    by (by apply NoDup_keys_counted).
  assert (Hcolon1 : Forall (fun kv => is_Some (Py.split_colon kv.1))
                      (mistake_patterns (self s1))).
  { apply (Forall_keys_counted (fun k => is_Some (Py.split_colon k))); [| done].
    apply Forall_forall. intros m _. apply split_colon_key. }
  destruct (learn_loop (mistake_patterns (self s1)) s1)
    as [(Hp & new & Hcs & Hnd & Hnew) Hdone].
  destruct (Hdone Hcolon1) as [_ Hlearned].
  set (s2 := exec (for_each (mistake_patterns (self s1)) learn_one) s1) in *.
  rewrite Forall_forall in Hnew.
  split.
  - by rewrite Hp.
  - by rewrite Hp.
  - rewrite Hcs, fmap_app. apply NoDup_app. split; [done |]. split; [| done].
    intros k Hk (c & -> & Hc)%list_elem_of_fmap.
    by destruct (Hnew c Hc) as (_ & _ & _ & Hfresh).
  - rewrite Hp. exact Hlearned.
  - intros c. rewrite Hcs, elem_of_app.
    assert (Hcount : count_of (pattern_key c) (self s2) =
                     count_of (pattern_key c) (self (recorded trace s)))
      by (unfold count_of; by rewrite Hp).
    rewrite Hcount. intros [Hold | Hc].
    + rewrite count_of_recorded.
      pose proof (Hlater c Hold).
      pose proof (occurrences_in_nonneg (pattern_key c) (mistakes trace)).
      lia.
    + destruct (Hnew c Hc) as (Hin & H2 & _ & _).
      pose proof (elem_lookup _ _ _ Honce1 Hin) as Hlook. unfold s1 in Hlook.
      unfold count_of. rewrite Hlook. simpl. lia.
Qed.

Lemma consistent_call c s :
  consistent (self s) -> consistent (self (exec (call c) s)).
Proof.
  destruct c as [task | trace]; [| apply consistent_save_trace].
  change (exec (call (CreateTrace task)) s) with (exec (create_trace task) s).
  unfold exec. rewrite create_trace_run. by intros [].
Qed.

Lemma consistent_run_calls calls s :
  consistent (self s) -> consistent (self (run_calls calls s)).
Proof.
  revert s. induction calls as [| c calls IH]; intros s Hs; [done |].
  simpl. apply IH. by apply consistent_call.
Qed.

(** Constraints are only ever appended. *)
Lemma constraints_kept_call c s :
  learned_constraints (self s) `prefix_of` learned_constraints (self (exec (call c) s)).
Proof.
  destruct c as [task | trace].
  - change (exec (call (CreateTrace task)) s) with (exec (create_trace task) s).
    unfold exec. by rewrite create_trace_run.
  - apply (preserves_save_trace
             (fun st => learned_constraints (self s) `prefix_of` learned_constraints st)).
    + by intros st Hst.
    + by intros k st Hst.
    + intros c st Hst. by apply prefix_app_r.
    + by unfold on_store.
Qed.

Lemma constraints_kept calls s :
  learned_constraints (self s) `prefix_of` learned_constraints (self (run_calls calls s)).
Proof.
  revert s. induction calls as [| c calls IH]; intros s; [done |].
  simpl. etrans; [apply constraints_kept_call | apply IH].
Qed.

Lemma filter_other_keys (cs : list Constraint) key :
  key ∉ pattern_key <$> cs ->
  filter (fun c' => pattern_key c' = key) cs = [].
Proof.
  induction cs as [| c0 cs IH]; [done |].
  rewrite fmap_cons, not_elem_of_cons. intros [Hne Hnotin].
  rewrite filter_cons, decide_False by done. by apply IH.
Qed.

Lemma filter_key_singleton (cs : list Constraint) c :
  NoDup (pattern_key <$> cs) -> c ∈ cs ->
  filter (fun c' => pattern_key c' = pattern_key c) cs = [c].
Proof.
  induction cs as [| c0 cs IH]; [by intros _ ?%elem_of_nil |].
  rewrite fmap_cons, NoDup_cons. intros [Hnotin Hnd] Hin.
  rewrite filter_cons.
  apply elem_of_cons in Hin as [<- | Hin].
  - rewrite decide_True by done. f_equal. by apply filter_other_keys.
  - rewrite decide_False; [by apply IH |].
    intros Heq. apply Hnotin. rewrite Heq. by apply list_elem_of_fmap_2.
Qed.

End Invariant.

(* --------------------------------------------------------------------- *)
(** ** One constraint per pattern, frozen when it is created              *)
(* --------------------------------------------------------------------- *)

(** C2, as the code has it. Start from an empty store and make any calls.
    At every moment there is at most one constraint per pattern key. A
    constraint [c] that a [save_trace] call creates is created in the
    call during which the count of its key first reaches 2 or more: the
    count was below 2 before the call, and [occurrences c] is the count
    at the end of that call, that is the count before it plus the number
    of mistakes with that key in the saved trace (2 when the call brings
    the count to exactly 2, more when the trace carries the pattern more
    often). Whatever calls follow, [c] stays the only constraint for its
    key, unchanged, while the count may grow past [occurrences c]. *)
Theorem constraint_frozen_at_creation
    (path : string) (clk : Clock) (before after : list Call)
    (trace : ExecutionTrace) (c : Constraint) :
  let s1 := run_calls before (fresh_state path clk) in
  let s2 := exec (Store.save_trace trace) s1 in
  let s3 := run_calls after s2 in
  c ∈ learned_constraints (self s2) ->
  c ∉ learned_constraints (self s1) ->
  (forall calls,
      NoDup (pattern_key <$>
               learned_constraints (self (run_calls calls (fresh_state path clk))))) /\
  filter (fun c' => pattern_key c' = pattern_key c) (learned_constraints (self s3)) = [c] /\
  count_of (pattern_key c) (self s1) < 2 /\
  count_of (pattern_key c) (self s2) =
    count_of (pattern_key c) (self s1) + occurrences_in (pattern_key c) (mistakes trace) /\
  occurrences c = count_of (pattern_key c) (self s2) /\
  2 <= occurrences c <= count_of (pattern_key c) (self s3).
Proof.
  intros s1 s2 s3 Hin Hnotin.
  assert (Hfresh : forall calls,
             consistent (self (run_calls calls (fresh_state path clk)))).
  { intros calls. apply consistent_run_calls. apply consistent_init. }
  pose proof (Hfresh before) as Hc1. fold s1 in Hc1.
  assert (Hc2 : consistent (self s2)) by (by apply consistent_save_trace).
  assert (Hc3 : consistent (self s3)) by (by apply consistent_run_calls).
  assert (Hin3 : c ∈ learned_constraints (self s3)).
  { destruct (constraints_kept after s2) as [more Hmore]. fold s3 in Hmore.
    rewrite Hmore, elem_of_app. by left. }
  (* what the call did *)
  assert (Hself : self s2 =
                  self (exec (for_each (mistake_patterns (self (recorded trace s1)))
                                Store.learn_one) (recorded trace s1)))
    by apply save_trace_self.
  destruct (save_trace_learned trace s1) as (Hp & new & Hcs & _ & Hnew).
  rewrite <- Hself in Hp, Hcs. simpl in Hcs.
  assert (Hcnew : c ∈ new).
  { rewrite Hcs, elem_of_app in Hin. by destruct Hin. }
  rewrite Forall_forall in Hnew.
  destruct (Hnew c Hcnew) as (Hitem & Htwo & Hlearn & Hnokey). simpl in Hnokey.
  assert (Hcount2 : count_of (pattern_key c) (self s2) =
                    count_of (pattern_key c) (self s1)
                    + occurrences_in (pattern_key c) (mistakes trace)).
  { unfold count_of at 1. rewrite Hp. apply count_of_recorded. }
  assert (Hocc : occurrences c = count_of (pattern_key c) (self s2)).
  { assert (Hnd1 : NoDup (fst <$> mistake_patterns (self (recorded trace s1))))
      by apply NoDup_keys_counted, Hc1.
    unfold count_of. by rewrite Hp, (elem_lookup _ _ _ Hnd1 Hitem). }
  split; [intros calls; apply one_per_key, Hfresh |].
  split; [apply filter_key_singleton; [apply one_per_key, Hc3 | done] |].
  split.
  { destruct (Z_lt_le_dec (count_of (pattern_key c) (self s1)) 2) as [Hlt | Hge];
      [done | exfalso].
    unfold count_of in Hge.
    destruct (Dict.lookup (pattern_key c) (mistake_patterns (self s1)))
      as [n |] eqn:Hlook; simpl in Hge; [| lia].
    apply Hnokey. eapply (all_learned _ Hc1); [by apply lookup_elem | lia | done]. }
  split; [done |]. split; [done |].
  by apply (not_later _ Hc3).
Qed.

(** The constraint learned from two early answers. *)
Definition early_answer_constraint (n : Z) : Constraint :=
  {| pattern_key := "too_early_answer:Agent provided final answer after only 0 tool calls";
     constraint :=
       "Do NOT provide a final answer until ALL necessary tools have been called"
         +:+ " (learned from " +:+ Py.str_of_int n +:+ " past mistakes)";
     occurrences := n;
     created_at := "2025-01-01T10:00:00" |}.

Lemma constraint_frozen_at_creation_witness :
  let s1 := run_calls [SaveTrace (run_with 1)]
              (fresh_state "agent_memory.json" wall_clock) in
  let s2 := exec (Store.save_trace (run_with 1)) s1 in
  let s3 := run_calls [SaveTrace (run_with 3)] s2 in
  filter (fun c' => pattern_key c' = pattern_key (early_answer_constraint 2))
    (learned_constraints (self s3)) = [early_answer_constraint 2] /\
  occurrences (early_answer_constraint 2) =
    count_of (pattern_key (early_answer_constraint 2)) (self s2) /\
  count_of (pattern_key (early_answer_constraint 2)) (self s3) = 5.
Proof.
  intros s1 s2 s3.
  destruct (constraint_frozen_at_creation "agent_memory.json" wall_clock
              [SaveTrace (run_with 1)] [SaveTrace (run_with 3)]
              (run_with 1) (early_answer_constraint 2))
    as (_ & Hone & _ & _ & Hocc & _).
  - vm_compute. apply list_elem_of_here.
  - vm_compute. intros Hin. by apply elem_of_nil in Hin.
  - split; [exact Hone |]. split; [exact Hocc | reflexivity].
Defined.

(** C2, as stated, fails: [occurrences] is not always 2. A first trace
    that carries the same pattern three times takes the count from 0 past
    the threshold to 3, a second one with two more takes it to 5; the
    learning pass runs once per [save_trace], after all the mistakes of
    the trace are counted, so the one constraint for the key records 3. *)
Lemma occurrences_not_always_two :
  ~ (forall path clk calls c,
        c ∈ learned_constraints (self (run_calls calls (fresh_state path clk))) ->
        occurrences c = 2).
Proof.
  intros Hclaim.
  specialize (Hclaim "agent_memory.json" wall_clock
                [SaveTrace (run_with 3); SaveTrace (run_with 2)]
                (early_answer_constraint 3)).
  assert (Hin : early_answer_constraint 3 ∈
                learned_constraints
                  (self (run_calls [SaveTrace (run_with 3); SaveTrace (run_with 2)]
                           (fresh_state "agent_memory.json" wall_clock)))).
  { vm_compute. apply list_elem_of_here. }
  specialize (Hclaim Hin). discriminate Hclaim.
Qed.

(* --------------------------------------------------------------------- *)
(** ** The kinds of mistake that reach the store                          *)
(* --------------------------------------------------------------------- *)

(** [evaluator.evaluate(trace, messages)] called from the driver: the
    clock it reads is the clock of the state. *)
Definition evaluate_m (trace : ExecutionTrace) (messages : list Message)
    : M State ExecutionTrace :=
  fun s =>
    let '(evaluated, clk) := Evaluator.evaluate trace messages (clock s) in
    (Return evaluated, {| self := self s; clock := clk; disk := disk s |}).

(** One run of the loop of [main.py]: create the trace, evaluate the raw
    log the agent returned, save the trace. *)
Definition run_once (task : string) (messages : list Message) : M State unit :=
  trace ← Store.create_trace task;
  evaluated ← evaluate_m trace messages;
  Store.save_trace evaluated.

Fixpoint run_all (runs : list (string * list Message)) (s : State) : State :=
  match runs with
  | [] => s
  | (task, messages) :: rest => run_all rest (exec (run_once task messages) s)
  end.

(** A pattern key made from a mistake of one of the evaluator's kinds. *)
Definition evaluator_key (key : string) : Prop :=
  exists ty d, ty ∈ evaluator_kinds /\ key = ty +:+ ":" +:+ d.

Definition only_evaluator_keys (st : MemoryStore) : Prop :=
  Forall (fun kv => evaluator_key kv.1) (mistake_patterns st) /\
  Forall (fun c => evaluator_key (pattern_key c)) (learned_constraints st).

Section Kinds.

Import Store.

Lemma evaluator_kinds_cases ty :
  ty ∈ evaluator_kinds ->
  ty = MistakeType.MISSING_REQUIRED_TOOL \/ ty = MistakeType.WRONG_SEQUENCE \/
  ty = MistakeType.TOO_EARLY_ANSWER \/ ty = MistakeType.IGNORED_TOOL_OUTPUT.
Proof.
  unfold evaluator_kinds. rewrite !elem_of_cons, elem_of_nil. tauto.
Qed.

Lemma evaluator_kind_not_wrong_tool ty :
  ty ∈ evaluator_kinds -> ty <> MistakeType.WRONG_TOOL.
Proof.
  intros [-> | [-> | [-> | ->]]]%evaluator_kinds_cases; discriminate.
Qed.

Lemma evaluator_key_split key :
  evaluator_key key ->
  exists ty d, Py.split_colon key = Some (ty, d) /\ ty ∈ evaluator_kinds.
Proof.
  intros (ty & d & Hty & ->). exists ty, d. split; [| done].
  apply evaluator_kinds_cases in Hty as [-> | [-> | [-> | ->]]]; reflexivity.
Qed.

Lemma only_evaluator_keys_save_trace trace s :
  Forall (fun m => m_type m ∈ evaluator_kinds) (mistakes trace) ->
  only_evaluator_keys (self s) ->
  only_evaluator_keys (self (exec (save_trace trace) s)).
Proof.
  intros Hkinds [Hpats Hcs].
  rewrite save_trace_self.
  destruct (save_trace_learned trace s) as (Hp & new & Hnewcs & _ & Hnew).
  assert (Hpats1 : Forall (fun kv => evaluator_key kv.1)
                     (mistake_patterns (self (recorded trace s)))).
  { apply (Forall_keys_counted evaluator_key); [| done].
    eapply Forall_impl; [exact Hkinds |]. intros m Hm.
    by exists (m_type m), (m_description m). }
  split.
  - by rewrite Hp.
  - rewrite Hnewcs. apply Forall_app. split; [done |].
    eapply Forall_impl; [exact Hnew |]. intros c (Hitem & _).
    rewrite Forall_forall in Hpats1. exact (Hpats1 _ Hitem).
Qed.

Lemma only_evaluator_keys_run_once task messages s :
  only_evaluator_keys (self s) ->
  only_evaluator_keys (self (exec (run_once task messages) s)).
Proof.
  intros Hs. unfold run_once, exec. rewrite run_bind, create_trace_run, run_bind.
  unfold evaluate_m at 1. cbn [clock self disk].
  match goal with
  | |- context [Evaluator.evaluate ?t ?m ?c] =>
      destruct (evaluate_shape t m c) as (t4 & clk4 & -> & added & Hadded & Hkinds)
  end.
  simpl in Hadded.
  apply (only_evaluator_keys_save_trace _ {| self := _; clock := _; disk := _ |}).
  - simpl. by rewrite Hadded.
  - exact Hs.
Qed.

Lemma only_evaluator_keys_run_all runs s :
  only_evaluator_keys (self s) -> only_evaluator_keys (self (run_all runs s)).
Proof.
  revert s. induction runs as [| [task messages] runs IH]; intros s Hs; [done |].
  simpl. apply IH. by apply only_evaluator_keys_run_once.
Qed.

End Kinds.

(** C10. [evaluate] never adds a mistake of kind [wrong_tool]: what it
    adds to [trace.mistakes] is of one of the four kinds its checks
    record. [wrong_tool] is in the taxonomy and [_create_constraint] has
    a template for it, yet in a store that starts empty and saves only
    traces that were created and then evaluated, no constraint is ever
    learned for a [wrong_tool] pattern. *)
Theorem evaluate_never_adds_wrong_tool
    (trace : ExecutionTrace) (messages : list Message) (clk : Clock) :
  (exists added,
      mistakes (Evaluator.evaluate trace messages clk).1 = mistakes trace ++ added /\
      Forall (fun m => m_type m ∈ evaluator_kinds /\
                       m_type m <> MistakeType.WRONG_TOOL) added) /\
  (forall description count,
      is_Some (Store._create_constraint MistakeType.WRONG_TOOL description count)) /\
  (forall path clk0 runs c,
      c ∈ learned_constraints (self (run_all runs (fresh_state path clk0))) ->
      exists ty d,
        Py.split_colon (pattern_key c) = Some (ty, d) /\
        ty <> MistakeType.WRONG_TOOL).
Proof.
  split; [| split].
  - destruct (evaluate_shape trace messages clk) as (t4 & clk4 & -> & added & Hm & Hk).
    exists added. split; [done |].
    eapply Forall_impl; [exact Hk |]. intros m Hm'.
    split; [done | by apply evaluator_kind_not_wrong_tool].
  - intros description count. by eexists.
  - intros path clk0 runs c Hc.
    assert (Hinit : only_evaluator_keys (self (fresh_state path clk0))).
    { unfold fresh_state, Store.init, Store._load. rewrite lookup_empty.
      split; constructor. }
    destruct (only_evaluator_keys_run_all runs _ Hinit) as [_ Hcs].
    rewrite Forall_forall in Hcs.
    destruct (evaluator_key_split _ (Hcs c Hc)) as (ty & d & Hsplit & Hty).
    exists ty, d. split; [done | by apply evaluator_kind_not_wrong_tool].
Qed.

(* --------------------------------------------------------------------- *)
(** ** The constraint list survives a restart                             *)
(* --------------------------------------------------------------------- *)

(** C6. Saving the state of a store and loading it into a fresh store
    instance for the same file gives a [get_active_constraints()] result
    equal to the original store's, in content and in order; the counter
    and the pattern counts come back as well, and of the history the most
    recent 50 traces. The same holds of the state a returning
    [save_trace] call leaves, which that call has written to the file;
    and from an empty store every [save_trace] call returns. *)
Theorem constraints_round_trip (s : State) :
  let reloaded := Store.init (storage_path (self s)) (disk (exec Store._save s)) in
  (Store.get_active_constraints reloaded = Store.get_active_constraints (self s) /\
   learned_constraints reloaded = learned_constraints (self s) /\
   mistake_patterns reloaded = mistake_patterns (self s) /\
   run_counter reloaded = run_counter (self s) /\
   execution_history reloaded = Py.last_n 50 (execution_history (self s)) /\
   (length (execution_history reloaded) <= 50)%nat) /\
  (forall trace,
      result (Store.save_trace trace) s = Return tt ->
      let s' := exec (Store.save_trace trace) s in
      Store.get_active_constraints (Store.init (storage_path (self s')) (disk s')) =
      Store.get_active_constraints (self s')) /\
  (forall trace,
      consistent (self s) -> result (Store.save_trace trace) s = Return tt).
Proof.
  split; [| split].
  - simpl. rewrite init_after_save. simpl. repeat split. apply length_last_n.
  - intros trace Hret s'. unfold s'.
    by rewrite (init_of_document _ _ _ (save_trace_persisted trace s Hret)).
  - intros trace Hs. apply save_trace_returns. apply (keys_colon _ Hs).
Qed.

(* ===================================================================== *)
(** * More of the evaluator: what one evaluation finds                    *)
(* ===================================================================== *)

(** [ExecutionEvaluator.RECOMMENDED_SEQUENCE] *)
Definition RECOMMENDED_SEQUENCE : list string :=
  ["check_weather"; "search_flights"; "recommend_hotels"; "create_itinerary"].

(** A mistake before it is stamped: kind, description, step. *)
Definition finding : Type := string * string * option Z.

(** [trace.add_mistake] called once per finding, in order. *)
Fixpoint record_all (fs : list finding) (t : ExecutionTrace) (clk : Clock)
    : ExecutionTrace * Clock :=
  match fs with
  | [] => (t, clk)
  | (ty, d, st) :: rest =>
      record_all rest (Trace.add_mistake t ty d st clk).1
                      (Trace.add_mistake t ty d st clk).2
  end.

(** The findings of [fs] stamped with the readings number [n], [n + 1],
    ... of a clock. *)
Fixpoint stamped (fs : list finding) (reading : nat -> string) (n : nat)
    : list Mistake :=
  match fs with
  | [] => []
  | (ty, d, st) :: rest =>
      {| m_type := ty; m_description := d; m_step := st;
         m_timestamp := reading n |} :: stamped rest reading (S n)
  end.

(** What each check finds, as a function of the tool names, the number of
    tool calls and the final answer. *)
Definition missing_findings (used : list string) : list finding :=
  flat_map
    (fun required_tool =>
       if negb (Py.mem required_tool used) then
         [(MistakeType.MISSING_REQUIRED_TOOL,
           "Required tool '" +:+ required_tool +:+ "' was not used", None)]
       else [])
    Evaluator.REQUIRED_TOOLS.

Definition hotels_findings (used : list string) : list finding :=
  if (Py.mem "recommend_hotels" used && Py.mem "search_flights" used)%bool then
    match Py.index "recommend_hotels" used, Py.index "search_flights" used with
    | Some hotel_idx, Some flight_idx =>
        if (hotel_idx <? flight_idx)%nat then
          [(MistakeType.WRONG_SEQUENCE,
            "Hotels were recommended before searching for flights",
            Some (Z.of_nat hotel_idx + 1))]
        else []
    | _, _ => []
    end
  else [].

Definition itinerary_findings (used : list string) : list finding :=
  if Py.mem "create_itinerary" used then
    match Py.index "create_itinerary" used with
    | Some itinerary_idx =>
        if Z.of_nat itinerary_idx <? Py.len used - 1 then
          [(MistakeType.WRONG_SEQUENCE,
            "Itinerary was created before completing other planning steps",
            Some (Z.of_nat itinerary_idx + 1))]
        else []
    | None => []
    end
  else [].

Definition weather_findings (used : list string) : list finding :=
  if Py.mem "check_weather" used then
    match Py.index "check_weather" used with
    | Some weather_idx =>
        if 0 <? Z.of_nat weather_idx then
          [(MistakeType.WRONG_SEQUENCE,
            "Weather should be checked before other tools",
            Some (Z.of_nat weather_idx + 1))]
        else []
    | None => []
    end
  else [].

Definition sequence_findings (used : list string) : list finding :=
  if Py.len used <? 2 then []
  else hotels_findings used ++ itinerary_findings used ++ weather_findings used.

Definition early_findings (used : list string) (answer : string) : list finding :=
  if (Py.truthy answer && (Py.len used <? 2))%bool then
    [(MistakeType.TOO_EARLY_ANSWER,
      "Agent provided final answer after only "
        +:+ Py.str_of_int (Py.len used) +:+ " tool calls",
      Some (Py.len used))]
  else [].

Definition is_generic (answer : string) : bool :=
  existsb (fun phrase => Py.contains phrase (Py.lower answer)) Evaluator.generic_phrases.

Definition ignored_findings (used : list string) (answer : string) : list finding :=
  if negb (Py.truthy answer) then []
  else if 0 <? Py.len used then
    if is_generic answer then
      [(MistakeType.IGNORED_TOOL_OUTPUT,
        "Agent ignored tool outputs and provided generic response",
        Some (Py.len used + 1))]
    else []
  else [].

(** Everything [evaluate] finds on a trace whose tool calls and final
    answer are extracted, in the order of the four checks. *)
Definition findings (used : list string) (answer : string) : list finding :=
  missing_findings used ++ sequence_findings used
    ++ early_findings used answer ++ ignored_findings used answer.

Section Findings.

Import Evaluator.

Lemma record_all_app fs gs t clk :
  record_all (fs ++ gs) t clk =
  record_all gs (record_all fs t clk).1 (record_all fs t clk).2.
Proof.
  revert t clk. induction fs as [| [[ty d] st] fs IH]; intros t clk; [done |].
  simpl. apply IH.
Qed.

Lemma record_all_tool_calls fs t clk :
  trace_tool_calls (record_all fs t clk).1 = trace_tool_calls t.
Proof.
  revert t clk. induction fs as [| [[ty d] st] fs IH]; intros t clk; [done |].
  simpl. by rewrite IH.
Qed.

Lemma record_all_final_answer fs t clk :
  final_answer (record_all fs t clk).1 = final_answer t.
Proof.
  revert t clk. induction fs as [| [[ty d] st] fs IH]; intros t clk; [done |].
  simpl. by rewrite IH.
Qed.

Lemma record_all_run_id fs t clk : run_id (record_all fs t clk).1 = run_id t.
Proof.
  revert t clk. induction fs as [| [[ty d] st] fs IH]; intros t clk; [done |].
  simpl. by rewrite IH.
Qed.

Lemma record_all_mistakes fs t clk :
  mistakes (record_all fs t clk).1 =
  mistakes t ++ stamped fs (readings clk) (ticks clk).
Proof.
  revert t clk. induction fs as [| [[ty d] st] fs IH]; intros t clk.
  - simpl. by rewrite app_nil_r.
  - simpl. rewrite IH. simpl. by rewrite <- app_assoc.
Qed.

Lemma record_all_clock fs t clk :
  readings (record_all fs t clk).2 = readings clk /\
  ticks (record_all fs t clk).2 = (ticks clk + length fs)%nat.
Proof.
  revert t clk. induction fs as [| [[ty d] st] fs IH]; intros t clk.
  - simpl. split; [done | lia].
  - cbn [record_all].
    destruct (IH (Trace.add_mistake t ty d st clk).1
                 (Trace.add_mistake t ty d st clk).2) as [-> ->].
    simpl. split; [done | lia].
Qed.

Lemma length_stamped fs reading n : length (stamped fs reading n) = length fs.
Proof.
  revert n. induction fs as [| [[ty d] st] fs IH]; intros n; simpl; [done |].
  by rewrite IH.
Qed.

Lemma content_stamped fs reading n : content <$> stamped fs reading n = fs.
Proof.
  revert n. induction fs as [| [[ty d] st] fs IH]; intros n; simpl; [done |].
  by rewrite IH.
Qed.

Lemma stamped_lookup fs reading n i f :
  fs !! i = Some f ->
  stamped fs reading n !! i =
    Some {| m_type := f.1.1; m_description := f.1.2; m_step := f.2;
            m_timestamp := reading (n + i)%nat |}.
Proof.
  revert n i. induction fs as [| [[ty d] st] fs IH]; intros n i Hi; [done |].
  destruct i as [| i]; simpl in *.
  - simplify_eq. simpl. by rewrite Nat.add_0_r.
  - rewrite (IH (S n) i Hi). do 3 f_equal. lia.
Qed.

Lemma missing_check_records t clk :
  _check_missing_required_tools t clk = record_all (missing_findings (tools_used t)) t clk.
Proof.
  unfold _check_missing_required_tools, missing_findings, REQUIRED_TOOLS.
  simpl fold_left. simpl flat_map. by destruct (negb _).
Qed.

Lemma hotels_check_records used t clk :
  check_hotels_before_flights used t clk = record_all (hotels_findings used) t clk.
Proof.
  unfold check_hotels_before_flights, hotels_findings.
  destruct (_ && _)%bool; [| done].
  destruct (Py.index _ used); [| done]. destruct (Py.index _ used); [| done].
  by destruct (_ <? _)%nat.
Qed.

Lemma itinerary_check_records used t clk :
  check_itinerary_last used t clk = record_all (itinerary_findings used) t clk.
Proof.
  unfold check_itinerary_last, itinerary_findings.
  destruct (Py.mem _ used); [| done]. destruct (Py.index _ used); [| done].
  by destruct (_ <? _).
Qed.

Lemma weather_check_records used t clk :
  check_weather_first used t clk = record_all (weather_findings used) t clk.
Proof.
  unfold check_weather_first, weather_findings.
  destruct (Py.mem _ used); [| done]. destruct (Py.index _ used); [| done].
  by destruct (_ <? _).
Qed.

Lemma len_tools_used t : Py.len (tools_used t) = Py.len (trace_tool_calls t).
Proof. unfold Py.len, tools_used. by rewrite length_fmap. Qed.

Lemma sequence_check_records t clk :
  _check_tool_sequence t clk = record_all (sequence_findings (tools_used t)) t clk.
Proof.
  unfold _check_tool_sequence, sequence_findings. rewrite len_tools_used.
  destruct (_ <? 2); [done |].
  rewrite hotels_check_records.
  destruct (record_all (hotels_findings _) t clk) as [t1 c1] eqn:E1.
  rewrite itinerary_check_records.
  destruct (record_all (itinerary_findings _) t1 c1) as [t2 c2] eqn:E2.
  rewrite weather_check_records, !record_all_app, E1. simpl. by rewrite E2.
Qed.

Lemma early_check_records t clk :
  _check_early_termination t clk =
  record_all (early_findings (tools_used t) (final_answer t)) t clk.
Proof.
  unfold _check_early_termination, early_findings. rewrite len_tools_used.
  by destruct (_ && _)%bool.
Qed.

Lemma ignored_check_records t messages clk :
  _check_tool_output_usage t messages clk =
  record_all (ignored_findings (tools_used t) (final_answer t)) t clk.
Proof.
  unfold _check_tool_output_usage, ignored_findings, is_generic.
  rewrite len_tools_used.
  destruct (negb _); [done |]. destruct (0 <? _); [| done].
  by destruct (existsb _ _).
Qed.

Lemma record_all_tools_used fs t clk : tools_used (record_all fs t clk).1 = tools_used t.
Proof. unfold tools_used. by rewrite record_all_tool_calls. Qed.

(** [evaluate] is extraction, then one [add_mistake] per finding, then
    the success flag. *)
Lemma evaluate_records t log clk :
  let t0 := _extract_tool_calls t log in
  let r := record_all (findings (tools_used t0) (final_answer t0)) t0 clk in
  evaluate t log clk = (Trace.set_success r.1 (Py.len (mistakes r.1) =? 0), r.2).
Proof.
  intros t0 r. unfold evaluate. fold t0.
  rewrite missing_check_records.
  destruct (record_all (missing_findings _) t0 clk) as [t1 c1] eqn:E1.
  rewrite sequence_check_records.
  destruct (record_all (sequence_findings _) t1 c1) as [t2 c2] eqn:E2.
  rewrite early_check_records.
  destruct (record_all (early_findings _ _) t2 c2) as [t3 c3] eqn:E3.
  rewrite ignored_check_records.
  destruct (record_all (ignored_findings _ _) t3 c3) as [t4 c4] eqn:E4.
  assert (H1 : tools_used t1 = tools_used t0 /\ final_answer t1 = final_answer t0).
  { replace t1 with (record_all (missing_findings (tools_used t0)) t0 clk).1
      by (by rewrite E1).
    by rewrite record_all_tools_used, record_all_final_answer. }
  assert (H2 : tools_used t2 = tools_used t0 /\ final_answer t2 = final_answer t0).
  { replace t2 with (record_all (sequence_findings (tools_used t1)) t1 c1).1
      by (by rewrite E2).
    rewrite record_all_tools_used, record_all_final_answer. by destruct H1. }
  assert (H3 : tools_used t3 = tools_used t0 /\ final_answer t3 = final_answer t0).
  { replace t3 with (record_all (early_findings (tools_used t2) (final_answer t2)) t2 c2).1
      by (by rewrite E3).
    rewrite record_all_tools_used, record_all_final_answer. by destruct H2. }
  destruct H1 as [U1 A1], H2 as [U2 A2], H3 as [U3 A3].
  rewrite U1 in E2. rewrite U2, A2 in E3. rewrite U3, A3 in E4.
  subst r. unfold findings. rewrite !record_all_app, E1. simpl.
  rewrite E2. simpl. rewrite E3. simpl. by rewrite E4.
Qed.

End Findings.

Section ListFacts.

Lemma mem_true x xs : Py.mem x xs = true <-> x ∈ xs.
Proof. unfold Py.mem. apply bool_decide_eq_true. Qed.

Lemma mem_false x xs : Py.mem x xs = false <-> x ∉ xs.
Proof. unfold Py.mem. apply bool_decide_eq_false. Qed.

(** [xs.index(x)] is the position of the first occurrence of [x]. *)
Lemma index_Some x xs i :
  Py.index x xs = Some i <-> xs !! i = Some x /\ x ∉ take i xs.
Proof.
  revert i. induction xs as [| y xs IH]; intros i.
  - simpl. split; [done | by intros [? _]].
  - cbn [Py.index]. destruct (decide (y = x)) as [-> | Hne].
    + split.
      * intros [= <-]. split; [done |]. simpl. by intros ?%elem_of_nil.
      * intros [Hi Hnot]. destruct i as [| i]; [done |].
        exfalso. apply Hnot. simpl. by left.
    + destruct i as [| i].
      * split; [by destruct (Py.index x xs) |]. intros [[= ->] _]. done.
      * rewrite fmap_Some. cbn [lookup list_lookup take]. rewrite not_elem_of_cons.
        split.
        -- intros (j & Hj & [= ->]). apply IH in Hj as [? ?]. by repeat split.
        -- intros [Hi [_ Hnot]]. exists i. split; [| done]. apply IH. by split.
Qed.

Lemma index_None x xs : Py.index x xs = None <-> x ∉ xs.
Proof.
  induction xs as [| y xs IH]; simpl.
  - split; [by intros _ ?%elem_of_nil | done].
  - rewrite not_elem_of_cons. destruct (decide (y = x)) as [-> | Hne].
    + split; [done | by intros [? _]].
    + destruct (Py.index x xs); simpl.
      * split; [done |]. intros [_ Hx]. by apply IH in Hx.
      * split; [intros _; split; [done | by apply IH] | done].
Qed.

Lemma index_lt x xs i : Py.index x xs = Some i -> (i < length xs)%nat.
Proof. intros [Hi _]%index_Some. by eapply lookup_lt_Some. Qed.

Lemma index_head x xs : Py.index x (x :: xs) = Some 0%nat.
Proof. simpl. by rewrite decide_True. Qed.

End ListFacts.

(* --------------------------------------------------------------------- *)
(** ** Extraction: numbering of the calls, and the final answer           *)
(* --------------------------------------------------------------------- *)

(** The text an assistant message contributes as final answer: its
    content, when it has content and carries no tool invocation. *)
Definition answer_of (m : Message) : option string :=
  match m with
  | AIMessage text [] => if Py.truthy text then Some text else None
  | _ => None
  end.

Section ExtractionMore.

Import Evaluator.

Lemma tools_of_calls log start invs : tool <$> calls_of log start invs = name <$> invs.
Proof.
  revert start. induction invs as [| inv invs IH]; intros start; [done |].
  simpl. by rewrite IH.
Qed.

Lemma fold_record_final_answer log tcs t :
  final_answer (fold_left (record_invocation log) tcs t) = final_answer t.
Proof. revert t. induction tcs as [| tc tcs IH]; intros t; [done |]. simpl. by rewrite IH. Qed.

Lemma fold_record_run_id log tcs t :
  run_id (fold_left (record_invocation log) tcs t) = run_id t.
Proof. revert t. induction tcs as [| tc tcs IH]; intros t; [done |]. simpl. by rewrite IH. Qed.

Lemma extract_message_final_answer log t m :
  final_answer (extract_message log t m) = default (final_answer t) (answer_of m).
Proof.
  destruct m as [c | c | c tcs | c tid]; try done.
  unfold extract_message, answer_of.
  destruct tcs as [| tc tcs]; destruct (Py.truthy c); try done;
    apply fold_record_final_answer.
Qed.

Lemma extract_message_run_id log t m : run_id (extract_message log t m) = run_id t.
Proof.
  destruct m as [c | c | c tcs | c tid]; try done.
  unfold extract_message.
  destruct tcs as [| tc tcs]; destruct (Py.truthy c); try done;
    apply fold_record_run_id.
Qed.

Lemma extract_run_id t log : run_id (_extract_tool_calls t log) = run_id t.
Proof.
  unfold _extract_tool_calls. generalize log at 1. intros all.
  revert t. induction log as [| m ms IH]; intros t; [done |].
  simpl. by rewrite IH, extract_message_run_id.
Qed.

Lemma default_last_cons {A} (d a : A) l : default d (last (a :: l)) = default a (last l).
Proof.
  revert d a. induction l as [| b l IH]; intros d a; [done |].
  rewrite last_cons_cons. by rewrite (IH d b), (IH a b).
Qed.

Lemma extract_final_answer t log :
  final_answer (_extract_tool_calls t log) =
  default (final_answer t) (last (omap answer_of log)).
Proof.
  unfold _extract_tool_calls. generalize log at 1. intros all.
  revert t. induction log as [| m ms IH]; intros t; [done |].
  simpl fold_left. rewrite IH, extract_message_final_answer.
  cbn [omap list_omap]. destruct (answer_of m) as [a |]; simpl; [| done].
  by rewrite default_last_cons.
Qed.

Lemma extract_tools_used t log :
  tools_used (_extract_tool_calls t log) = tools_used t ++ (name <$> invocations log).
Proof.
  unfold tools_used. by rewrite extract_calls, fmap_app, tools_of_calls.
Qed.

End ExtractionMore.

(** X1. Extraction appends one tool call per invocation of the log and
    leaves the calls already in the trace alone. The call recorded for
    the [n]-th invocation of the log carries its name and arguments, and
    its [order] is its 1-indexed position in [trace.tool_calls]. *)
Theorem extracted_calls_are_numbered
    (trace : ExecutionTrace) (log : list Message) :
  let extracted := Evaluator._extract_tool_calls trace log in
  length (trace_tool_calls extracted) =
    (length (trace_tool_calls trace) + length (invocations log))%nat /\
  take (length (trace_tool_calls trace)) (trace_tool_calls extracted) =
    trace_tool_calls trace /\
  Evaluator.tools_used extracted =
    Evaluator.tools_used trace ++ (name <$> invocations log) /\
  (forall n call,
      trace_tool_calls extracted !! (length (trace_tool_calls trace) + n)%nat = Some call ->
      order call = Z.of_nat (length (trace_tool_calls trace) + n) + 1 /\
      exists inv, invocations log !! n = Some inv /\
                  tool call = name inv /\ arguments call = args inv).
Proof.
  intros extracted. unfold extracted. rewrite extract_calls.
  split; [by rewrite length_app, length_calls_of |].
  split; [by rewrite take_app_length |].
  split; [apply extract_tools_used |].
  intros n call. rewrite lookup_app_r by lia.
  replace (_ + n - _)%nat with n by lia. intros Hcall.
  assert (Hlt : (n < length (invocations log))%nat).
  { rewrite <- (length_calls_of log (length (trace_tool_calls trace))).
    by eapply lookup_lt_Some. }
  destruct (lookup_lt_is_Some_2 _ _ Hlt) as [inv Hinv].
  rewrite (calls_of_lookup _ _ _ _ _ Hinv) in Hcall. injection Hcall as <-.
  simpl. split; [done |]. by exists inv.
Qed.

(** X2. After extraction the final answer is the content of the last
    assistant message of the log that has content and no tool
    invocation; when the log has no such message the trace keeps the
    final answer it had. An assistant message that carries tool
    invocations never sets the final answer, and a later message never
    clears it. *)
Theorem final_answer_is_last_plain_reply
    (trace : ExecutionTrace) (log : list Message) :
  final_answer (Evaluator._extract_tool_calls trace log) =
    default (final_answer trace) (last (omap answer_of log)) /\
  (forall before text after,
      log = before ++ AIMessage text [] :: after ->
      text <> "" ->
      omap answer_of after = [] ->
      final_answer (Evaluator._extract_tool_calls trace log) = text).
Proof.
  split; [apply extract_final_answer |].
  intros before text after -> Htext Hafter.
  rewrite extract_final_answer, omap_app. cbn [omap list_omap answer_of].
  destruct text as [| c text]; [done |]. simpl. rewrite Hafter.
  by rewrite last_snoc.
Qed.

Lemma final_answer_is_last_plain_reply_witness :
  final_answer
    (Evaluator._extract_tool_calls (Trace.init 1 "Plan a trip" "t0")
       ([HumanMessage "Plan a trip"; AIMessage "First draft." []]
          ++ AIMessage "Final plan." []
          :: [AIMessage "Let me also check." [ {| name := "check_weather"; args := JObj []; id := Some "c1" |} ];
              ToolMessage "Sunny" "c1"]))
  = "Final plan.".
Proof.
  apply (proj2 (final_answer_is_last_plain_reply
                  (Trace.init 1 "Plan a trip" "t0") _)
           [HumanMessage "Plan a trip"; AIMessage "First draft." []]
           "Final plan."
           [AIMessage "Let me also check." [ {| name := "check_weather"; args := JObj []; id := Some "c1" |} ];
            ToolMessage "Sunny" "c1"]).
  - reflexivity.
  - discriminate.
  - reflexivity.
Defined.

(* --------------------------------------------------------------------- *)
(** ** Whole evaluations                                                  *)
(* --------------------------------------------------------------------- *)

Section Evaluations.

Import Evaluator.

Lemma missing_findings_weather used :
  missing_findings used =
  if Py.mem "check_weather" used then []
  else [(MistakeType.MISSING_REQUIRED_TOOL,
         "Required tool 'check_weather' was not used", None)].
Proof.
  unfold missing_findings, REQUIRED_TOOLS. simpl flat_map.
  by destruct (Py.mem _ used).
Qed.

(** The mistakes [evaluate] leaves, the clock it leaves, and the flag. *)
Lemma evaluate_mistakes t log clk :
  let t0 := _extract_tool_calls t log in
  let fs := findings (tools_used t0) (final_answer t0) in
  mistakes (evaluate t log clk).1 = mistakes t ++ stamped fs (readings clk) (ticks clk) /\
  readings (evaluate t log clk).2 = readings clk /\
  ticks (evaluate t log clk).2 = (ticks clk + length fs)%nat /\
  success (evaluate t log clk).1 =
    (Py.len (mistakes t ++ stamped fs (readings clk) (ticks clk)) =? 0) /\
  run_id (evaluate t log clk).1 = run_id t.
Proof.
  intros t0 fs. rewrite evaluate_records. fold t0. fold fs.
  cbn [fst snd Trace.set_success mistakes success run_id].
  rewrite record_all_mistakes, record_all_run_id.
  destruct (record_all_clock fs t0 clk) as [-> ->].
  subst t0. by rewrite extract_mistakes, extract_run_id.
Qed.

Lemma findings_recommended answer :
  is_generic answer = false -> findings RECOMMENDED_SEQUENCE answer = [].
Proof.
  intros Hgen. unfold findings, early_findings, ignored_findings.
  rewrite Hgen. by destruct (Py.truthy answer).
Qed.

Lemma findings_no_tools answer :
  answer <> "" ->
  findings [] answer =
  [ (MistakeType.MISSING_REQUIRED_TOOL, "Required tool 'check_weather' was not used", None);
    (MistakeType.TOO_EARLY_ANSWER,
     "Agent provided final answer after only 0 tool calls", Some 0) ].
Proof.
  intros Hne. unfold findings, early_findings, ignored_findings.
  destruct answer as [| c answer]; done.
Qed.

End Evaluations.

(** X3. [evaluate] reads the clock once per mistake it records and at no
    other time: the clock advances by the number of mistakes added, and
    the [i]-th added mistake carries the [i]-th reading taken, so the
    timestamps of one evaluation follow the order of detection. *)
Theorem evaluate_stamps_in_detection_order
    (trace : ExecutionTrace) (log : list Message) (clk : Clock) :
  exists added,
    mistakes (Evaluator.evaluate trace log clk).1 = mistakes trace ++ added /\
    readings (Evaluator.evaluate trace log clk).2 = readings clk /\
    ticks (Evaluator.evaluate trace log clk).2 = (ticks clk + length added)%nat /\
    forall i m, added !! i = Some m ->
                m_timestamp m = readings clk (ticks clk + i)%nat.
Proof.
  destruct (evaluate_mistakes trace log clk) as (Hm & Hr & Ht & _).
  eexists. split; [exact Hm |]. split; [exact Hr |].
  split; [by rewrite length_stamped |].
  intros i m Hi.
  assert (Hlt : (i < length (findings
                   (Evaluator.tools_used (Evaluator._extract_tool_calls trace log))
                   (final_answer (Evaluator._extract_tool_calls trace log))))%nat).
  { rewrite <- (length_stamped _ (readings clk) (ticks clk)). by eapply lookup_lt_Some. }
  destruct (lookup_lt_is_Some_2 _ _ Hlt) as [f Hf].
  rewrite (stamped_lookup _ _ _ _ _ Hf) in Hi. by injection Hi as <-.
Qed.

(** X4. A run that calls exactly the tools of [RECOMMENDED_SEQUENCE], in
    that order, and whose final answer holds none of the refusal
    phrases, is evaluated as a success with no mistake, whatever the
    arguments, the outputs and the answer are. *)
Theorem recommended_run_is_successful
    (trace : ExecutionTrace) (log : list Message) (clk : Clock) :
  trace_tool_calls trace = [] ->
  mistakes trace = [] ->
  name <$> invocations log = RECOMMENDED_SEQUENCE ->
  is_generic (final_answer (Evaluator._extract_tool_calls trace log)) = false ->
  mistakes (Evaluator.evaluate trace log clk).1 = [] /\
  success (Evaluator.evaluate trace log clk).1 = true /\
  ticks (Evaluator.evaluate trace log clk).2 = ticks clk.
Proof.
  intros Hcalls Hmist Hnames Hgen.
  destruct (evaluate_mistakes trace log clk) as (Hm & _ & Ht & Hs & _).
  rewrite extract_tools_used in Hm, Ht, Hs.
  unfold Evaluator.tools_used in Hm, Ht, Hs at 1.
  rewrite Hcalls, Hnames in Hm, Ht, Hs. simpl app in Hm, Ht, Hs.
  rewrite (findings_recommended _ Hgen), Hmist in Hm, Hs.
  rewrite (findings_recommended _ Hgen) in Ht.
  rewrite Hm, Hs, Ht. simpl. split; [done |]. split; [done | lia].
Qed.

(** A complete run in the recommended order. *)
Definition recommended_log : list Message :=
  [ HumanMessage "Plan a 5-day trip to Paris";
    AIMessage "" [ {| name := "check_weather"; args := JObj [("city", JStr "Paris")];
                      id := Some "call_1" |} ];
    ToolMessage "sunny" "call_1";
    AIMessage "" [ {| name := "search_flights"; args := JObj []; id := Some "call_2" |};
                   {| name := "recommend_hotels"; args := JObj []; id := Some "call_3" |} ];
    ToolMessage "flights" "call_2";
    ToolMessage "hotels" "call_3";
    AIMessage "" [ {| name := "create_itinerary"; args := JObj []; id := Some "call_4" |} ];
    ToolMessage "itinerary" "call_4";
    AIMessage "Here is your plan: fly with AirTravel and stay at Grand Hotel." [] ].

Lemma recommended_run_is_successful_witness :
  success (Evaluator.evaluate (Trace.init 1 "Plan a 5-day trip to Paris" "t0")
             recommended_log wall_clock).1 = true.
Proof.
  apply (recommended_run_is_successful
           (Trace.init 1 "Plan a 5-day trip to Paris" "t0") recommended_log wall_clock);
    reflexivity.
Defined.

(** X5. A run without any tool call that ends with a final answer gets
    exactly two mistakes, in this order: the missing weather check and
    the early answer with step 0. The answer's wording plays no part: the
    refusal-phrase check looks at runs with at least one tool call
    only. *)
Theorem run_without_tools_gets_two_mistakes
    (trace : ExecutionTrace) (log : list Message) (clk : Clock) :
  trace_tool_calls trace = [] ->
  mistakes trace = [] ->
  invocations log = [] ->
  final_answer (Evaluator._extract_tool_calls trace log) <> "" ->
  content <$> mistakes (Evaluator.evaluate trace log clk).1 =
    [ (MistakeType.MISSING_REQUIRED_TOOL,
       "Required tool 'check_weather' was not used", None);
      (MistakeType.TOO_EARLY_ANSWER,
       "Agent provided final answer after only 0 tool calls", Some 0) ] /\
  success (Evaluator.evaluate trace log clk).1 = false.
Proof.
  intros Hcalls Hmist Hinv Hanswer.
  destruct (evaluate_mistakes trace log clk) as (Hm & _ & _ & Hs & _).
  rewrite extract_tools_used in Hm, Hs.
  unfold Evaluator.tools_used in Hm, Hs at 1.
  rewrite Hcalls, Hinv in Hm, Hs. cbn [fmap list_fmap app] in Hm, Hs.
  rewrite (findings_no_tools _ Hanswer), Hmist in Hm, Hs.
  rewrite Hm, Hs. by split.
Qed.

Lemma run_without_tools_gets_two_mistakes_witness :
  length (mistakes (Evaluator.evaluate (Trace.init 1 "Plan a trip" "t0")
                      [HumanMessage "Plan a trip"; AIMessage "I cannot help with that." []]
                      wall_clock).1) = 2%nat.
Proof.
  destruct (run_without_tools_gets_two_mistakes (Trace.init 1 "Plan a trip" "t0")
              [HumanMessage "Plan a trip"; AIMessage "I cannot help with that." []]
              wall_clock eq_refl eq_refl eq_refl) as [Hc _]; [discriminate |].
  apply (f_equal length) in Hc. by rewrite length_fmap in Hc.
Defined.

(* --------------------------------------------------------------------- *)
(** ** One evaluation, one finding per pattern                            *)
(* --------------------------------------------------------------------- *)

(** The pattern key [save_trace] builds for a finding. *)
Definition finding_key (f : finding) : string := f.1.1 +:+ ":" +:+ f.1.2.

(** The six pattern keys one evaluation can produce, for a run with [n]
    tool calls. *)
Definition evaluation_keys (n : Z) : list string :=
  [ finding_key (MistakeType.MISSING_REQUIRED_TOOL,
                 "Required tool 'check_weather' was not used", None);
    finding_key (MistakeType.WRONG_SEQUENCE,
                 "Hotels were recommended before searching for flights", None);
    finding_key (MistakeType.WRONG_SEQUENCE,
                 "Itinerary was created before completing other planning steps", None);
    finding_key (MistakeType.WRONG_SEQUENCE,
                 "Weather should be checked before other tools", None);
    finding_key (MistakeType.TOO_EARLY_ANSWER,
                 "Agent provided final answer after only "
                   +:+ Py.str_of_int n +:+ " tool calls", None);
    finding_key (MistakeType.IGNORED_TOOL_OUTPUT,
                 "Agent ignored tool outputs and provided generic response", None) ].

Section OncePerPattern.

Lemma evaluation_keys_NoDup n : NoDup (evaluation_keys n).
Proof.
  unfold evaluation_keys.
  repeat (apply NoDup_cons; split;
          [rewrite ?not_elem_of_cons; repeat split;
           try discriminate; try apply not_elem_of_nil |]).
  apply NoDup_nil_2.
Qed.

Ltac one_key := repeat case_match; (apply sublist_nil_l || reflexivity).

Lemma missing_keys used :
  finding_key <$> missing_findings used `sublist_of`
  [finding_key (MistakeType.MISSING_REQUIRED_TOOL,
                "Required tool 'check_weather' was not used", None)].
Proof. rewrite missing_findings_weather. one_key. Qed.

Lemma hotels_keys used :
  finding_key <$> hotels_findings used `sublist_of`
  [finding_key (MistakeType.WRONG_SEQUENCE,
                "Hotels were recommended before searching for flights", None)].
Proof. unfold hotels_findings. one_key. Qed.

Lemma itinerary_keys used :
  finding_key <$> itinerary_findings used `sublist_of`
  [finding_key (MistakeType.WRONG_SEQUENCE,
                "Itinerary was created before completing other planning steps", None)].
Proof. unfold itinerary_findings. one_key. Qed.

Lemma weather_keys used :
  finding_key <$> weather_findings used `sublist_of`
  [finding_key (MistakeType.WRONG_SEQUENCE,
                "Weather should be checked before other tools", None)].
Proof. unfold weather_findings. one_key. Qed.

Lemma early_keys used answer :
  finding_key <$> early_findings used answer `sublist_of`
  [finding_key (MistakeType.TOO_EARLY_ANSWER,
                "Agent provided final answer after only "
                  +:+ Py.str_of_int (Py.len used) +:+ " tool calls", None)].
Proof. unfold early_findings. one_key. Qed.

Lemma ignored_keys used answer :
  finding_key <$> ignored_findings used answer `sublist_of`
  [finding_key (MistakeType.IGNORED_TOOL_OUTPUT,
                "Agent ignored tool outputs and provided generic response", None)].
Proof. unfold ignored_findings. one_key. Qed.

Lemma findings_keys used answer :
  finding_key <$> findings used answer `sublist_of` evaluation_keys (Py.len used).
Proof.
  unfold findings, evaluation_keys. rewrite !fmap_app.
  change [?a; ?b; ?c; ?d; ?e; ?f] with ([a] ++ ([b] ++ [c] ++ [d]) ++ [e] ++ [f]).
  apply sublist_app; [apply missing_keys |].
  apply sublist_app; [| apply sublist_app; [apply early_keys | apply ignored_keys]].
  unfold sequence_findings. destruct (_ <? 2); [apply sublist_nil_l |].
  rewrite !fmap_app.
  apply sublist_app; [apply hotels_keys |].
  apply sublist_app; [apply itinerary_keys | apply weather_keys].
Qed.

Lemma findings_keys_NoDup used answer : NoDup (finding_key <$> findings used answer).
Proof.
  eapply sublist_NoDup; [apply evaluation_keys_NoDup | apply findings_keys].
Qed.

Lemma stamped_keys fs reading n :
  Store.mistake_key <$> stamped fs reading n = finding_key <$> fs.
Proof.
  revert n. induction fs as [| [[ty d] st] fs IH]; intros n; [done |].
  simpl. by rewrite IH.
Qed.

Lemma stamped_types fs reading n :
  m_type <$> stamped fs reading n = (fun f : finding => f.1.1) <$> fs.
Proof.
  revert n. induction fs as [| [[ty d] st] fs IH]; intros n; [done |].
  simpl. by rewrite IH.
Qed.

(** No evaluation finds more than four mistakes: the early answer
    excludes the sequence mistakes, and the missing weather check
    excludes the late one. *)
Lemma findings_length used answer : (length (findings used answer) <= 4)%nat.
Proof.
  unfold findings, sequence_findings, hotels_findings, itinerary_findings,
    weather_findings, early_findings, ignored_findings.
  rewrite missing_findings_weather.
  destruct (Py.len used <? 2) eqn:Hlen; rewrite ?andb_false_r, ?andb_true_r;
    repeat case_match; rewrite ?length_app; simpl; lia.
Qed.

Lemma findings_early_or_sequence used answer :
  ~ (MistakeType.TOO_EARLY_ANSWER ∈ (fun f : finding => f.1.1) <$> findings used answer /\
     MistakeType.WRONG_SEQUENCE ∈ (fun f : finding => f.1.1) <$> findings used answer).
Proof.
  unfold findings, sequence_findings, hotels_findings, itinerary_findings,
    weather_findings, early_findings, ignored_findings.
  rewrite missing_findings_weather.
  destruct (Py.len used <? 2) eqn:Hlen; rewrite ?andb_false_r, ?andb_true_r;
    repeat case_match; simpl;
    rewrite ?elem_of_cons, ?elem_of_nil; intros [Hearly Hseq];
    repeat match goal with
      | H : _ \/ _ |- _ => destruct H
      | H : False |- _ => destruct H
      | H : _ = _ |- _ => discriminate H
      end.
Qed.

End OncePerPattern.

(** X6. One evaluation never records the same pattern twice: the
    mistakes [evaluate] adds have pairwise different pattern keys
    (kind and description). It adds at most four mistakes, and never
    both an early-answer and a wrong-sequence mistake. *)
Theorem evaluate_finds_each_pattern_once
    (trace : ExecutionTrace) (log : list Message) (clk : Clock) :
  exists added,
    mistakes (Evaluator.evaluate trace log clk).1 = mistakes trace ++ added /\
    NoDup (Store.mistake_key <$> added) /\
    (length added <= 4)%nat /\
    ~ (MistakeType.TOO_EARLY_ANSWER ∈ m_type <$> added /\
       MistakeType.WRONG_SEQUENCE ∈ m_type <$> added).
Proof.
  destruct (evaluate_mistakes trace log clk) as (Hm & _).
  eexists. split; [exact Hm |].
  rewrite stamped_keys, length_stamped, stamped_types.
  split; [apply findings_keys_NoDup |].
  split; [apply findings_length | apply findings_early_or_sequence].
Qed.

(* --------------------------------------------------------------------- *)
(** ** The sequence check, in terms of the list of tool names             *)
(* --------------------------------------------------------------------- *)

(** Some flight search comes before every hotel recommendation. *)
Definition flights_before_hotels (used : list string) : Prop :=
  exists before after,
    used = before ++ "search_flights" :: after /\ "recommend_hotels" ∉ before.

(** The order the sequence check accepts. *)
Definition order_accepted (used : list string) : Prop :=
  ("recommend_hotels" ∈ used -> "search_flights" ∈ used -> flights_before_hotels used) /\
  ("create_itinerary" ∈ used ->
     exists before, used = before ++ ["create_itinerary"] /\ "create_itinerary" ∉ before) /\
  ("check_weather" ∈ used -> exists rest, used = "check_weather" :: rest).

(** A step that names the first call of one of the three ordered tools. *)
Definition names_first_call (used : list string) (f : finding) : Prop :=
  f.1.1 = MistakeType.WRONG_SEQUENCE /\
  exists i tool,
    f.2 = Some (Z.of_nat i + 1) /\
    used !! i = Some tool /\
    (tool ∉ take i used) /\
    tool ∈ ["recommend_hotels"; "create_itinerary"; "check_weather"].

Section SequenceOrder.

Lemma index_first x xs i j :
  Py.index x xs = Some i -> xs !! j = Some x -> (i <= j)%nat.
Proof.
  intros [_ Hnot]%index_Some Hj.
  destruct (le_lt_dec i j) as [| Hlt]; [done |]. exfalso. apply Hnot.
  apply list_elem_of_lookup. exists j. by rewrite lookup_take_lt.
Qed.

Lemma index_is_Some x xs : x ∈ xs -> exists i, Py.index x xs = Some i.
Proof.
  intros Hin. destruct (Py.index x xs) as [i |] eqn:Hi; [by exists i |].
  by apply index_None in Hi.
Qed.

Lemma index_app_fresh x before after :
  x ∉ before -> Py.index x (before ++ x :: after) = Some (length before).
Proof.
  intros Hnot. apply index_Some. split.
  - by rewrite list_lookup_middle.
  - by rewrite take_app_length.
Qed.

Lemma weather_accepted used :
  weather_findings used = [] <->
  ("check_weather" ∈ used -> exists rest, used = "check_weather" :: rest).
Proof.
  unfold weather_findings.
  destruct (Py.mem "check_weather" used) eqn:Hmem.
  - apply mem_true in Hmem. destruct (index_is_Some _ _ Hmem) as [i Hi]. rewrite Hi.
    destruct (0 <? Z.of_nat i) eqn:Hpos.
    + split; [done |]. intros Hhead. destruct (Hhead Hmem) as [rest ->].
      rewrite index_head in Hi. injection Hi as <-. done.
    + split; [| done]. intros _ _. apply Z.ltb_ge in Hpos.
      apply index_Some in Hi as [Hi _]. destruct i as [| i]; [| lia].
      destruct used as [| y used]; [done |]. simpl in Hi. injection Hi as ->. by eexists.
  - apply mem_false in Hmem. split; [by intros _ ? | done].
Qed.

Lemma itinerary_accepted used :
  itinerary_findings used = [] <->
  ("create_itinerary" ∈ used ->
     exists before, used = before ++ ["create_itinerary"] /\ "create_itinerary" ∉ before).
Proof.
  unfold itinerary_findings.
  destruct (Py.mem "create_itinerary" used) eqn:Hmem.
  - apply mem_true in Hmem. destruct (index_is_Some _ _ Hmem) as [i Hi]. rewrite Hi.
    destruct (Z.of_nat i <? Py.len used - 1) eqn:Hlast.
    + split; [done |]. intros Hend. destruct (Hend Hmem) as (before & -> & Hfresh).
      rewrite (index_app_fresh _ _ [] Hfresh) in Hi. injection Hi as <-.
      apply Z.ltb_lt in Hlast. unfold Py.len in Hlast.
      rewrite length_app in Hlast. simpl in Hlast. lia.
    + split; [| done]. intros _ _. apply Z.ltb_ge in Hlast. unfold Py.len in Hlast.
      pose proof (index_lt _ _ _ Hi) as Hlt.
      apply index_Some in Hi as [Hi Hnot].
      exists (take i used). split; [| done].
      rewrite <- (take_drop_middle used i _ Hi) at 1.
      rewrite drop_ge by lia. done.
  - apply mem_false in Hmem. split; [by intros _ ? | done].
Qed.

Lemma hotels_accepted used :
  hotels_findings used = [] <->
  ("recommend_hotels" ∈ used -> "search_flights" ∈ used -> flights_before_hotels used).
Proof.
  unfold hotels_findings.
  destruct (Py.mem "recommend_hotels" used) eqn:Hh; simpl.
  2:{ apply mem_false in Hh. split; [by intros _ ? | done]. }
  destruct (Py.mem "search_flights" used) eqn:Hf; simpl.
  2:{ apply mem_false in Hf. split; [by intros _ _ ? | done]. }
  apply mem_true in Hh, Hf.
  destruct (index_is_Some _ _ Hh) as [h Hhi]. destruct (index_is_Some _ _ Hf) as [f Hfi].
  rewrite Hhi, Hfi.
  destruct (h <? f)%nat eqn:Hlt.
  - split; [done |]. intros Hok. destruct (Hok Hh Hf) as (before & after & -> & Hfresh).
    apply Nat.ltb_lt in Hlt.
    assert (f <= length before)%nat
      by (eapply index_first; [exact Hfi | by rewrite list_lookup_middle]).
    apply index_Some in Hhi as [Hhi _].
    exfalso. apply Hfresh. apply list_elem_of_lookup. exists h.
    by rewrite lookup_app_l in Hhi by lia.
  - split; [| done]. intros _ _ _. apply Nat.ltb_ge in Hlt.
    apply index_Some in Hfi as [Hfi _]. apply index_Some in Hhi as [_ Hnot].
    exists (take f used), (drop (S f) used). split.
    + by rewrite take_drop_middle.
    + intros Hin. apply Hnot.
      apply list_elem_of_lookup in Hin as [j Hj].
      apply list_elem_of_lookup. exists j.
      pose proof (lookup_lt_Some _ _ _ Hj) as Hjlt. rewrite length_take in Hjlt.
      rewrite lookup_take_lt in Hj by lia. by rewrite lookup_take_lt by lia.
Qed.

Lemma sequence_accepted used :
  sequence_findings used = [] <-> (length used < 2)%nat \/ order_accepted used.
Proof.
  unfold sequence_findings, order_accepted.
  rewrite <- hotels_accepted, <- itinerary_accepted, <- weather_accepted.
  destruct (Py.len used <? 2) eqn:Hlen.
  - apply Z.ltb_lt in Hlen. unfold Py.len in Hlen. split; [intros _; left; lia | done].
  - apply Z.ltb_ge in Hlen. unfold Py.len in Hlen. split.
    + intros H. right.
      apply app_eq_nil in H as [H1 H]. apply app_eq_nil in H as [H2 H3]. done.
    + intros [? | (-> & -> & ->)]; [lia | done].
Qed.

Lemma hotels_first_call used : Forall (names_first_call used) (hotels_findings used).
Proof.
  unfold hotels_findings. destruct (_ && _)%bool; [| constructor].
  destruct (Py.index "recommend_hotels" used) as [h |] eqn:Hh; [| constructor].
  destruct (Py.index "search_flights" used); [| constructor].
  destruct (h <? _)%nat; [| constructor].
  apply index_Some in Hh as [Hh Hnot].
  repeat constructor. exists h, "recommend_hotels".
  repeat split; try done. set_solver.
Qed.

Lemma itinerary_first_call used : Forall (names_first_call used) (itinerary_findings used).
Proof.
  unfold itinerary_findings. destruct (Py.mem _ used); [| constructor].
  destruct (Py.index "create_itinerary" used) as [i |] eqn:Hi; [| constructor].
  destruct (_ <? _); [| constructor].
  apply index_Some in Hi as [Hi Hnot].
  repeat constructor. exists i, "create_itinerary".
  repeat split; try done. set_solver.
Qed.

Lemma weather_first_call used : Forall (names_first_call used) (weather_findings used).
Proof.
  unfold weather_findings. destruct (Py.mem _ used); [| constructor].
  destruct (Py.index "check_weather" used) as [i |] eqn:Hi; [| constructor].
  destruct (_ <? _); [| constructor].
  apply index_Some in Hi as [Hi Hnot].
  repeat constructor. exists i, "check_weather".
  repeat split; try done. set_solver.
Qed.

Lemma sequence_first_call used :
  Forall (names_first_call used) (sequence_findings used) /\
  (length (sequence_findings used) <= 3)%nat /\
  ((length used < 2)%nat -> sequence_findings used = []).
Proof.
  unfold sequence_findings. destruct (Py.len used <? 2) eqn:Hlen.
  - split; [constructor |]. split; [simpl; lia | done].
  - split; [| split].
    + repeat apply Forall_app_2;
        [apply hotels_first_call | apply itinerary_first_call | apply weather_first_call].
    + rewrite !length_app.
      unfold hotels_findings, itinerary_findings, weather_findings.
      repeat case_match; simpl; lia.
    + apply Z.ltb_ge in Hlen. unfold Py.len in Hlen. lia.
Qed.

Lemma stamped_Forall (Q : finding -> Prop) (P : Mistake -> Prop) fs reading n :
  (forall ty d st stamp,
      Q (ty, d, st) ->
      P {| m_type := ty; m_description := d; m_step := st; m_timestamp := stamp |}) ->
  Forall Q fs -> Forall P (stamped fs reading n).
Proof.
  intros HQP. revert n. induction fs as [| [[ty d] st] fs IH]; intros n Hfs; [constructor |].
  apply Forall_cons in Hfs as [Hf Hfs]. simpl. constructor; [by apply HQP | by apply IH].
Qed.

Lemma stamped_nil fs reading n : stamped fs reading n = [] <-> fs = [].
Proof. destruct fs as [| [[ty d] st] fs]; split; done. Qed.

End SequenceOrder.

(** X7. The sequence check adds no mistake exactly when the trace has
    fewer than two tool calls, or the order of the tool names is
    accepted: if hotels and flights both occur, some flight search comes
    before every hotel recommendation; if the itinerary tool occurs, it
    occurs once and as the last call; if the weather tool occurs, it is
    the first call. *)
Theorem sequence_check_passes_iff (trace : ExecutionTrace) (clk : Clock) :
  mistakes (Evaluator._check_tool_sequence trace clk).1 = mistakes trace <->
  (length (trace_tool_calls trace) < 2)%nat \/ order_accepted (Evaluator.tools_used trace).
Proof.
  rewrite sequence_check_records, record_all_mistakes.
  rewrite <- (length_fmap tool (trace_tool_calls trace)).
  change (tool <$> trace_tool_calls trace) with (Evaluator.tools_used trace).
  rewrite <- sequence_accepted, <- (stamped_nil _ (readings clk) (ticks clk)).
  split.
  - intros H. apply (f_equal length) in H. rewrite length_app in H.
    apply length_zero_iff_nil. lia.
  - intros ->. by rewrite app_nil_r.
Qed.

(** X8. Every mistake the sequence check adds is a wrong-sequence
    mistake whose step is the 1-indexed position of the first call of the
    tool it is about (hotels, itinerary or weather), so a position that
    exists in the trace. The check adds at most three mistakes, and none
    to a trace with fewer than two tool calls. *)
Theorem sequence_steps_are_positions (trace : ExecutionTrace) (clk : Clock) :
  exists added,
    mistakes (Evaluator._check_tool_sequence trace clk).1 = mistakes trace ++ added /\
    (length added <= 3)%nat /\
    ((length (trace_tool_calls trace) < 2)%nat -> added = []) /\
    Forall (fun m =>
              m_type m = MistakeType.WRONG_SEQUENCE /\
              exists i call,
                m_step m = Some (Z.of_nat i + 1) /\
                trace_tool_calls trace !! i = Some call /\
                tool call ∈ ["recommend_hotels"; "create_itinerary"; "check_weather"] /\
                (tool call ∉ take i (Evaluator.tools_used trace))) added.
Proof.
  rewrite sequence_check_records, record_all_mistakes.
  destruct (sequence_first_call (Evaluator.tools_used trace)) as (Hall & Hlen & Hshort).
  eexists. split; [done |]. rewrite length_stamped. split; [done |]. split.
  - intros Hlt. apply stamped_nil, Hshort. unfold Evaluator.tools_used.
    by rewrite length_fmap.
  - eapply stamped_Forall; [| exact Hall].
    intros ty d st stamp (Hty & i & name & Hst & Hi & Hnot & Hin). simpl in *.
    split; [done |].
    unfold Evaluator.tools_used in Hi. rewrite list_lookup_fmap in Hi.
    destruct (trace_tool_calls trace !! i) as [call |] eqn:Hcall; [| done].
    simpl in Hi. injection Hi as <-. by exists i, call.
Qed.

(* ===================================================================== *)
(** * More of the memory store                                            *)
(* ===================================================================== *)

(** The sum of all pattern counts. *)
Definition total_count (d : list (string * Z)) : Z :=
  foldr (fun kv acc => kv.2 + acc) 0 d.

(** The five kinds [_create_constraint] has a template for. *)
Definition taxonomy : list string :=
  [ MistakeType.MISSING_REQUIRED_TOOL; MistakeType.WRONG_SEQUENCE;
    MistakeType.TOO_EARLY_ANSWER; MistakeType.IGNORED_TOOL_OUTPUT;
    MistakeType.WRONG_TOOL ].

(** A constraint as [_learn_from_patterns] builds it: its text is the
    template of the kind of its pattern key, applied to the description
    of the key, followed by the count it was learned at. *)
Definition built_from_template (c : Constraint) : Prop :=
  exists ty d base,
    Py.split_colon (pattern_key c) = Some (ty, d) /\
    ty ∈ taxonomy /\
    Dict.lookup ty (Store.constraints_map d) = Some base /\
    constraint c =
      base +:+ " (learned from " +:+ Py.str_of_int (occurrences c) +:+ " past mistakes)".



Section StoreMore.

Import Store.

Lemma learn_loop_frame items s :
  let s' := exec (for_each items learn_one) s in
  execution_history (self s') = execution_history (self s) /\
  storage_path (self s') = storage_path (self s) /\
  run_counter (self s') = run_counter (self s) /\
  mistake_patterns (self s') = mistake_patterns (self s).
Proof.
  apply (preserves_for_each
           (on_store (fun st => execution_history st = execution_history (self s) /\
                                storage_path st = storage_path (self s) /\
                                run_counter st = run_counter (self s) /\
                                mistake_patterns st = mistake_patterns (self s)))).
  - intros item. by apply preserves_learn_one.
  - by unfold on_store.
Qed.

Lemma save_trace_history trace s :
  execution_history (self (exec (save_trace trace) s)) =
  execution_history (self s) ++ [trace].
Proof.
  rewrite save_trace_self.
  by destruct (learn_loop_frame (mistake_patterns (self (recorded trace s)))
                 (recorded trace s)) as (-> & _).
Qed.

Lemma save_trace_patterns trace s :
  mistake_patterns (self (exec (save_trace trace) s)) =
  counted (mistakes trace) (mistake_patterns (self s)).
Proof.
  rewrite save_trace_self.
  by destruct (learn_loop_frame (mistake_patterns (self (recorded trace s)))
                 (recorded trace s)) as (_ & _ & _ & ->).
Qed.

Lemma save_trace_path trace s :
  storage_path (self (exec (save_trace trace) s)) = storage_path (self s).
Proof.
  rewrite save_trace_self.
  by destruct (learn_loop_frame (mistake_patterns (self (recorded trace s)))
                 (recorded trace s)) as (_ & -> & _).
Qed.

Lemma total_count_incr k d : total_count (Dict.incr k d) = total_count d + 1.
Proof.
  induction d as [| [k0 v0] d IH]; simpl; [done |].
  destruct (decide (k0 = k)); simpl; [lia |]. rewrite IH. lia.
Qed.

Lemma total_count_counted ms d :
  total_count (counted ms d) = total_count d + Py.len ms.
Proof.
  revert d. induction ms as [| m ms IH]; intros d.
  - unfold Py.len. simpl. lia.
  - unfold counted. simpl fold_left. fold (counted ms (Dict.incr (mistake_key m) d)).
    rewrite IH, total_count_incr. unfold Py.len. simpl length. lia.
Qed.




End StoreMore.

(** X9. [save_trace] always records the trace, also when it raises: the
    trace is appended to the history, and every pattern count grows by
    the number of mistakes of the trace that carry the pattern's key, so
    no count ever goes down. The storage path and the run counter are
    left alone. *)
Theorem save_trace_always_records (trace : ExecutionTrace) (s : State) :
  let s' := exec (Store.save_trace trace) s in
  execution_history (self s') = execution_history (self s) ++ [trace] /\
  (forall key,
      count_of key (self s') =
        count_of key (self s) + occurrences_in key (mistakes trace) /\
      count_of key (self s) <= count_of key (self s')) /\
  total_count (mistake_patterns (self s')) =
    total_count (mistake_patterns (self s)) + Py.len (mistakes trace) /\
  storage_path (self s') = storage_path (self s).
Proof.
  simpl. split; [apply save_trace_history |]. split; [| split].
  - intros key. unfold count_of. rewrite save_trace_patterns, lookup_counted.
    pose proof (occurrences_in_nonneg key (mistakes trace)). lia.
  - by rewrite save_trace_patterns, total_count_counted.
  - apply save_trace_path.
Qed.


Section Templates.

Import Store.

Lemma constraints_map_kinds ty d base :
  Dict.lookup ty (constraints_map d) = Some base -> ty ∈ taxonomy.
Proof.
  unfold constraints_map, taxonomy. cbn [Dict.lookup].
  repeat (case_decide;
          [subst ty; intros _; rewrite !elem_of_cons;
           repeat first [left; reflexivity | right] |]).
  done.
Qed.

Lemma learn_one_templates item :
  preserves (on_store (fun st => Forall built_from_template (learned_constraints st)))
    (learn_one item).
Proof.
  destruct item as [key count]. unfold learn_one.
  destruct (2 <=? count); [| apply preserves_ret].
  destruct (Py.split_colon key) as [[ty d] |] eqn:Hsplit; [| apply preserves_raise].
  apply preserves_bind; [apply preserves_get |]. intros s0.
  destruct (negb _); [| apply preserves_ret].
  unfold _create_constraint.
  destruct (Dict.lookup ty (constraints_map d)) as [base |] eqn:Hbase;
    [| apply preserves_ret].
  destruct (Py.truthy _); [| apply preserves_ret].
  apply preserves_bind; [apply preserves_now |]. intros stamp.
  apply preserves_append_constraint. intros st Hst. simpl.
  apply Forall_app. split; [done |]. repeat constructor.
  exists ty, d, base. simpl. repeat split; try done.
  by eapply constraints_map_kinds.
Qed.

Lemma save_trace_templates trace :
  preserves (on_store (fun st => Forall built_from_template (learned_constraints st)))
    (save_trace trace).
Proof.
  unfold save_trace.
  apply preserves_bind; [by apply preserves_set_self |]. intros _.
  apply preserves_bind.
  { apply preserves_for_each. intros m. by apply preserves_set_self. }
  intros _.
  apply preserves_bind; [| intros _; apply preserves_save].
  apply preserves_bind; [apply preserves_get |]. intros s0.
  apply preserves_for_each. apply learn_one_templates.
Qed.

Lemma run_calls_templates calls s :
  Forall built_from_template (learned_constraints (self s)) ->
  Forall built_from_template (learned_constraints (self (run_calls calls s))).
Proof.
  revert s. induction calls as [| c calls IH]; intros s Hs; [done |].
  simpl. apply IH. destruct c as [task | trace].
  - change (exec (call (CreateTrace task)) s) with (exec (create_trace task) s).
    unfold exec. by rewrite create_trace_run.
  - by apply (save_trace_templates trace s).
Qed.

End Templates.

(** X11. Every constraint the store learns is built from a template: the
    text before the first colon of its pattern key is one of the five
    kinds of [constraints_map], and its text is that kind's template
    applied to the rest of the key, followed by
    " (learned from N past mistakes)" with N its own [occurrences].
    A store whose constraints all have this form keeps it under any
    calls; so a pattern of any other kind, such as the driver's
    [execution_error], never gets a constraint however often it occurs. *)
Theorem constraints_are_built_from_templates (calls : list Call) (s : State) :
  Forall built_from_template (learned_constraints (self s)) ->
  Forall built_from_template (learned_constraints (self (run_calls calls s))) /\
  (forall c d,
      c ∈ learned_constraints (self (run_calls calls s)) ->
      Py.split_colon (pattern_key c) <> Some ("execution_error", d)).
Proof.
  intros Hs. pose proof (run_calls_templates calls s Hs) as Hall.
  split; [done |]. intros c d Hc Hsplit.
  rewrite Forall_forall in Hall.
  destruct (Hall c Hc) as (ty & d' & base & Hsplit' & Hty & _).
  rewrite Hsplit in Hsplit'. injection Hsplit' as <- <-.
  unfold taxonomy in Hty. rewrite !elem_of_cons, elem_of_nil in Hty.
  destruct Hty as [? | [? | [? | [? | [? | []]]]]]; discriminate.
Qed.

(** A trace as the driver saves it after a failed run. *)
Definition failed_run (n : Z) : ExecutionTrace :=
  {| run_id := n; task := "Plan a trip"; timestamp := "2025-01-01T10:00:00";
     trace_tool_calls := []; final_answer := ""; success := false;
     mistakes :=
       [ {| m_type := "execution_error"; m_description := "rate limit exceeded";
            m_step := None; m_timestamp := "2025-01-01T10:00:01" |} ] |}.

Lemma constraints_are_built_from_templates_witness :
  let s := run_calls [SaveTrace (failed_run 1); SaveTrace (failed_run 2);
                      SaveTrace (failed_run 3)]
             (fresh_state "agent_memory.json" wall_clock) in
  count_of "execution_error:rate limit exceeded" (self s) = 3 /\
  Forall built_from_template (learned_constraints (self s)).
Proof.
  split; [reflexivity |].
  apply (constraints_are_built_from_templates
           [SaveTrace (failed_run 1); SaveTrace (failed_run 2); SaveTrace (failed_run 3)]
           (fresh_state "agent_memory.json" wall_clock)).
  apply Forall_nil_2.
Defined.

(** X12. The list [get_active_constraints] returns only ever grows at its
    end: after any calls, the list returned before is a prefix of the
    list returned now, so a constraint once shown keeps its position and
    its text. *)
Theorem active_constraints_only_grow (calls : list Call) (s : State) :
  Store.get_active_constraints (self s) `prefix_of`
    Store.get_active_constraints (self (run_calls calls s)) /\
  (length (Store.get_active_constraints (self s)) <=
   length (Store.get_active_constraints (self (run_calls calls s))))%nat.
Proof.
  destruct (constraints_kept calls s) as [more Hmore].
  unfold Store.get_active_constraints. rewrite Hmore, fmap_app. split.
  - by apply prefix_app_r.
  - rewrite length_app. lia.
Qed.

(* --------------------------------------------------------------------- *)
(** ** A pattern key without a colon                                      *)
(* --------------------------------------------------------------------- *)

Section KeyWithoutColon.

Import Store.

Lemma elem_incr_other k n k0 d :
  (k, n) ∈ d -> k <> k0 -> (k, n) ∈ Dict.incr k0 d.
Proof.
  intros Hin Hne. induction d as [| [k1 v1] d IH]; [by apply elem_of_nil in Hin |].
  cbn [Dict.incr]. apply elem_of_cons in Hin as [[= <- <-] | Hin].
  - destruct (decide (k = k0)); [done | by left].
  - destruct (decide (k1 = k0)); right; [done | by apply IH].
Qed.

Lemma elem_counted k n ms d :
  (k, n) ∈ d -> Py.split_colon k = None -> (k, n) ∈ counted ms d.
Proof.
  intros Hin Hnone. revert d Hin. induction ms as [| m ms IH]; intros d Hin; [done |].
  apply IH. apply elem_incr_other; [done |].
  intros ->. unfold mistake_key in Hnone.
  destruct (split_colon_key (m_type m) (m_description m)) as [x Hx]. congruence.
Qed.

Lemma learn_one_disk item s : disk (exec (learn_one item) s) = disk s.
Proof.
  destruct item as [key count].
  destruct (learn_one_cases key count s) as [[H _] | [[H _] | (text & H & _)]];
    unfold exec; by rewrite H.
Qed.

Lemma learn_loop_disk items s : disk (exec (for_each items learn_one) s) = disk s.
Proof.
  apply (preserves_for_each (fun s' => disk s' = disk s)); [| done].
  intros item s' Hs'. by rewrite learn_one_disk.
Qed.

Lemma learn_loop_raises items s key count :
  (key, count) ∈ items -> Py.split_colon key = None -> 2 <= count ->
  result (for_each items learn_one) s = Raise ValueError.
Proof.
  intros Hin Hnone Hcount. revert s.
  induction items as [| [k n] items IH]; intros s; [by apply elem_of_nil in Hin |].
  unfold result. rewrite run_for_each_cons.
  apply elem_of_cons in Hin as [[= <- <-] | Hin].
  - unfold learn_one. rewrite Hnone.
    destruct (2 <=? count) eqn:E; [done |]. apply Z.leb_gt in E. lia.
  - destruct (learn_one_cases k n s) as [[-> _] | [[-> _] | (text & -> & _)]];
      [by apply IH | done | by apply IH].
Qed.

End KeyWithoutColon.

(** X13. A pattern key without a colon whose count is 2 or more (it can
    only come from the storage file) makes every [save_trace] fail: the
    learning pass raises [ValueError] when it unpacks the key, the file
    is not written, and yet the trace is already in the history and its
    mistakes are already counted. *)
Theorem save_trace_raises_on_key_without_colon
    (trace : ExecutionTrace) (s : State) (key : string) (count : Z) :
  (key, count) ∈ mistake_patterns (self s) ->
  Py.split_colon key = None ->
  2 <= count ->
  let s' := exec (Store.save_trace trace) s in
  result (Store.save_trace trace) s = Raise ValueError /\
  disk s' = disk s /\
  execution_history (self s') = execution_history (self s) ++ [trace] /\
  mistake_patterns (self s') = counted (mistakes trace) (mistake_patterns (self s)) /\
  (key, count) ∈ mistake_patterns (self s').
Proof.
  intros Hin Hnone Hcount s'.
  assert (Hin' : (key, count) ∈ mistake_patterns (self (recorded trace s)))
    by (by apply elem_counted).
  pose proof (learn_loop_raises _ (recorded trace s) key count Hin' Hnone Hcount) as Hraise.
  pose proof (learn_loop_disk (mistake_patterns (self (recorded trace s)))
                (recorded trace s)) as Hdisk.
  split; [| split; [| split; [apply save_trace_history | split]]].
  - unfold result in *. rewrite save_trace_run.
    by destruct (for_each _ Store.learn_one _) as [[[] | e] s2].
  - unfold s', exec, result in *. rewrite save_trace_run.
    destruct (for_each _ Store.learn_one _) as [[[] | e] s2]; simpl in *;
      [discriminate Hraise | exact Hdisk].
  - apply save_trace_patterns.
  - unfold s'. by rewrite save_trace_patterns.
Qed.

(** A storage file written by hand, with a key that has no colon. *)
Definition legacy_document : Document :=
  {| doc_run_counter := Some 7;
     doc_learned_constraints := Some [];
     doc_mistake_patterns := Some [("skipped weather", 4)];
     doc_execution_history := Some [] |}.

Lemma save_trace_raises_on_key_without_colon_witness :
  let files := {[ "agent_memory.json" := legacy_document ]} in
  let s := {| self := Store.init "agent_memory.json" files;
              clock := wall_clock; disk := files |} in
  result (Store.save_trace (run_with 0)) s = Raise ValueError /\
  disk (exec (Store.save_trace (run_with 0)) s) = files.
Proof.
  intros files s.
  destruct (save_trace_raises_on_key_without_colon (run_with 0) s "skipped weather" 4)
    as (Hraise & Hdisk & _).
  - vm_compute. apply list_elem_of_here.
  - reflexivity.
  - lia.
  - split; [exact Hraise | exact Hdisk].
Defined.

(* --------------------------------------------------------------------- *)
(** ** What the storage file holds                                        *)
(* --------------------------------------------------------------------- *)

Section Persisted.

Import Store.

Lemma length_last_n_min {A} n (xs : list A) :
  length (Py.last_n n xs) = Nat.min n (length xs).
Proof. unfold Py.last_n. rewrite length_drop. lia. Qed.

Lemma last_n_short {A} n (xs : list A) : (length xs <= n)%nat -> Py.last_n n xs = xs.
Proof.
  intros Hlen. unfold Py.last_n.
  replace (length xs - n)%nat with 0%nat by lia. done.
Qed.

Lemma init_history_bound path files :
  (length (execution_history (init path files)) <= 50)%nat /\
  storage_path (init path files) = path.
Proof.
  unfold init, _load. simpl. destruct (files !! path) as [data |]; simpl.
  - rewrite length_fmap. split; [apply length_last_n | done].
  - split; [lia | done].
Qed.

End Persisted.

(** X14. When [save_trace] returns, the storage file holds the most
    recent 50 traces of the history, the saved trace last among them,
    while the history in memory keeps every trace: it is the old history
    with the trace appended, however long. *)
Theorem persisted_history_is_last_50 (trace : ExecutionTrace) (s : State) :
  result (Store.save_trace trace) s = Return tt ->
  let s' := exec (Store.save_trace trace) s in
  execution_history (self s') = execution_history (self s) ++ [trace] /\
  exists doc,
    disk s' !! storage_path (self s) = Some doc /\
    doc_execution_history doc =
      Some (Store.to_dict <$> Py.last_n 50 (execution_history (self s) ++ [trace])) /\
    length (Py.last_n 50 (execution_history (self s) ++ [trace])) =
      Nat.min 50 (S (length (execution_history (self s)))) /\
    last (Py.last_n 50 (execution_history (self s) ++ [trace])) = Some trace.
Proof.
  intros Hret s'. split; [apply save_trace_history |].
  pose proof (save_trace_persisted trace s Hret) as Hfile.
  rewrite save_trace_path in Hfile. fold s' in Hfile.
  eexists. split; [exact Hfile |].
  cbn [Store.document doc_execution_history].
  unfold s'. rewrite save_trace_history.
  split; [done |]. split.
  - rewrite length_last_n_min, length_app. cbn [length]. lia.
  - unfold Py.last_n. rewrite length_app. cbn [length].
    rewrite drop_app_le by lia. by rewrite last_snoc.
Qed.

Lemma persisted_history_is_last_50_witness :
  let s := fresh_state "agent_memory.json" wall_clock in
  let s' := exec (Store.save_trace (run_with 1)) s in
  execution_history (self s') = [run_with 1] /\
  exists doc,
    disk s' !! "agent_memory.json" = Some doc /\
    doc_execution_history doc = Some [Store.to_dict (run_with 1)].
Proof.
  intros s s'.
  destruct (persisted_history_is_last_50 (run_with 1) s eq_refl)
    as (Hhist & doc & Hdoc & Hdochist & _).
  split; [exact Hhist |]. exists doc. split; [exact Hdoc | exact Hdochist].
Defined.

(** X15. Restarting is idempotent: a store that was just loaded from the
    disk, saved and loaded again is the same store, whether or not the
    file existed and whatever it held. *)
Theorem reload_after_save_is_identity
    (path : string) (files : gmap string Document) (clk : Clock) :
  let loaded := Store.init path files in
  let s := {| self := loaded; clock := clk; disk := files |} in
  Store.init path (disk (exec Store._save s)) = loaded.
Proof.
  intros loaded s.
  destruct (init_history_bound path files) as [Hlen Hpath].
  fold loaded in Hlen, Hpath.
  pose proof (init_after_save s) as Hinit.
  change (self s) with loaded in Hinit.
  rewrite Hpath in Hinit. rewrite Hinit, (last_n_short _ _ Hlen), <- Hpath.
  by destruct loaded.
Qed.

(* ===================================================================== *)
(** * main.py: the demonstration loop                                     *)
(* ===================================================================== *)

(** What [agent.run(task)] did in one iteration: it returned the raw
    message log, or it raised; [error] is [str(e)]. *)
Inductive AgentOutcome :=
| AgentReturned (messages : list Message)
| AgentRaised (error : string).

(** [str(e)] for the exceptions of the model. *)
Definition str_of_exn (e : exn) : string :=
  match e with
  | ValueError => "not enough values to unpack (expected 2, got 1)"
  | ZeroDivisionError => "division by zero"
  end.

(** [try: m except Exception as e: handler(e)] *)
Definition catch {S A} (m : M S A) (handler : exn -> M S A) : M S A :=
  fun s =>
    match m s with
    | (Return a, s') => (Return a, s')
    | (Raise e, s') => handler e s'
    end.

(** [trace.add_mistake(kind, description)] called by the driver. *)
Definition add_mistake_m (trace : ExecutionTrace) (kind description : string)
    : M State ExecutionTrace :=
  fun s =>
    (Return (Trace.add_mistake trace kind description None (clock s)).1,
     {| self := self s;
        clock := (Trace.add_mistake trace kind description None (clock s)).2;
        disk := disk s |}).

(** The trace object that [save_trace] appended before it raised is the
    one the handler marks: the last element of the history changes with
    it. *)
Definition mark_last (marked : ExecutionTrace) : M State unit :=
  Store.set_self (fun st =>
    {| storage_path := storage_path st;
       execution_history :=
         take (length (execution_history st) - 1) (execution_history st) ++ [marked];
       learned_constraints := learned_constraints st;
       mistake_patterns := mistake_patterns st;
       run_counter := run_counter st |}).

(** One iteration of the loop of [run_demonstration] (printing and the
    delay left out). *)
Definition run_iteration (task : string) (outcome : AgentOutcome) : M State unit :=
  trace ← Store.create_trace task;
  match outcome with
  | AgentRaised error =>
      marked ← add_mistake_m trace "execution_error" error;
      Store.save_trace marked
  | AgentReturned messages =>
      evaluated ← evaluate_m trace messages;
      catch (Store.save_trace evaluated)
        (fun e =>
           marked ← add_mistake_m evaluated "execution_error" (str_of_exn e);
           mark_last marked;;
           Store.save_trace marked)
  end.

(** The loop: an exception that leaves an iteration ends the loop. *)
Definition run_demonstration (runs : list (string * AgentOutcome)) : M State unit :=
  for_each runs (fun run => run_iteration run.1 run.2).

(** What the loop keeps true of a store that started empty. *)
Record demonstrated (st : MemoryStore) : Prop := {
  demo_consistent : consistent st;
  demo_twice : Forall (fun c => occurrences c = 2) (learned_constraints st);
  demo_counter : run_counter st = Py.len (execution_history st);
  demo_run_ids :
    forall i t, execution_history st !! i = Some t -> run_id t = Z.of_nat i + 1;
  demo_success :
    Forall (fun t => success t = true <-> mistakes t = []) (execution_history st)
}.

Section Demonstration.

Import Store.

Lemma filter_other_mistakes key ms :
  key ∉ mistake_key <$> ms -> filter (fun m => mistake_key m = key) ms = [].
Proof.
  induction ms as [| m ms IH]; [done |].
  rewrite fmap_cons, not_elem_of_cons. intros [Hne Hnot].
  rewrite filter_cons, decide_False by done. by apply IH.
Qed.

Lemma occurrences_in_once key ms :
  NoDup (mistake_key <$> ms) -> occurrences_in key ms <= 1.
Proof.
  unfold occurrences_in. induction ms as [| m ms IH]; [simpl; lia |].
  rewrite fmap_cons, NoDup_cons. intros [Hnot Hnd]. rewrite filter_cons.
  destruct (decide (mistake_key m = key)) as [<- | Hne]; [| by apply IH].
  rewrite filter_other_mistakes by done. simpl. lia.
Qed.

(** A trace that carries each pattern once is learned from at count 2. *)
Lemma save_trace_twice trace s :
  consistent (self s) ->
  NoDup (mistake_key <$> mistakes trace) ->
  Forall (fun c => occurrences c = 2) (learned_constraints (self s)) ->
  Forall (fun c => occurrences c = 2) (learned_constraints (self (exec (save_trace trace) s))).
Proof.
  intros Hs Hnd Htwo. rewrite save_trace_self.
  destruct (save_trace_learned trace s) as (Hp & new & Hcs & _ & Hnew).
  rewrite Hcs. apply Forall_app. split; [done |].
  eapply Forall_impl; [exact Hnew |]. intros c (Hitem & H2 & Hlearn & Hfresh).
  simpl in Hfresh.
  assert (Hnd1 : NoDup (fst <$> mistake_patterns (self (recorded trace s))))
    by apply NoDup_keys_counted, Hs.
  pose proof (elem_lookup _ _ _ Hnd1 Hitem) as Hlook.
  pose proof (count_of_recorded (pattern_key c) trace s) as Hcount.
  unfold count_of at 1 in Hcount. rewrite Hlook in Hcount. simpl in Hcount.
  pose proof (occurrences_in_once (pattern_key c) _ Hnd) as Honce.
  assert (Hbelow : count_of (pattern_key c) (self s) < 2).
  { destruct (Z_lt_le_dec (count_of (pattern_key c) (self s)) 2) as [| Hge]; [done |].
    exfalso. unfold count_of in Hge.
    destruct (Dict.lookup (pattern_key c) (mistake_patterns (self s)))
      as [n |] eqn:Hn; simpl in Hge; [| lia].
    apply Hfresh. eapply (all_learned _ Hs); [by apply lookup_elem | lia | done]. }
  lia.
Qed.

Lemma catch_returns {S A} (m : M S A) handler s a :
  result m s = Return a -> catch m handler s = m s.
Proof. unfold result, catch. by destruct (m s) as [[a' | e] s']. Qed.

Lemma demonstrated_after_save trace s :
  consistent (self s) ->
  Forall (fun c => occurrences c = 2) (learned_constraints (self s)) ->
  run_counter (self s) = Py.len (execution_history (self s)) + 1 ->
  (forall i t, execution_history (self s) !! i = Some t -> run_id t = Z.of_nat i + 1) ->
  Forall (fun t => success t = true <-> mistakes t = []) (execution_history (self s)) ->
  run_id trace = run_counter (self s) ->
  NoDup (mistake_key <$> mistakes trace) ->
  (success trace = true <-> mistakes trace = []) ->
  result (save_trace trace) s = Return tt /\
  demonstrated (self (exec (save_trace trace) s)) /\
  execution_history (self (exec (save_trace trace) s)) =
    execution_history (self s) ++ [trace].
Proof.
  intros Hs Htwo Hrc Hids Hsucc Hid Hnd Hflag.
  split; [apply save_trace_returns, Hs |]. split; [| apply save_trace_history].
  split.
  - by apply consistent_save_trace.
  - by apply save_trace_twice.
  - rewrite save_trace_run_counter, save_trace_history, Hrc.
    unfold Py.len. rewrite length_app. simpl. lia.
  - intros i t. rewrite save_trace_history. intros Hi.
    apply lookup_app_Some in Hi as [Hi | [Hge Hi]]; [by apply Hids |].
    destruct (i - length (execution_history (self s)))%nat as [| j] eqn:Hj; [| done].
    simpl in Hi. injection Hi as <-. rewrite Hid, Hrc. unfold Py.len. lia.
  - rewrite save_trace_history. apply Forall_app. split; [done |].
    apply Forall_singleton. exact Hflag.
Qed.

Lemma run_iteration_demonstrated task outcome s :
  demonstrated (self s) ->
  result (run_iteration task outcome) s = Return tt /\
  demonstrated (self (exec (run_iteration task outcome) s)) /\
  length (execution_history (self (exec (run_iteration task outcome) s))) =
    S (length (execution_history (self s))).
Proof.
  intros [Hs Htwo Hrc Hids Hsucc].
  unfold run_iteration, exec, result. rewrite run_bind, create_trace_run.
  set (s1 := {| self := _; clock := _; disk := disk s |}).
  set (trace := Trace.init _ task _).
  assert (Hs1 : consistent (self s1)) by (by destruct Hs).
  assert (Hrc1 : run_counter (self s1) = Py.len (execution_history (self s1)) + 1)
    by (simpl; lia).
  destruct outcome as [messages | error].
  - rewrite run_bind. unfold evaluate_m.
    destruct (evaluate_mistakes trace messages (clock s1)) as (Hm & _ & _ & _ & Hid).
    pose proof (evaluate_success_iff_no_mistakes_aux trace messages (clock s1)) as Hflag.
    destruct (Evaluator.evaluate trace messages (clock s1)) as [evaluated clk] eqn:Hev.
    cbn [fst snd] in Hm, Hid, Hflag.
    set (s2 := {| self := self s1; clock := clk; disk := disk s1 |}).
    destruct (demonstrated_after_save evaluated s2) as (Hret & Hdemo & Hhist); try done.
    { rewrite Hm. unfold trace. cbn [Trace.init mistakes app].
      rewrite stamped_keys. apply findings_keys_NoDup. }
    rewrite (catch_returns _ _ _ _ Hret).
    unfold result, exec in Hret, Hdemo, Hhist.
    split; [done |]. split; [done |]. rewrite Hhist, length_app. simpl. lia.
  - rewrite run_bind. unfold add_mistake_m.
    set (s2 := {| self := self s1; clock := _; disk := disk s1 |}).
    set (marked := (Trace.add_mistake trace "execution_error" error None (clock s1)).1).
    destruct (demonstrated_after_save marked s2) as (Hret & Hdemo & Hhist); try done.
    { simpl. apply NoDup_singleton. }
    unfold result, exec in Hret, Hdemo, Hhist.
    split; [done |]. split; [done |]. rewrite Hhist, length_app. simpl. lia.
Qed.

Lemma run_demonstration_demonstrated runs s :
  demonstrated (self s) ->
  result (run_demonstration runs) s = Return tt /\
  demonstrated (self (exec (run_demonstration runs) s)) /\
  length (execution_history (self (exec (run_demonstration runs) s))) =
    (length (execution_history (self s)) + length runs)%nat.
Proof.
  unfold run_demonstration. revert s.
  induction runs as [| [task outcome] runs IH]; intros s Hs.
  { unfold exec, result. simpl. split; [done |]. split; [done | lia]. }
  destruct (run_iteration_demonstrated task outcome s Hs) as (Hret & Hdemo & Hlen).
  unfold result, exec in *. rewrite run_for_each_cons. cbn [fst snd].
  destruct (run_iteration task outcome s) as [[[] | e] s1]; [| done].
  cbn [fst snd] in *.
  destruct (IH s1 Hdemo) as (Hret' & Hdemo' & Hlen').
  split; [done |]. split; [done |]. rewrite Hlen', Hlen. simpl. lia.
Qed.

Lemma demonstrated_fresh path clk : demonstrated (self (fresh_state path clk)).
Proof.
  split.
  - apply consistent_init.
  - unfold fresh_state, init, _load. rewrite lookup_empty. constructor.
  - unfold fresh_state, init, _load. by rewrite lookup_empty.
  - unfold fresh_state, init, _load. rewrite lookup_empty. by intros i t.
  - unfold fresh_state, init, _load. rewrite lookup_empty. constructor.
Qed.

End Demonstration.

Section DemonstrationTemplates.

Import Store.

Lemma preserves_catch {S A} (P : S -> Prop) (m : M S A) handler :
  preserves P m -> (forall e, preserves P (handler e)) -> preserves P (catch m handler).
Proof.
  intros Hm Hh s Hs. specialize (Hm s Hs). unfold exec, catch in *.
  destruct (m s) as [[a | e] s']; [done |]. by apply Hh.
Qed.

Lemma preserves_create_trace P task :
  (forall st, P st ->
     P {| storage_path := storage_path st;
          execution_history := execution_history st;
          learned_constraints := learned_constraints st;
          mistake_patterns := mistake_patterns st;
          run_counter := run_counter st + 1 |}) ->
  preserves (on_store P) (create_trace task).
Proof.
  intros HP s Hs. unfold exec. rewrite create_trace_run. by apply HP.
Qed.

Lemma run_iteration_templates task outcome :
  preserves (on_store (fun st => Forall built_from_template (learned_constraints st)))
    (run_iteration task outcome).
Proof.
  unfold run_iteration.
  apply preserves_bind; [by apply preserves_create_trace |]. intros trace.
  destruct outcome as [messages | error].
  - apply preserves_bind.
    { intros s Hs. unfold exec, evaluate_m. by destruct (Evaluator.evaluate _ _ _). }
    intros evaluated. apply preserves_catch; [apply save_trace_templates |].
    intros e. apply preserves_bind; [by intros s Hs |]. intros marked.
    apply preserves_bind; [by apply preserves_set_self |]. intros _.
    apply save_trace_templates.
  - apply preserves_bind; [by intros s Hs |]. intros marked.
    apply save_trace_templates.
Qed.

Lemma run_demonstration_templates runs :
  preserves (on_store (fun st => Forall built_from_template (learned_constraints st)))
    (run_demonstration runs).
Proof.
  apply preserves_for_each. intros [task outcome]. apply run_iteration_templates.
Qed.



End DemonstrationTemplates.


(** X17. In the demonstration loop, started on an empty store, every
    constraint is learned at the second occurrence of its pattern: its
    [occurrences] is 2, its text is the template of its kind followed by
    " (learned from 2 past mistakes)", and no two constraints share a
    pattern key. *)
Theorem demonstration_learns_at_second_occurrence
    (path : string) (clk : Clock) (runs : list (string * AgentOutcome)) :
  let s' := exec (run_demonstration runs) (fresh_state path clk) in
  NoDup (pattern_key <$> learned_constraints (self s')) /\
  forall c,
    c ∈ learned_constraints (self s') ->
    occurrences c = 2 /\
    exists ty d base,
      Py.split_colon (pattern_key c) = Some (ty, d) /\
      ty ∈ taxonomy /\
      Dict.lookup ty (Store.constraints_map d) = Some base /\
      constraint c = base +:+ " (learned from 2 past mistakes)".
Proof.
  intros s'.
  destruct (run_demonstration_demonstrated runs (fresh_state path clk)
              (demonstrated_fresh path clk)) as (_ & [Hc Htwo _ _ _] & _).
  fold s' in Hc, Htwo.
  assert (Htpl : Forall built_from_template (learned_constraints (self s'))).
  { apply (run_demonstration_templates runs (fresh_state path clk)).
    unfold on_store, fresh_state, Store.init, Store._load.
    rewrite lookup_empty. constructor. }
  split; [apply one_per_key, Hc |].
  intros c Hin. rewrite Forall_forall in Htwo, Htpl.
  specialize (Htwo c Hin). split; [done |].
  destruct (Htpl c Hin) as (ty & d & base & Hsplit & Hty & Hbase & Htext).
  exists ty, d, base. repeat split; try done. rewrite Htext, Htwo. reflexivity.
Qed.


(* ===================================================================== *)
(** * agent.py: the prompt the agent node builds                          *)
(* ===================================================================== *)

Module Agent.

(** ["\n"] *)
Definition nl : string := String (ascii_of_nat 10) EmptyString.

(** [sep.join(xs)] *)
Fixpoint join (sep : string) (xs : list string) : string :=
  match xs with
  | [] => ""
  | [x] => x
  | x :: rest => x +:+ sep +:+ join sep rest
  end.

Definition confusion_prompts : list string :=
  [ nl +:+ nl +:+
      "Note: You may skip the weather check if you're confident about the destination.";
    nl +:+ nl +:+
      "Note: Feel free to recommend hotels before checking flights if it seems more efficient.";
    nl +:+ nl +:+
      "You can provide a brief answer after checking 1-2 tools if you have enough information." ].

(** [enhanced_messages = list(messages)], then the first message is
    replaced by [HumanMessage(content=original_content + suffix)] when
    there is a first message and it is a [HumanMessage]. *)
Definition enhance (messages : list Message) (suffix : string) : list Message :=
  match messages with
  | HumanMessage original_content :: rest =>
      HumanMessage (original_content +:+ suffix) :: rest
  | _ => messages
  end.

Definition constraint_message (constraints : list string) : string :=
  (nl +:+ nl +:+ "IMPORTANT REMINDERS (based on past mistakes):" +:+ nl)
    +:+ join nl ((fun c => "- " +:+ c) <$> constraints).

(** The messages [_agent_node] passes to [llm_with_tools.invoke], given
    the list [get_active_constraints()] returned. *)
Definition prompt (constraints : list string) (messages : list Message) : list Message :=
  let confusion_level := Z.max 0 (3 - Py.len constraints) in
  if 0 <? confusion_level then
    let confusion_message :=
      if 3 <=? confusion_level then join "" (take 2 confusion_prompts)
      else if 2 <=? confusion_level then default "" (confusion_prompts !! 0%nat)
      else "" in
    enhance messages confusion_message
  else
    match constraints with
    | _ :: _ => enhance messages (constraint_message constraints)
    | [] => messages
    end.

(** [_agent_node]: the state update it returns, for a language model
    [llm] and the store the agent was built with. *)
Definition _agent_node (llm : list Message -> Message) (store : MemoryStore)
    (messages : list Message) : list Message :=
  [llm (prompt (Store.get_active_constraints store) messages)].

End Agent.

Section AgentPrompt.

Import Agent.

Lemma append_empty (s : string) : s +:+ "" = s.
Proof.
  induction s as [| c s IH]; [done |].
  change (String c (s +:+ "") = String c s). by f_equal.
Qed.

Lemma enhance_empty messages : enhance messages "" = messages.
Proof.
  destruct messages as [| [c | c | c tcs | c tid] rest]; try done.
  unfold enhance. by rewrite append_empty.
Qed.

Lemma enhance_shape messages suffix :
  length (enhance messages suffix) = length messages /\
  drop 1 (enhance messages suffix) = drop 1 messages /\
  match messages with
  | HumanMessage original :: _ =>
      head (enhance messages suffix) = Some (HumanMessage (original +:+ suffix))
  | _ => enhance messages suffix = messages
  end.
Proof. by destruct messages as [| [c | c | c tcs | c tid] rest]. Qed.

Lemma prompt_is_enhance constraints messages :
  exists suffix, prompt constraints messages = enhance messages suffix.
Proof.
  unfold prompt. destruct (0 <? _); [by eexists |].
  destruct constraints; [| by eexists].
  exists "". by rewrite enhance_empty.
Qed.

Lemma prompt_by_number constraints messages :
  prompt constraints messages =
  match length constraints with
  | 0%nat => enhance messages (join "" (take 2 confusion_prompts))
  | 1%nat => enhance messages (default "" (confusion_prompts !! 0%nat))
  | 2%nat => messages
  | _ => enhance messages (constraint_message constraints)
  end.
Proof.
  unfold prompt, Py.len.
  destruct constraints as [| c1 [| c2 [| c3 [| c4 rest]]]]; try reflexivity.
  - cbn [length]. by rewrite enhance_empty.
  - cbn [length].
    replace (0 <? Z.max 0 (3 - Z.of_nat (S (S (S (S (length rest))))))) with false;
      [done |].
    symmetry. apply Z.ltb_ge. lia.
Qed.

End AgentPrompt.

(** X19. The agent node never rewrites the conversation beyond its first
    message: the prompt has as many messages as the conversation, all
    messages after the first are passed on as they are, a first message
    that is not a human message is passed on as it is, and a first human
    message keeps its content, with at most a suffix added. *)
Theorem prompt_changes_first_message_only
    (constraints : list string) (messages : list Message) :
  length (Agent.prompt constraints messages) = length messages /\
  drop 1 (Agent.prompt constraints messages) = drop 1 messages /\
  match messages with
  | HumanMessage original :: _ =>
      exists suffix,
        head (Agent.prompt constraints messages) = Some (HumanMessage (original +:+ suffix))
  | _ => Agent.prompt constraints messages = messages
  end.
Proof.
  destruct (prompt_is_enhance constraints messages) as [suffix ->].
  destruct (enhance_shape messages suffix) as (Hlen & Hdrop & Hhead).
  split; [done |]. split; [done |].
  destruct messages as [| [c | c | c tcs | c tid] rest]; try done. by exists suffix.
Qed.

(** X20. The learned constraints reach the language model only once
    there are three of them. With fewer than three constraints the
    prompt does not depend on their texts, only on their number, and
    with exactly two it is the conversation unchanged; with three or
    more, the first human message gets the reminder header followed by
    one line ["- " + text] per constraint, in order. *)
Theorem constraints_reach_prompt_from_three
    (constraints others : list string) (messages : list Message) :
  ((length constraints < 3)%nat -> length others = length constraints ->
   Agent.prompt constraints messages = Agent.prompt others messages) /\
  (length constraints = 2%nat -> Agent.prompt constraints messages = messages) /\
  ((3 <= length constraints)%nat ->
   forall original rest,
     messages = HumanMessage original :: rest ->
     Agent.prompt constraints messages =
       HumanMessage (original +:+ Agent.constraint_message constraints) :: rest).
Proof.
  rewrite !prompt_by_number. split; [| split].
  - intros Hlt ->. by destruct (length constraints) as [| [| [| n]]]; [| | | lia].
  - by intros ->.
  - intros Hge original rest ->.
    by destruct (length constraints) as [| [| [| n]]]; [lia | lia | lia |].
Qed.

Lemma constraints_reach_prompt_from_three_witness :
  Agent.prompt ["a"; "b"] [HumanMessage "Plan a trip"] = [HumanMessage "Plan a trip"] /\
  Agent.prompt ["a"; "b"; "c"] [HumanMessage "Plan a trip"] =
    [HumanMessage ("Plan a trip" +:+ Agent.constraint_message ["a"; "b"; "c"])].
Proof.
  split.
  - apply (proj1 (proj2 (constraints_reach_prompt_from_three
                           ["a"; "b"] [] [HumanMessage "Plan a trip"]))).
    reflexivity.
  - apply (proj2 (proj2 (constraints_reach_prompt_from_three
                           ["a"; "b"; "c"] [] [HumanMessage "Plan a trip"]))).
    + simpl. lia.
    + reflexivity.
Defined.

(* ===================================================================== *)
(** * The verdict of an evaluation                                        *)
(* ===================================================================== *)

Section Verdict.

Import Evaluator.

Definition kind_of (f : finding) : string := f.1.1.

Lemma kind_in_part kind part :
  Forall (fun f => kind_of f = kind) part ->
  kind ∈ kind_of <$> part <-> part <> [].
Proof.
  intros Hall. destruct part as [| f part]; [split; [by intros ?%elem_of_nil | done] |].
  apply Forall_cons in Hall as [Hf _]. split; [done |]. intros _.
  rewrite fmap_cons, Hf. by left.
Qed.

Lemma kind_not_in_part kind kind' part :
  kind <> kind' ->
  Forall (fun f => kind_of f = kind') part ->
  kind ∉ kind_of <$> part.
Proof.
  intros Hne Hall (f & -> & Hf)%list_elem_of_fmap.
  rewrite Forall_forall in Hall. by apply Hne, Hall.
Qed.

Lemma missing_kind used :
  Forall (fun f => kind_of f = MistakeType.MISSING_REQUIRED_TOOL) (missing_findings used).
Proof. rewrite missing_findings_weather. destruct (Py.mem _ used); by repeat constructor. Qed.

Lemma sequence_kind used :
  Forall (fun f => kind_of f = MistakeType.WRONG_SEQUENCE) (sequence_findings used).
Proof.
  destruct (sequence_first_call used) as [Hall _].
  eapply Forall_impl; [exact Hall |]. by intros f [? _].
Qed.

Lemma early_kind used answer :
  Forall (fun f => kind_of f = MistakeType.TOO_EARLY_ANSWER) (early_findings used answer).
Proof. unfold early_findings. destruct (_ && _)%bool; by repeat constructor. Qed.

Lemma ignored_kind used answer :
  Forall (fun f => kind_of f = MistakeType.IGNORED_TOOL_OUTPUT) (ignored_findings used answer).
Proof.
  unfold ignored_findings.
  destruct (negb _); [constructor |]. destruct (0 <? _); [| constructor].
  destruct (is_generic answer); by repeat constructor.
Qed.

Lemma truthy_nonempty answer : Py.truthy answer = true <-> answer <> "".
Proof. by destruct answer. Qed.

Lemma missing_empty used : missing_findings used = [] <-> "check_weather" ∈ used.
Proof.
  rewrite missing_findings_weather. destruct (Py.mem "check_weather" used) eqn:Hmem.
  - by apply mem_true in Hmem.
  - apply mem_false in Hmem. split; [done | by intros ?].
Qed.

Lemma early_empty used answer :
  early_findings used answer = [] <-> ~ (answer <> "" /\ (length used < 2)%nat).
Proof.
  unfold early_findings, Py.len.
  destruct (Py.truthy answer) eqn:Ht; destruct (Z.of_nat (length used) <? 2) eqn:Hl; simpl.
  - apply truthy_nonempty in Ht. apply Z.ltb_lt in Hl.
    split; [done |]. intros Hnot. exfalso. apply Hnot. split; [done | lia].
  - apply Z.ltb_ge in Hl. split; [| done]. intros _ [_ ?]. lia.
  - split; [| done]. intros _ [Hne _]. apply truthy_nonempty in Hne. congruence.
  - split; [| done]. intros _ [Hne _]. apply truthy_nonempty in Hne. congruence.
Qed.

Lemma ignored_empty used answer :
  ignored_findings used answer = [] <->
  ~ (answer <> "" /\ used <> [] /\ is_generic answer = true).
Proof.
  unfold ignored_findings, Py.len.
  destruct (Py.truthy answer) eqn:Ht; simpl.
  2:{ split; [| done]. intros _ [Hne _]. apply truthy_nonempty in Hne. congruence. }
  apply truthy_nonempty in Ht.
  destruct (0 <? Z.of_nat (length used)) eqn:Hl.
  - apply Z.ltb_lt in Hl. destruct (is_generic answer).
    + split; [done |]. intros Hnot. exfalso. apply Hnot. repeat split; try done.
      intros ->. simpl in Hl. lia.
    + split; [| done]. by intros _ (_ & _ & ?).
  - apply Z.ltb_ge in Hl. split; [| done]. intros _ (_ & Hne & _).
    destruct used; [done | simpl in Hl; lia].
Qed.

Lemma evaluate_view t log clk :
  tools_used (evaluate t log clk).1 = tools_used (_extract_tool_calls t log) /\
  final_answer (evaluate t log clk).1 = final_answer (_extract_tool_calls t log).
Proof.
  rewrite evaluate_records.
  set (t0 := _extract_tool_calls t log).
  pose proof (record_all_tools_used (findings (tools_used t0) (final_answer t0)) t0 clk) as Hu.
  pose proof (record_all_final_answer (findings (tools_used t0) (final_answer t0)) t0 clk) as Ha.
  destruct (record_all _ t0 clk) as [r c]. simpl in Hu, Ha. by rewrite <- Hu, <- Ha.
Qed.

Lemma stamped_kinds fs reading n : m_type <$> stamped fs reading n = kind_of <$> fs.
Proof. apply stamped_types. Qed.

End Verdict.

(** X21. The verdict of [evaluate] on a trace that carried no mistake,
    in terms of the tool names and the final answer it ends with. It
    records a missing-tool mistake exactly when no call is named
    [check_weather]; a wrong-sequence mistake exactly when there are two
    calls or more and their order is not accepted; an early-answer
    mistake exactly when there is a final answer and fewer than two
    calls; an ignored-output mistake exactly when there is a final
    answer, at least one call, and the answer holds a refusal phrase.
    The run is a success exactly when none of the four applies. *)
Theorem evaluate_verdict
    (trace : ExecutionTrace) (log : list Message) (clk : Clock) :
  mistakes trace = [] ->
  let evaluated := (Evaluator.evaluate trace log clk).1 in
  let used := Evaluator.tools_used evaluated in
  let answer := final_answer evaluated in
  let kinds := m_type <$> mistakes evaluated in
  (MistakeType.MISSING_REQUIRED_TOOL ∈ kinds <-> "check_weather" ∉ used) /\
  (MistakeType.WRONG_SEQUENCE ∈ kinds <->
     (2 <= length used)%nat /\ ~ order_accepted used) /\
  (MistakeType.TOO_EARLY_ANSWER ∈ kinds <-> answer <> "" /\ (length used < 2)%nat) /\
  (MistakeType.IGNORED_TOOL_OUTPUT ∈ kinds <->
     answer <> "" /\ used <> [] /\ is_generic answer = true) /\
  (success evaluated = true <->
     "check_weather" ∈ used /\
     ((length used < 2)%nat \/ order_accepted used) /\
     ~ (answer <> "" /\ (length used < 2)%nat) /\
     ~ (answer <> "" /\ used <> [] /\ is_generic answer = true)).
Proof.
  intros Hnone evaluated used answer kinds.
  destruct (evaluate_view trace log clk) as [Hused Hanswer].
  destruct (evaluate_mistakes trace log clk) as (Hm & _ & _ & Hs & _).
  fold evaluated in Hused, Hanswer, Hm, Hs. fold used in Hused. fold answer in Hanswer.
  rewrite <- Hused, <- Hanswer, Hnone in Hm, Hs. simpl in Hm, Hs.
  assert (Hkinds : kinds = kind_of <$> findings used answer)
    by (unfold kinds; by rewrite Hm, stamped_kinds).
  pose proof (missing_kind used) as K1. pose proof (sequence_kind used) as K2.
  pose proof (early_kind used answer) as K3. pose proof (ignored_kind used answer) as K4.
  rewrite Hkinds. unfold findings. rewrite !fmap_app, !elem_of_app.
  split; [| split; [| split; [| split]]].
  - rewrite (kind_in_part _ _ K1), <- missing_empty.
    split; [intros [? | [H | [H | H]]]; [done | | |] | by left];
      exfalso; revert H; eapply kind_not_in_part; try eassumption; discriminate.
  - rewrite (kind_in_part _ _ K2), sequence_accepted.
    split.
    + intros [H | [H | [H | H]]];
        [exfalso; revert H; eapply kind_not_in_part; try eassumption; discriminate
        | | exfalso; revert H; eapply kind_not_in_part; try eassumption; discriminate
        | exfalso; revert H; eapply kind_not_in_part; try eassumption; discriminate].
      split; [| tauto]. destruct (le_lt_dec 2 (length used)); [done | tauto].
    + intros [Hlen Hnot]. right; left. intros [? | ?]; [lia | done].
  - rewrite (kind_in_part _ _ K3), early_empty.
    split.
    + intros [H | [H | [H | H]]];
        [exfalso; revert H; eapply kind_not_in_part; try eassumption; discriminate
        | exfalso; revert H; eapply kind_not_in_part; try eassumption; discriminate
        | | exfalso; revert H; eapply kind_not_in_part; try eassumption; discriminate].
      destruct (decide (answer = "")) as [-> | ?]; [exfalso; apply H; tauto |].
      destruct (le_lt_dec 2 (length used)); [exfalso; apply H; intros [_ ?]; lia | done].
    + intros Hyes. right; right; left. tauto.
  - rewrite (kind_in_part _ _ K4), ignored_empty.
    split.
    + intros [H | [H | [H | H]]];
        [exfalso; revert H; eapply kind_not_in_part; try eassumption; discriminate
        | exfalso; revert H; eapply kind_not_in_part; try eassumption; discriminate
        | exfalso; revert H; eapply kind_not_in_part; try eassumption; discriminate |].
      destruct (decide (answer = "")) as [-> | ?]; [exfalso; apply H; tauto |].
      destruct used as [| u used']; [exfalso; apply H; tauto |].
      destruct (is_generic answer); [done | exfalso; apply H; intros (_ & _ & ?); done].
    + intros Hyes. right; right; right. tauto.
  - rewrite Hs. split.
    + intros H%len_zero_nil%stamped_nil. unfold findings in H.
      apply app_eq_nil in H as [H1 H]. apply app_eq_nil in H as [H2 H].
      apply app_eq_nil in H as [H3 H4].
      apply missing_empty in H1. apply sequence_accepted in H2.
      apply early_empty in H3. by apply ignored_empty in H4.
    + intros (H1 & H2 & H3 & H4). apply len_zero_nil, stamped_nil. unfold findings.
      apply missing_empty in H1. apply sequence_accepted in H2.
      apply early_empty in H3. apply ignored_empty in H4.
      by rewrite H1, H2, H3, H4.
Qed.

Lemma evaluate_verdict_witness :
  success (Evaluator.evaluate (Trace.init 1 "Plan a 5-day trip to Paris" "t0")
             recommended_log wall_clock).1 = true <->
  "check_weather" ∈ RECOMMENDED_SEQUENCE /\
  ((4 < 2)%nat \/ order_accepted RECOMMENDED_SEQUENCE) /\
  ~ ("Here is your plan: fly with AirTravel and stay at Grand Hotel." <> "" /\ (4 < 2)%nat) /\
  ~ ("Here is your plan: fly with AirTravel and stay at Grand Hotel." <> "" /\
     RECOMMENDED_SEQUENCE <> [] /\
     is_generic "Here is your plan: fly with AirTravel and stay at Grand Hotel." = true).
Proof.
  exact (proj2 (proj2 (proj2 (proj2
           (evaluate_verdict (Trace.init 1 "Plan a 5-day trip to Paris" "t0")
              recommended_log wall_clock eq_refl))))).
Defined.

(* ===================================================================== *)
(** * When a pattern has a constraint                                     *)
(* ===================================================================== *)

(** X22. In a store that started empty, after any calls, a pattern key
    has a constraint exactly when its count is 2 or more and its kind has
    a template; the constraint then is unique and its [occurrences] lies
    between 2 and the present count. *)
Theorem constraint_exists_iff_counted_twice
    (path : string) (clk : Clock) (calls : list Call) (key : string) :
  let st := self (run_calls calls (fresh_state path clk)) in
  (key ∈ pattern_key <$> learned_constraints st <->
     2 <= count_of key st /\ learnable key) /\
  (forall c, c ∈ learned_constraints st -> pattern_key c = key ->
             2 <= occurrences c <= count_of key st /\
             filter (fun c' => pattern_key c' = key) (learned_constraints st) = [c]).
Proof.
  intros st.
  assert (Hc : consistent st)
    by (apply consistent_run_calls, consistent_init).
  assert (Htpl : Forall built_from_template (learned_constraints st)).
  { apply run_calls_templates. unfold fresh_state, Store.init, Store._load.
    rewrite lookup_empty. constructor. }
  rewrite Forall_forall in Htpl.
  split.
  - split.
    + intros (c & -> & Hin)%list_elem_of_fmap. split.
      * pose proof (not_later _ Hc c Hin). lia.
      * destruct (Htpl c Hin) as (ty & d & base & Hsplit & _ & Hbase & _).
        exists ty, d. split; [done |]. by rewrite Hbase.
    + intros [Hcount Hlearn]. unfold count_of in Hcount.
      destruct (Dict.lookup key (mistake_patterns st)) as [n |] eqn:Hn;
        simpl in Hcount; [| lia].
      eapply (all_learned _ Hc); [by apply lookup_elem | lia | done].
  - intros c Hin <-. split; [by apply (not_later _ Hc) |].
    apply filter_key_singleton; [apply one_per_key, Hc | done].
Qed.
